(** * Clip pipeline of the video QA application: model and properties

    The main-process modules embedded here are
    [utils/runCommand.ts], [ffprobe.ts], [videoMetadata.ts], [duration.ts],
    [paths.ts], [logs.ts], [db/queries.ts] (with the constraints of
    [db/schema.ts]), [clipMetadataBackfill.ts], [clipPipeline.ts],
    [recovery.ts], [metadataPipeline.ts] and the handlers of
    [ipcVideos.ts] that set the status of a video and delete videos.

    Conventions of the embedding.
    - A JavaScript number is one of the three non-finite values or a
      finite number, which stands by its exact value ([Qc]). The
      conversion of a text to a number and the division round to
      binary64, with overflow and underflow ([round64]). The plan of the
      segments (a quotient by 120, its ceiling, a difference) is computed
      exactly; binary64 arithmetic computes the same plan for a binary64
      duration below 2^53 ([plan_is_exact]). The sign of a zero is not
      kept.
    - A string is a sequence of code units below 256.
    - [undefined] is [None] in an [option]; [null] inside parsed JSON is
      [JNull]. Objects of parsed JSON are taken not to carry keys named
      [toString] or [valueOf].
    - An [async] function is a resumption: it runs synchronously up to
      the next child process it spawns and is resumed with that child's
      result in whatever world exists by then. An [await] on a promise
      that is already settled lets nothing else touch the world.
    - The database is open; its statements fail only on the constraints
      of the schema. Creating directories, listing them, removing them
      and appending to a log do not fail.
    - Paths are POSIX paths below an absolute working directory, and a
      video id is a plain file name, so that [path.resolve] and
      [path.join] put their arguments one after the other with a
      separator. *)

From Stdlib Require Import ZArith QArith Qcanon Qround Qpower Lqa String Ascii List.
From stdpp Require Import base option list sorting gmap strings pretty.

Local Open Scope string_scope.
Local Open Scope Z_scope.

Set Warnings "-register-all".

(** ** Numbers *)

Inductive Num := Fin (q : Qc) | NaN | PosInf | NegInf.

Definition Number_isFinite (n : Num) : bool :=
  match n with Fin _ => true | _ => false end.

Definition Qc_of_Z (z : Z) : Qc := Q2Qc (inject_Z z).

Definition Qc_ltb (a b : Qc) : bool := bool_decide (a < b)%Qc.
Definition Qc_leb (a b : Qc) : bool := bool_decide (a <= b)%Qc.
Definition Qc_eqb (a b : Qc) : bool := bool_decide (a = b).

Definition Qc_min (a b : Qc) : Qc := if Qc_leb a b then a else b.
Definition Qc_max (a b : Qc) : Qc := if Qc_leb a b then b else a.

(** [Math.ceil] on a finite number. *)
Definition Math_ceil (q : Qc) : Z := Qceiling q.

(** ten to an integer power *)
Definition pow10 (e : Z) : Qc :=
  if 0 <=? e then Qc_of_Z (10 ^ e) else Q2Qc (1 # Z.to_pos (10 ^ (- e))).

(** ** binary64

    A finite number stands for a binary64 number by its exact value. The
    operations whose rounding, overflow or underflow the code can
    observe round their exact result with [round64]; the sign of a zero
    is not kept. *)

(** the integer nearest to [n / d], ties to even, for [0 <= n], [0 < d] *)
Definition roundHalfEven (n d : Z) : Z :=
  let q := n / d in
  match 2 * (n mod d) ?= d with
  | Lt => q
  | Gt => q + 1
  | Eq => if Z.even q then q else q + 1
  end.

(** [floor (log2 (n / d))] for [0 < n], [0 < d] *)
Definition log2Floor (n d : Z) : Z :=
  let s := Z.log2 n - Z.log2 d in
  if (if 0 <=? s then n <? d * 2 ^ s else n * 2 ^ (- s) <? d) then s - 1 else s.

(** the binary64 number nearest to [n / d], ties to even, for [0 < n],
    [0 < d]: 53 significant bits, exponents from -1074 on, and [None]
    when the rounded magnitude reaches 2^1024 *)
Definition roundMagnitude (n d : Z) : option Qc :=
  let e := Z.max (log2Floor n d - 52) (-1074) in
  if 0 <=? e then
    let m := roundHalfEven n (d * 2 ^ e) in
    if 2 ^ 1024 <=? m * 2 ^ e then None else Some (Qc_of_Z (m * 2 ^ e))
  else
    let m := roundHalfEven (n * 2 ^ (- e)) d in
    Some (Q2Qc (m # Z.to_pos (2 ^ (- e)))).

(** the binary64 number that an exact result is rounded to *)
Definition round64 (q : Qc) : Num :=
  let n := Qnum q in
  let d := Zpos (Qden q) in
  if n =? 0 then Fin (Qc_of_Z 0)
  else if 0 <? n then
    match roundMagnitude n d with Some r => Fin r | None => PosInf end
  else
    match roundMagnitude (- n) d with Some r => Fin (- r)%Qc | None => NegInf end.

(** [q] is the value of a binary64 number *)
Definition binary64 (q : Qc) : bool :=
  match round64 q with Fin r => Qc_eqb r q | _ => false end.

(** [Number.isFinite(n) ? n : null] *)
Definition finiteOrNull (n : Num) : option Qc :=
  match n with Fin q => Some q | _ => None end.

(** [a / b] for finite [a] and [b], [b] not zero *)
Definition Num_div (a b : Qc) : Num := round64 (a / b)%Qc.

(** [a - b] for finite [a] and [b] *)
Definition Num_sub (a b : Qc) : Num := round64 (a - b)%Qc.

(** [a < b] *)
Definition Num_ltb (a b : Num) : bool :=
  match a, b with
  | Fin x, Fin y => Qc_ltb x y
  | Fin _, PosInf | NegInf, Fin _ | NegInf, PosInf => true
  | _, _ => false
  end.

(** the number that the literal [0.01] denotes *)
Definition hundredth : Qc := Q2Qc (5764607523034235 # 576460752303423488).

(** ** Strings *)

Definition chars (s : string) : list ascii := list_ascii_of_string s.

Definition isWhiteSpace (c : ascii) : bool :=
  bool_decide (nat_of_ascii c ∈ [9; 10; 11; 12; 13; 32; 160]%nat).

Fixpoint trimStart (l : list ascii) : list ascii :=
  match l with
  | c :: r => if isWhiteSpace c then trimStart r else l
  | [] => []
  end.

Definition trimChars (l : list ascii) : list ascii :=
  rev (trimStart (rev (trimStart l))).

(** [String.prototype.trim] *)
Definition trim (s : string) : string := string_of_list_ascii (trimChars (chars s)).

(** [s.split(sep)] for a one-character separator *)
Fixpoint splitGo (sep : ascii) (cur : list ascii) (l : list ascii) : list string :=
  match l with
  | [] => [string_of_list_ascii (rev cur)]
  | c :: r =>
      if Ascii.eqb c sep then string_of_list_ascii (rev cur) :: splitGo sep [] r
      else splitGo sep (c :: cur) r
  end.

Definition split (sep : ascii) (s : string) : list string := splitGo sep [] (chars s).

(** [s.slice(0, n)] *)
Definition slice0 (n : nat) (s : string) : string := substring 0 n s.

Definition startsWith (p s : string) : bool := String.prefix p s.

Definition endsWith (p s : string) : bool :=
  let n := String.length s in
  let k := String.length p in
  (k <=? n)%nat && String.eqb (substring (n - k) k s) p.

(** ** [Number(string)]: the StringToNumber grammar

    The text denotes an exact decimal (or an integer in another radix),
    and the number is that value rounded to binary64: ["1e400"] is
    [Infinity] and ["1e-400"] is 0. *)

Definition digitValue (c : ascii) : option Z :=
  let n := Z.of_nat (nat_of_ascii c) in
  if (48 <=? n) && (n <=? 57) then Some (n - 48)
  else if (97 <=? n) && (n <=? 102) then Some (n - 87)
  else if (65 <=? n) && (n <=? 70) then Some (n - 55)
  else None.

Definition digitIn (base : Z) (c : ascii) : option Z :=
  match digitValue c with
  | Some d => if d <? base then Some d else None
  | None => None
  end.

(** longest prefix of digits: its value, its length, what follows *)
Fixpoint scanDigits (base : Z) (l : list ascii) (acc : Z) (n : nat)
  : Z * nat * list ascii :=
  match l with
  | c :: r =>
      match digitIn base c with
      | Some d => scanDigits base r (acc * base + d) (S n)
      | None => (acc, n, l)
      end
  | [] => (acc, n, [])
  end.

Definition scanSign (l : list ascii) : Z * list ascii :=
  match l with
  | "+"%char :: r => (1, r)
  | "-"%char :: r => (-1, r)
  | _ => (1, l)
  end.

Definition isNil {A} (l : list A) : bool := match l with [] => true | _ => false end.

Definition scanExponent (l : list ascii) : option Z :=
  match l with
  | [] => Some 0
  | c :: r =>
      if Ascii.eqb c "e" || Ascii.eqb c "E" then
        let '(sg, r1) := scanSign r in
        let '(v, n, r2) := scanDigits 10 r1 0 0 in
        if (n =? 0)%nat || negb (isNil r2) then None else Some (sg * v)
      else None
  end.

Definition scanUnsignedDecimal (l : list ascii) : option Qc :=
  let '(ip, ni, r1) := scanDigits 10 l 0 0 in
  let '(fp, nf, r2) :=
    match r1 with
    | "."%char :: r => scanDigits 10 r 0 0
    | _ => (0, 0%nat, r1)
    end in
  if (ni =? 0)%nat && (nf =? 0)%nat then None
  else match scanExponent r2 with
       | Some e =>
           Some (Qc_of_Z (ip * 10 ^ Z.of_nat nf + fp) * pow10 (e - Z.of_nat nf))%Qc
       | None => None
       end.

Definition scanRadix (base : Z) (l : list ascii) : Num :=
  let '(v, n, r) := scanDigits base l 0 0 in
  if (n =? 0)%nat || negb (isNil r) then NaN else round64 (Qc_of_Z v).

Definition StringToNumber (s : string) : Num :=
  match trimChars (chars s) with
  | [] => Fin (Qc_of_Z 0)
  | "0"%char :: ("x" | "X")%char :: r => scanRadix 16 r
  | "0"%char :: ("o" | "O")%char :: r => scanRadix 8 r
  | "0"%char :: ("b" | "B")%char :: r => scanRadix 2 r
  | l =>
      let '(sg, r) := scanSign l in
      if String.eqb (string_of_list_ascii r) "Infinity" then
        (if sg =? 1 then PosInf else NegInf)
      else match scanUnsignedDecimal r with
           | Some q => round64 (Qc_of_Z sg * q)%Qc
           | None => NaN
           end
  end.

(** ** Parsed JSON and the coercions applied to it *)

Inductive Json :=
| JNull
| JBool (b : bool)
| JNum (n : Qc)
| JStr (s : string)
| JArr (items : list Json)
| JObj (fields : list (string * Json)).

Fixpoint assoc {A} (k : string) (l : list (string * A)) : option A :=
  match l with
  | [] => None
  | (k', v) :: r => if String.eqb k k' then Some v else assoc k r
  end.

(** [x.k] and [x?.k] on a value that is not [null] or [undefined]; on
    those two, [prop] is the optional chain [x?.k]. *)
Definition prop (k : string) (x : option Json) : option Json :=
  match x with
  | Some (JObj fs) => assoc k fs
  | _ => None
  end.

(** [x ?? y] *)
Definition nullish {A} (x : option A) (y : option A) : option A :=
  match x with Some _ => x | None => y end.

(** JSON [null] and [undefined] are both nullish. *)
Definition notNullish (x : option Json) : option Json :=
  match x with Some JNull => None | _ => x end.

Definition truthy (x : option Json) : bool :=
  match x with
  | None | Some JNull => false
  | Some (JBool b) => b
  | Some (JNum n) => negb (Qc_eqb n (Qc_of_Z 0))
  | Some (JStr s) => negb (String.eqb s "")
  | Some (JArr _) | Some (JObj _) => true
  end.

Definition typeofString (x : option Json) : option string :=
  match x with Some (JStr s) => Some s | _ => None end.

(** Builtins of the platform that the development leaves uninterpreted:
    the text of a number, [JSON.parse] on the output of a child process
    and the message of the error it throws on a text that is not JSON,
    the working directory, the ISO text of an instant and [Date.parse]. *)
Class Platform := {
  Number_toString : Qc -> string;
  JSON_parse : string -> option Json;
  JSON_parse_message : string -> string;
  cwd : string;
  Date_toISOString : Z -> string;
  Date_parse : string -> Num;
}.

Section Model.
Context `{Platform}.

(** [String(x)] *)
Fixpoint String_ (j : Json) : string :=
  match j with
  | JNull => "null"
  | JBool true => "true"
  | JBool false => "false"
  | JNum n => Number_toString n
  | JStr s => s
  | JArr l =>
      (fix join (l : list Json) : string :=
         match l with
         | [] => ""
         | x :: r =>
             let e := match x with JNull => "" | _ => String_ x end in
             match r with
             | [] => e
             | _ => e +:+ "," +:+ join r
             end
         end) l
  | JObj _ => "[object Object]"
  end.

(** [Number(x)] *)
Definition Number_ (x : option Json) : Num :=
  match x with
  | None => NaN
  | Some JNull => Fin (Qc_of_Z 0)
  | Some (JBool b) => Fin (Qc_of_Z (if b then 1 else 0))
  | Some (JNum n) => Fin n
  | Some (JStr s) => StringToNumber s
  | Some j => StringToNumber (String_ j)
  end.

(** ** videoMetadata.ts *)

Definition parseFraction (fr : option Json) : option Qc :=
  if negb (truthy fr) then None
  else
    let s := match fr with Some j => String_ j | None => "" end in
    let parts := split "/" s in
    match parts with
    | [p0; p1] =>
        match StringToNumber p0, StringToNumber p1 with
        | Fin num, Fin den =>
            if Qc_eqb den (Qc_of_Z 0) then None
            else
              let val := Num_div num den in
              if Number_isFinite val && Num_ltb (Fin (Qc_of_Z 0)) val
              then finiteOrNull val else None
        | _, _ => None
        end
    | _ =>
        match StringToNumber s with
        | Fin asNum => Some asNum
        | _ => None
        end
    end.

Definition parseDurationSeconds (x : option Json) : option Qc :=
  match Number_ x with
  | Fin n => if Qc_leb (Qc_of_Z 0) n then Some n else None
  | _ => None
  end.


(** ** The world: database tables, files, clock, in-flight set *)

Inductive VideoStatus := Pending | Approved | Rejected.
Inductive ClipJobState := NotStarted | Generating | Done | Failed.

#[export] Instance VideoStatus_eq_dec : EqDecision VideoStatus.
Proof. solve_decision. Defined.
#[export] Instance ClipJobState_eq_dec : EqDecision ClipJobState.
Proof. solve_decision. Defined.

Definition statusName (s : VideoStatus) : string :=
  match s with Pending => "Pending" | Approved => "Approved" | Rejected => "Rejected" end.

(** The [metadata_json] column is written by [JSON.stringify] and read by
    [JSON.parse] only, so its text is kept as the value it denotes; a text
    on which [JSON.parse] throws is kept as [NotJson]. *)
Inductive JsonText := JsonOf (j : Json) | NotJson (s : string).

Definition JSON_stringify (j : Json) : JsonText := JsonOf j.

Definition JSON_parseText (t : JsonText) : option Json :=
  match t with JsonOf j => Some j | NotJson _ => None end.

Definition textTruthy (t : JsonText) : bool :=
  match t with JsonOf _ => true | NotJson s => negb (String.eqb s "") end.

(** Rows hold the columns other than the key they are stored under. *)
Record VideoRow := {
  created_at : string;
  filename : string;
  original_path : string;
  status : VideoStatus;
  metadata_json : option JsonText;
  rotation_raw : option string;
  error_message : option string;
}.

Record ClipRow := {
  clip_id : string;
  path : string;
  duration : option Qc;
  fps : option Qc;
  width : option Qc;
  height : option Qc;
  file_size_bytes : option Qc;
}.

Record JobRow := {
  state : ClipJobState;
  last_stderr : option string;
  last_exit_code : option Z;
  updated_at : string;
}.

(** What [fs.statSync] answers for a directory entry: [Stat true n] for
    a regular file of [n] bytes, [Stat false n] for a directory, and
    [NoStat] for an entry that cannot be accessed. *)
Inductive Node := NoStat | Stat (isFile : bool) (size : N).

Record World := {
  videos : gmap string VideoRow;
  clips : gmap (string * nat) ClipRow;
  clip_jobs : gmap string JobRow;
  dirs : gset string;
  files : gmap string Node;
  logs : gmap string string;
  clock : Z;
  activeJobs : gset string;
}.

Definition setVideos (f : gmap string VideoRow -> gmap string VideoRow) (w : World) : World :=
  {| videos := f (videos w); clips := clips w; clip_jobs := clip_jobs w; dirs := dirs w;
     files := files w; logs := logs w; clock := clock w; activeJobs := activeJobs w |}.
Definition setClips (f : gmap (string * nat) ClipRow -> gmap (string * nat) ClipRow) (w : World) : World :=
  {| videos := videos w; clips := f (clips w); clip_jobs := clip_jobs w; dirs := dirs w;
     files := files w; logs := logs w; clock := clock w; activeJobs := activeJobs w |}.
Definition setJobs (f : gmap string JobRow -> gmap string JobRow) (w : World) : World :=
  {| videos := videos w; clips := clips w; clip_jobs := f (clip_jobs w); dirs := dirs w;
     files := files w; logs := logs w; clock := clock w; activeJobs := activeJobs w |}.
Definition setDirs (f : gset string -> gset string) (w : World) : World :=
  {| videos := videos w; clips := clips w; clip_jobs := clip_jobs w; dirs := f (dirs w);
     files := files w; logs := logs w; clock := clock w; activeJobs := activeJobs w |}.
Definition setFiles (f : gmap string Node -> gmap string Node) (w : World) : World :=
  {| videos := videos w; clips := clips w; clip_jobs := clip_jobs w; dirs := dirs w;
     files := f (files w); logs := logs w; clock := clock w; activeJobs := activeJobs w |}.
Definition setLogs (f : gmap string string -> gmap string string) (w : World) : World :=
  {| videos := videos w; clips := clips w; clip_jobs := clip_jobs w; dirs := dirs w;
     files := files w; logs := f (logs w); clock := clock w; activeJobs := activeJobs w |}.
Definition setActiveJobs (f : gset string -> gset string) (w : World) : World :=
  {| videos := videos w; clips := clips w; clip_jobs := clip_jobs w; dirs := dirs w;
     files := files w; logs := logs w; clock := clock w; activeJobs := f (activeJobs w) |}.

(** ** Results, child processes and resumptions *)

Inductive Exn := Error (msg : string) | TypeError (msg : string) | SqliteError (msg : string).

Inductive Result (A : Type) := Ok (a : A) | Thrown (e : Exn).
#[global] Arguments Ok {A} a.
#[global] Arguments Thrown {A} e.

Record CommandResult := {
  exitCode : Z;
  stdout : string;
  stderr : string;
}.

(** A call of [runCommand(cmd, args, { timeoutMs })]. *)
Record Request := {
  cmd : string;
  args : list string;
  timeoutMs : option Z;
}.

(** A computation either has finished, or waits for the child process of
    [req]; it is resumed with the child's result and the world of that
    moment. *)
Inductive Step (A : Type) :=
| Finished (r : Result A) (w : World)
| Suspended (req : Request) (w : World) (k : CommandResult -> World -> Step A).
#[global] Arguments Finished {A} r w.
#[global] Arguments Suspended {A} req w k.

Definition Async (A : Type) : Type := World -> Step A.

Fixpoint bindStep {A B} (s : Step A) (f : A -> Async B) : Step B :=
  match s with
  | Finished (Ok a) w => f a w
  | Finished (Thrown e) w => Finished (Thrown e) w
  | Suspended req w k => Suspended req w (fun r w' => bindStep (k r w') f)
  end.

#[export] Instance Async_ret : MRet Async := fun A a w => Finished (Ok a) w.
#[export] Instance Async_bind : MBind Async := fun A B f m w => bindStep (m w) f.

Definition throw {A} (e : Exn) : Async A := fun w => Finished (Thrown e) w.
Definition gets {A} (f : World -> A) : Async A := fun w => Finished (Ok (f w)) w.
Definition modify (f : World -> World) : Async unit := fun w => Finished (Ok tt) (f w).

(** [await runCommand(cmd, args, opts)] as seen by the caller *)
Definition runCommand (cmd : string) (args : list string) (timeoutMs : option Z)
  : Async CommandResult :=
  fun w => Suspended {| cmd := cmd; args := args; timeoutMs := timeoutMs |} w
             (fun r w' => Finished (Ok r) w').

(** [try { m } catch { h }] *)
Fixpoint catchStep {A} (s : Step A) (h : Exn -> Async A) : Step A :=
  match s with
  | Finished (Ok a) w => Finished (Ok a) w
  | Finished (Thrown e) w => h e w
  | Suspended req w k => Suspended req w (fun r w' => catchStep (k r w') h)
  end.
Definition tryCatch {A} (m : Async A) (h : Exn -> Async A) : Async A :=
  fun w => catchStep (m w) h.

(** [try { m } finally { c }] for a cleanup [c] that cannot throw *)
Fixpoint finallyStep {A} (s : Step A) (c : World -> World) : Step A :=
  match s with
  | Finished r w => Finished r (c w)
  | Suspended req w k => Suspended req w (fun r w' => finallyStep (k r w') c)
  end.
Definition tryFinally {A} (m : Async A) (c : World -> World) : Async A :=
  fun w => finallyStep (m w) c.

(** ** The filesystem (node:fs), as far as the pipeline uses it

    Creating and listing directories and appending to a log are taken
    not to fail; [fs.statSync] fails on a missing or unreadable entry. *)

Definition ensureDir (p : string) : Async unit :=
  modify (setDirs (fun d => {[p]} ∪ d)).

Definition statSync (p : string) : Async (bool * N) :=
  fun w => match files w !! p with
           | Some (Stat f n) => Finished (Ok (f, n)) w
           | Some NoStat => Finished (Thrown (Error ("EACCES: " +:+ p))) w
           | None => Finished (Thrown (Error ("ENOENT: " +:+ p))) w
           end.

(** [fs.unlinkSync] removes a regular file; it fails on a directory and
    on an entry that cannot be accessed, which stay where they are. *)
Definition unlinkSync (p : string) : Async unit :=
  fun w => match files w !! p with
           | Some (Stat true _) => Finished (Ok tt) (setFiles (delete p) w)
           | Some (Stat false _) => Finished (Thrown (Error ("EISDIR: " +:+ p))) w
           | Some NoStat => Finished (Thrown (Error ("EACCES: " +:+ p))) w
           | None => Finished (Thrown (Error ("ENOENT: " +:+ p))) w
           end.

Fixpoint stripPrefix (p s : string) : option string :=
  match p with
  | EmptyString => Some s
  | String a p' =>
      match s with
      | String b s' => if Ascii.eqb a b then stripPrefix p' s' else None
      | EmptyString => None
      end
  end.

Definition hasSlash (s : string) : bool := existsb (Ascii.eqb "/") (chars s).

(** the name of [p] inside [dir], when [p] is an entry of [dir] *)
Definition entryName (dir p : string) : option string :=
  match stripPrefix (dir +:+ "/") p with
  | Some n => if String.eqb n "" || hasSlash n then None else Some n
  | None => None
  end.

(** the order of [strcmp], in which the entries of a directory are
    listed *)
Definition nameLe (a b : string) : Prop := String.leb a b = true.

#[export] Instance nameLe_dec a b : Decision (nameLe a b).
Proof. unfold nameLe. apply _. Defined.

Definition readdirSync (dir : string) : Async (list string) :=
  fun w => if bool_decide (dir ∈ dirs w)
           then Finished
                  (Ok (merge_sort nameLe (omap (entryName dir) (map_to_list (files w)).*1)))
                  w
           else Finished (Thrown (Error ("ENOENT: " +:+ dir))) w.

(** [path.join(dir, name)] for a plain name *)
Definition path_join (dir name : string) : string := dir +:+ "/" +:+ name.

Definition padStart (n : nat) (c : ascii) (s : string) : string :=
  string_of_list_ascii (replicate (n - String.length s) c) +:+ s.

(** ** paths.ts *)

Definition videoDirOf (video_id : string) : string :=
  cwd +:+ "/data/videos/" +:+ video_id.

Definition getVideoDir (video_id : string) : Async string :=
  let dir := videoDirOf video_id in
  ensureDir dir;; mret dir.

Definition getClipsDir (video_id : string) : Async string :=
  d ← getVideoDir video_id;
  let dir := path_join d "clips" in
  ensureDir dir;; mret dir.

Definition clipName (clipIndex : nat) : string :=
  "clip_" +:+ padStart 3 "0" (pretty clipIndex) +:+ ".mp4".

Definition clipPath (video_id : string) (clipIndex : nat) : Async string :=
  let name := clipName clipIndex in
  d ← getClipsDir video_id;
  mret (path_join d name).

(** ** logs.ts *)

Definition logsDir : Async string :=
  let dir := cwd +:+ "/data/logs" in
  ensureDir dir;; mret dir.

Definition appendLog (filename text : string) : Async string :=
  d ← logsDir;
  let p := path_join d filename in
  modify (setLogs (fun l => <[p := default "" (l !! p) +:+ text]> l));;
  mret p.

Definition truncateForDb (s : string) (max : nat) : string :=
  if String.eqb s "" then ""
  else if (String.length s <=? max)%nat then s
       else slice0 max s +:+ "
... (truncated, total=" +:+ pretty (String.length s) +:+ ")".

(** ** db/queries.ts

    The tables are taken with their constraints: the primary key of
    [videos] and [clip_jobs], [UNIQUE(video_id, clip_index)] on [clips],
    and the foreign keys of [clips] and [clip_jobs] into [videos]. A
    [clip_id] is determined by its video and index, so the primary key of
    [clips] never conflicts on its own. *)

Definition nowIso : Async string := gets (fun w => Date_toISOString (clock w)).

Definition makeClipId (videoId : string) (clipIndex : nat) : string :=
  videoId +:+ ":" +:+ padStart 3 "0" (pretty clipIndex).

Definition getVideo (video_id : string) : Async VideoRow :=
  fun w => match videos w !! video_id with
           | Some row => Finished (Ok row) w
           | None => Finished (Thrown (Error ("Video not found: " +:+ video_id))) w
           end.

(** descending [created_at], compared as text *)
Definition createdDesc (a b : string * VideoRow) : Prop :=
  String.leb (created_at b.2) (created_at a.2) = true.

#[export] Instance createdDesc_dec a b : Decision (createdDesc a b).
Proof. unfold createdDesc. apply _. Defined.

Definition listVideos : Async (list (string * VideoRow)) :=
  gets (fun w => merge_sort createdDesc (map_to_list (videos w))).

Definition updateVideoStatus (video_id : string) (st : VideoStatus) : Async VideoRow :=
  modify (setVideos (alter (fun r =>
    {| created_at := created_at r; filename := filename r;
       original_path := original_path r; status := st;
       metadata_json := metadata_json r; rotation_raw := rotation_raw r;
       error_message := error_message r |}) video_id));;
  getVideo video_id.

Definition saveVideoMetadata (video_id : string) (metadataJson : JsonText)
    (rotationRaw : option string) : Async VideoRow :=
  modify (setVideos (alter (fun r =>
    {| created_at := created_at r; filename := filename r;
       original_path := original_path r; status := status r;
       metadata_json := Some metadataJson; rotation_raw := rotationRaw;
       error_message := error_message r |}) video_id));;
  getVideo video_id.

Definition setVideoError (video_id : string) (msg : option string) : Async VideoRow :=
  modify (setVideos (alter (fun r =>
    {| created_at := created_at r; filename := filename r;
       original_path := original_path r; status := status r;
       metadata_json := metadata_json r; rotation_raw := rotation_raw r;
       error_message := msg |}) video_id));;
  getVideo video_id.

Definition foreignKey (video_id : string) : Async unit :=
  fun w => match videos w !! video_id with
           | Some _ => Finished (Ok tt) w
           | None => Finished (Thrown (SqliteError "FOREIGN KEY constraint failed")) w
           end.

(** the argument of [upsertClip]; no caller passes a [clip_id] *)
Record ClipInput := {
  in_video_id : string;
  in_clip_index : nat;
  in_path : string;
  in_duration : option Qc;
  in_fps : option Qc;
  in_width : option Qc;
  in_height : option Qc;
  in_file_size_bytes : option Qc;
}.

Definition getClip (video_id : string) (clip_index : nat) : Async ClipRow :=
  fun w => match clips w !! (video_id, clip_index) with
           | Some row => Finished (Ok row) w
           | None => Finished (Thrown (Error ("Clip not found: " +:+ video_id
                                              +:+ " idx=" +:+ pretty clip_index))) w
           end.

Definition upsertedRow (input : ClipInput) (old : option ClipRow) : ClipRow :=
  {| clip_id := match old with
                | Some r => clip_id r
                | None => makeClipId (in_video_id input) (in_clip_index input)
                end;
     path := in_path input;
     duration := in_duration input;
     fps := in_fps input;
     width := in_width input;
     height := in_height input;
     file_size_bytes := in_file_size_bytes input |}.

Definition upsertClip (input : ClipInput) : Async ClipRow :=
  let key := (in_video_id input, in_clip_index input) in
  foreignKey (in_video_id input);;
  modify (setClips (fun t => <[key := upsertedRow input (t !! key)]> t));;
  getClip (in_video_id input) (in_clip_index input).

Definition clipIndexLe (a b : nat * ClipRow) : Prop := (a.1 <= b.1)%nat.

#[export] Instance clipIndexLe_dec a b : Decision (clipIndexLe a b).
Proof. unfold clipIndexLe. apply _. Defined.

(** the rows of a video, each with its [clip_index], in ascending order *)
Definition clipsOf (video_id : string) (t : gmap (string * nat) ClipRow)
  : list (nat * ClipRow) :=
  merge_sort clipIndexLe
    (omap (fun kr : string * nat * ClipRow =>
             if String.eqb kr.1.1 video_id then Some (kr.1.2, kr.2) else None)
          (map_to_list t)).

Definition listClips (video_id : string) : Async (list (nat * ClipRow)) :=
  gets (fun w => clipsOf video_id (clips w)).

Definition setClipJobState (video_id : string) (st : ClipJobState)
    (stderr_ : option string) (exitCode_ : option Z) : Async unit :=
  updated ← nowIso;
  foreignKey video_id;;
  modify (setJobs (fun t =>
    <[video_id := {| state := st; last_stderr := stderr_;
                     last_exit_code := exitCode_; updated_at := updated |}]> t)).

Definition getClipJob (video_id : string) : Async (option JobRow) :=
  gets (fun w => clip_jobs w !! video_id).

(** [ON DELETE CASCADE] removes the clips and the job of the video. *)
Definition deleteVideo (video_id : string) : Async unit :=
  modify (fun w =>
    setJobs (delete video_id)
      (setClips (filter (fun kr => kr.1.1 ≠ video_id))
         (setVideos (delete video_id) w))).

(** ** ffprobe.ts *)

Definition newline : string := "
".

Definition ffprobeArgs (filePath : string) : list string :=
  ["-v"; "error"; "-print_format"; "json"; "-show_format"; "-show_streams"; filePath].

(** [runFfprobe] from the line after [await runCommand] on *)
Definition checkProbe (res : CommandResult) : Async Json :=
  if negb (exitCode res =? 0) then
    throw (Error ("ffprobe failed (exit=" +:+ pretty (exitCode res) +:+ ")." +:+ newline +:+
                  (if negb (String.eqb (trim (stderr res)) "")
                   then "stderr:" +:+ newline +:+ trim (stderr res)
                   else "No stderr output.")))
  else
    match JSON_parse (stdout res) with
    | Some j => mret j
    | None =>
        throw (Error ("ffprobe returned non-JSON output." +:+ newline +:+
                      "Parse error: " +:+ JSON_parse_message (stdout res) +:+ newline +:+
                      "stdout (first 500 chars):" +:+ newline +:+ slice0 500 (stdout res)))
    end.

Definition runFfprobe (filePath : string) : Async Json :=
  let args := ffprobeArgs filePath in
  res ← runCommand "ffprobe" args (Some 60000);
  checkProbe res.

(** ** videoMetadata.ts, continued *)

Definition computeAspectRatio (width height : option Qc)
    (displayAspectRatio : option string) : option string * option Num :=
  let fromDisplay :=
    match displayAspectRatio with
    | Some dar =>
        if negb (String.eqb dar "") && negb (String.eqb dar "0:1")
           && negb (String.eqb dar "N/A") then
          match split ":" dar with
          | [p0; p1] =>
              match StringToNumber p0, StringToNumber p1 with
              | Fin a, Fin b =>
                  if negb (Qc_eqb b (Qc_of_Z 0)) then Some (Some dar, Some (Num_div a b))
                  else None
              | _, _ => None
              end
          | _ => None
          end
        else None
    | None => None
    end in
  match fromDisplay with
  | Some r => r
  | None =>
      match width, height with
      | Some wd, Some ht =>
          if negb (Qc_eqb wd (Qc_of_Z 0)) && negb (Qc_eqb ht (Qc_of_Z 0)) then
            (Some (Number_toString wd +:+ ":" +:+ Number_toString ht), Some (Num_div wd ht))
          else (None, None)
      | _, _ => (None, None)
      end
  end.

(** [entry?.side_data_type?.toLowerCase?.()] calls a property that parsed
    JSON can only hold as data: it throws when an object carries a
    non-null [toLowerCase]; in every other case the test that follows it
    selects nothing that the test before it has not returned already. *)
Definition lowerCaseCallThrows (entry : Json) : bool :=
  match notNullish (prop "side_data_type" (Some entry)) with
  | Some (JObj fs) =>
      match notNullish (assoc "toLowerCase" fs) with Some _ => true | None => false end
  | _ => false
  end.

Fixpoint scanSideData (sdl : list Json) : Result (option string) :=
  match sdl with
  | [] => Ok None
  | entry :: rest =>
      match notNullish (prop "rotation" (Some entry)) with
      | Some r => Ok (Some (String_ r))
      | None =>
          if lowerCaseCallThrows entry
          then Thrown (TypeError "toLowerCase is not a function")
          else scanSideData rest
      end
  end.

Definition extractRotationRaw (videoStream : Json) : Result (option string) :=
  match notNullish (prop "rotate" (prop "tags" (Some videoStream))) with
  | Some rotateTag => Ok (Some (String_ rotateTag))
  | None =>
      match prop "side_data_list" (Some videoStream) with
      | Some (JArr sdl) => scanSideData sdl
      | _ => Ok None
      end
  end.

Record ComputedVideoMetadata := {
  meta_fps : option Qc;
  meta_duration_seconds : option Qc;
  meta_width : option Qc;
  meta_height : option Qc;
  meta_aspect_ratio : option Num;
  meta_aspect_ratio_str : option string;
  meta_rotation_raw : option string;
  meta_codec : option string;
  meta_codec_long_name : option string;
  meta_file_size_bytes : option Qc;
  meta_container_format : option string;
  meta_ffprobe_raw : Json;
}.

Definition isVideo (s : Json) : bool :=
  match prop "codec_type" (Some s) with
  | Some (JStr t) => String.eqb t "video"
  | _ => false
  end.

Definition isDefault (s : Json) : bool :=
  match prop "default" (prop "disposition" (Some s)) with
  | Some (JNum n) => Qc_eqb n (Qc_of_Z 1)
  | _ => false
  end.

(** the frame rate of a stream: [r_frame_rate] first, [avg_frame_rate]
    when the first gives nothing *)
Definition streamFps (videoStream : Json) : option Qc :=
  nullish (parseFraction (prop "r_frame_rate" (Some videoStream)))
          (parseFraction (prop "avg_frame_rate" (Some videoStream))).

Definition ofResult {A} (r : Result A) : Async A :=
  fun w => Finished r w.

Definition sizeNum (n : N) : Qc := Qc_of_Z (Z.of_N n).

(** [extractVideoMetadata] from the line after [await runFfprobe] on *)
Definition describeProbe (filePath : string) (raw : Json) : Async ComputedVideoMetadata :=
  match raw with
  | JNull => throw (TypeError "Cannot read properties of null (reading 'streams')")
  | _ =>
      let streams := match prop "streams" (Some raw) with
                     | Some (JArr l) => l
                     | _ => []
                     end in
      let format := default (JObj []) (notNullish (prop "format" (Some raw))) in
      let videoStream :=
        nullish (List.find (fun s => isVideo s && isDefault s) streams)
                (List.find isVideo streams) in
      match videoStream with
      | None => throw (Error "ffprobe returned no video stream.")
      | Some videoStream =>
          let width := finiteOrNull (Number_ (prop "width" (Some videoStream))) in
          let height := finiteOrNull (Number_ (prop "height" (Some videoStream))) in
          let fps := streamFps videoStream in
          let duration_seconds :=
            nullish (parseDurationSeconds (prop "duration" (Some format)))
                    (parseDurationSeconds (prop "duration" (Some videoStream))) in
          let displayAspectRatio :=
            typeofString (prop "display_aspect_ratio" (Some videoStream)) in
          let '(aspect_ratio_str, aspect_ratio) :=
            computeAspectRatio width height displayAspectRatio in
          rotation_raw ← ofResult (extractRotationRaw videoStream);
          let codec := typeofString (prop "codec_name" (Some videoStream)) in
          let codec_long_name := typeofString (prop "codec_long_name" (Some videoStream)) in
          file_size_bytes ←
            tryCatch (st ← statSync filePath; mret (Some (sizeNum st.2)))
                     (fun _ => mret (finiteOrNull (Number_ (prop "size" (Some format)))));
          let container_format := typeofString (prop "format_name" (Some format)) in
          mret {| meta_fps := fps;
                  meta_duration_seconds := duration_seconds;
                  meta_width := width;
                  meta_height := height;
                  meta_aspect_ratio := aspect_ratio;
                  meta_aspect_ratio_str := aspect_ratio_str;
                  meta_rotation_raw := rotation_raw;
                  meta_codec := codec;
                  meta_codec_long_name := codec_long_name;
                  meta_file_size_bytes := file_size_bytes;
                  meta_container_format := container_format;
                  meta_ffprobe_raw := raw |}
      end
  end.

Definition extractVideoMetadata (filePath : string) : Async ComputedVideoMetadata :=
  raw ← runFfprobe filePath;
  describeProbe filePath raw.

(** the value that [JSON.stringify(meta)] denotes *)
Definition numJson (x : option Qc) : Json :=
  match x with Some q => JNum q | None => JNull end.
Definition strJson (x : option string) : Json :=
  match x with Some s => JStr s | None => JNull end.
(** a number that is not finite is written as [null] *)
Definition ratioJson (x : option Num) : Json :=
  match x with Some (Fin q) => JNum q | _ => JNull end.

Definition metaJson (m : ComputedVideoMetadata) : Json :=
  JObj [ ("fps", numJson (meta_fps m));
         ("duration_seconds", numJson (meta_duration_seconds m));
         ("width", numJson (meta_width m));
         ("height", numJson (meta_height m));
         ("aspect_ratio", ratioJson (meta_aspect_ratio m));
         ("aspect_ratio_str", strJson (meta_aspect_ratio_str m));
         ("rotation_raw", strJson (meta_rotation_raw m));
         ("codec", strJson (meta_codec m));
         ("codec_long_name", strJson (meta_codec_long_name m));
         ("file_size_bytes", numJson (meta_file_size_bytes m));
         ("container_format", strJson (meta_container_format m));
         ("ffprobe_raw", meta_ffprobe_raw m) ].

(** ** duration.ts *)

(** step 1 of [getDurationSeconds]: the duration held in [metadata_json] *)
Definition cachedDuration (v : VideoRow) : option Qc :=
  match metadata_json v with
  | Some t =>
      if textTruthy t then
        match JSON_parseText t with
        | Some meta =>
            match Number_ (prop "duration_seconds" (Some meta)) with
            | Fin d => if Qc_ltb (Qc_of_Z 0) d then Some d else None
            | _ => None
            end
        | None => None
        end
      else None
  | None => None
  end.

(** step 2 from the line after [await extractVideoMetadata] on *)
Definition storeProbed (video_id : string) (meta : ComputedVideoMetadata) : Async Qc :=
  saveVideoMetadata video_id (JSON_stringify (metaJson meta)) (meta_rotation_raw meta);;
  match meta_duration_seconds meta with
  | None => throw (Error "Could not determine video duration.")
  | Some d =>
      if Qc_leb d (Qc_of_Z 0) then throw (Error "Could not determine video duration.")
      else mret d
  end.

Definition getDurationSeconds (video_id : string) : Async Qc :=
  v ← getVideo video_id;
  match cachedDuration v with
  | Some d => mret d
  | None =>
      meta ← extractVideoMetadata (original_path v);
      storeProbed video_id meta
  end.

(** ** clipMetadataBackfill.ts *)

Definition isDigit (c : ascii) : bool :=
  let n := nat_of_ascii c in (48 <=? n)%nat && (n <=? 57)%nat.

Definition digitOf (c : ascii) : nat := nat_of_ascii c - 48.

(** [filename.match(/^clip_(\d{3})\.mp4$/)] and [Number] of the group *)
Definition parseClipIndex (filename : string) : option nat :=
  match stripPrefix "clip_" filename with
  | Some (String d1 (String d2 (String d3 rest))) =>
      if isDigit d1 && isDigit d2 && isDigit d3 && String.eqb rest ".mp4"
      then Some (100 * digitOf d1 + 10 * digitOf d2 + digitOf d3)%nat
      else None
  | _ => None
  end.

Record BackfillCounts := { scanned : nat; upserted : nat }.

(** the size check of the scan: [false] stands for [continue] *)
Definition sizeCheck (fullPath : string) : Async bool :=
  tryCatch (st ← statSync fullPath;
            mret (negb (negb st.1 || (st.2 <=? 1024)%N)))
           (fun _ => mret false).

(** [fs.statSync(p).size], with the prober's size when the stat fails *)
Definition liveSize (p : string) (meta : ComputedVideoMetadata) : Async (option Qc) :=
  tryCatch (st ← statSync p; mret (Some (sizeNum st.2)))
           (fun _ => mret (meta_file_size_bytes meta)).

Definition clipInputOf (video_id : string) (idx : nat) (p : string)
    (meta : ComputedVideoMetadata) (size : option Qc) : ClipInput :=
  {| in_video_id := video_id;
     in_clip_index := idx;
     in_path := p;
     in_duration := meta_duration_seconds meta;
     in_fps := meta_fps meta;
     in_width := meta_width meta;
     in_height := meta_height meta;
     in_file_size_bytes := size |}.

Fixpoint backfillLoop (video_id clipsDir : string) (fs : list string)
    (scanned upserted : nat) : Async BackfillCounts :=
  match fs with
  | [] => mret {| scanned := scanned; upserted := upserted |}
  | f :: rest =>
      match parseClipIndex f with
      | None => backfillLoop video_id clipsDir rest scanned upserted
      | Some idx =>
          let fullPath := path_join clipsDir f in
          ok ← sizeCheck fullPath;
          if negb ok then backfillLoop video_id clipsDir rest scanned upserted
          else
            let scanned := S scanned in
            meta ← extractVideoMetadata fullPath;
            size ← liveSize fullPath meta;
            upsertClip (clipInputOf video_id idx fullPath meta size);;
            let upserted := S upserted in
            backfillLoop video_id clipsDir rest scanned upserted
      end
  end.

Definition backfillClipMetadata (video_id : string) : Async BackfillCounts :=
  clipsDir ← getClipsDir video_id;
  fs ← readdirSync clipsDir;
  backfillLoop video_id clipsDir fs 0 0.

(** ** clipPipeline.ts *)

Definition CLIP_LEN_SECONDS : Z := 120.

Definition fileLooksComplete (p : string) : Async bool :=
  tryCatch (st ← statSync p; mret (st.1 && (1024 <? st.2)%N))
           (fun _ => mret false).

Definition safeUnlink (p : string) : Async unit :=
  tryCatch (unlinkSync p) (fun _ => mret tt).

(** [Math.max(1, Math.ceil(duration / CLIP_LEN_SECONDS))]. The quotient
    is taken exactly: for a binary64 duration below 2^53 the rounded
    quotient gives the same count ([quotient_ceiling]). *)
Definition segmentTotal (duration : Qc) : nat :=
  Z.to_nat (Z.max 1 (Math_ceil (duration / Qc_of_Z CLIP_LEN_SECONDS)%Qc)).

Definition segmentStart (i : nat) : Z := Z.of_nat i * CLIP_LEN_SECONDS.

(** [Math.min(CLIP_LEN_SECONDS, Math.max(0, duration - start))]. The
    difference is taken exactly: for a binary64 duration below 2^53 and
    a start below it, the difference is a binary64 number
    ([difference_is_exact]). *)
Definition segmentLen (duration : Qc) (i : nat) : Qc :=
  Qc_min (Qc_of_Z CLIP_LEN_SECONDS)
         (Qc_max (Qc_of_Z 0) (duration - Qc_of_Z (segmentStart i))%Qc).

Definition ffmpegArgs (start : Z) (inPath : string) (len : Qc) (outPath : string)
  : list string :=
  [ "-hide_banner"; "-y";
    "-ss"; pretty start;
    "-i"; inPath;
    "-t"; Number_toString len;
    "-map"; "0:v:0";
    "-map"; "0:a?";
    "-c:v"; "libx264";
    "-preset"; "veryfast";
    "-crf"; "20";
    "-c:a"; "aac";
    "-b:a"; "128k";
    "-movflags"; "+faststart";
    outPath ].

(** [x || y] on strings *)
Definition orElse (x y : string) : string := if String.eqb x "" then y else x.

(** the branch taken for a complete file: its row is written only when
    [existingRows] has none for the index *)
Definition repairRow (video_id : string) (existingRows : list (nat * ClipRow))
    (i : nat) (outPath : string) : Async unit :=
  let existingRow := List.find (fun r => Nat.eqb r.1 i) existingRows in
  match existingRow with
  | Some _ => mret tt
  | None =>
      clipMeta ← extractVideoMetadata outPath;
      fileSizeBytes ← liveSize outPath clipMeta;
      upsertClip (clipInputOf video_id i outPath clipMeta fileSizeBytes);;
      mret tt
  end.

(** how the [for] loop was left: by running out or [break], or by
    [return] *)
Inductive LoopExit := Completed | Returned.

(** The loop [for (let i = ...; i < total; i++)], entered at [i] with
    [n] indices left. *)
Fixpoint segmentLoop (video_id : string) (v : VideoRow)
    (existingRows : list (nat * ClipRow)) (duration : Qc) (total : nat)
    (n : nat) (i : nat) : Async LoopExit :=
  match n with
  | O => mret Completed
  | S n' =>
      latest ← getVideo video_id;
      if negb (bool_decide (status latest = Approved)) then
        setClipJobState video_id Failed
          (Some ("Stopped: video status changed to " +:+ statusName (status latest)
                 +:+ " during generation.")) None;;
        mret Returned
      else
        let start := segmentStart i in
        let len := segmentLen duration i in
        if Qc_leb len hundredth then mret Completed
        else
          outPath ← clipPath video_id i;
          complete ← fileLooksComplete outPath;
          if (complete : bool) then
            repairRow video_id existingRows i outPath;;
            segmentLoop video_id v existingRows duration total n' (S i)
          else
            safeUnlink outPath;;
            let inPath := original_path v in
            let args := ffmpegArgs start inPath len outPath in
            res ← runCommand "ffmpeg" args (Some (10 * 60000));
            if negb (exitCode res =? 0) then
              let errorOutput := orElse (stderr res) (orElse (stdout res) "(no output)") in
              stamp ← nowIso;
              let full := "---- " +:+ stamp +:+ " clip " +:+ pretty i +:+ " ----"
                          +:+ newline +:+ errorOutput +:+ newline +:+ newline in
              logPath ← appendLog (video_id +:+ "-ffmpeg.log") full;
              setClipJobState video_id Failed
                (Some (truncateForDb (errorOutput +:+ newline +:+ "(full log: "
                                      +:+ logPath +:+ ")") 4000))
                (Some (exitCode res));;
              setVideoError video_id
                (Some ("ffmpeg failed while generating clip " +:+ pretty i +:+ "/"
                       +:+ pretty (total - 1)%nat +:+ " (exit=" +:+ pretty (exitCode res)
                       +:+ ")." +:+ newline
                       +:+ "Full log: " +:+ logPath +:+ newline
                       +:+ (if negb (String.eqb (trim (stderr res)) "")
                            then truncateForDb (trim (stderr res)) 500
                            else "(no stderr)")));;
              mret Returned
            else
              clipMeta ← extractVideoMetadata outPath;
              fileSizeBytes ← liveSize outPath clipMeta;
              upsertClip (clipInputOf video_id i outPath clipMeta fileSizeBytes);;
              setClipJobState video_id Generating None None;;
              segmentLoop video_id v existingRows duration total n' (S i)
  end.

(** the loop entered at [i], and the line after it *)
Definition runSegments (video_id : string) (v : VideoRow)
    (existingRows : list (nat * ClipRow)) (duration : Qc) (total : nat)
    (n : nat) (i : nat) : Async unit :=
  exit ← segmentLoop video_id v existingRows duration total n i;
  match exit with
  | Returned => mret tt
  | Completed => setClipJobState video_id Done None (Some 0)
  end.

Definition looksLikeClip (f : string) : bool :=
  startsWith "clip_" f && endsWith ".mp4" f.

(** the body of the [try] block *)
Definition generateClipsBody (video_id : string) : Async unit :=
  v ← getVideo video_id;
  if negb (bool_decide (status v = Approved)) then mret tt
  else
    setVideoError video_id None;;
    setClipJobState video_id Generating None None;;
    clipsDir ← getClipsDir video_id;
    existingRows ← listClips video_id;
    names ← readdirSync clipsDir;
    let hasAnyFiles := existsb looksLikeClip names in
    existingRows ←
      (if hasAnyFiles && isNil existingRows
       then backfillClipMetadata video_id;; listClips video_id
       else mret existingRows);
    duration ← getDurationSeconds video_id;
    let total := segmentTotal duration in
    runSegments video_id v existingRows duration total total 0.

Definition generateClipsForVideo (video_id : string) : Async unit :=
  fun w =>
    if bool_decide (video_id ∈ activeJobs w) then Finished (Ok tt) w
    else
      tryFinally (generateClipsBody video_id)
                 (setActiveJobs (fun s => s ∖ {[video_id]}))
                 (setActiveJobs (fun s => {[video_id]} ∪ s) w).

(** ** recovery.ts *)

Definition STALE_MS : Z := 10 * 60 * 1000.

Definition isStale (now : Z) (updated : Num) : bool :=
  match updated with
  | Fin u => Qc_ltb (Qc_of_Z STALE_MS) (Qc_of_Z now - u)%Qc
  | _ => false
  end.

Fixpoint recoverLoop (now : Z) (vids : list (string * VideoRow)) : Async unit :=
  match vids with
  | [] => mret tt
  | v :: rest =>
      job ← getClipJob v.1;
      match job with
      | None => recoverLoop now rest
      | Some job =>
          (if bool_decide (state job = Generating) then
             let updated := Date_parse (updated_at job) in
             if isStale now updated then
               setClipJobState v.1 Failed
                 (Some ("Recovery: job was Generating but stale for > "
                        +:+ pretty (STALE_MS / 60000) +:+ " minutes.")) None
             else mret tt
           else mret tt);;
          recoverLoop now rest
      end
  end.

Definition recoverStaleJobs : Async unit :=
  vids ← listVideos;
  now ← gets clock;
  recoverLoop now vids.

(** ** Running a computation against its environment

    The environment answers the [n]-th child process of a run: it gives
    the result of [runCommand] and the world in which the caller resumes,
    which holds whatever the child and everybody else did meanwhile. *)

Definition Env : Type := nat -> Request -> World -> CommandResult * World.

Fixpoint exec {A} (env : Env) (n : nat) (s : Step A)
  : Result A * World * list Request :=
  match s with
  | Finished r w => (r, w, [])
  | Suspended req w k =>
      let '(res, w') := env n req w in
      let '(r, wf, tr) := exec env (S n) (k res w') in
      (r, wf, req :: tr)
  end.

(** an environment in which the children answer by [probe] and nothing
    else touches the world *)
Definition quiet (probe : Request -> CommandResult) : Env :=
  fun _ req w => (probe req, w).

(** ** The main process: the segmenter runs in flight

    A run that waits for a child is a task; the process interleaves new
    invocations, resumptions of tasks, and anything else that does not
    touch the in-flight set, which lives in the memory of the process. *)

Record Task := {
  task_video : string;
  task_req : Request;
  task_k : CommandResult -> World -> Step unit;
}.

Record Process := {
  world : World;
  tasks : list Task;
}.

Definition settle (video_id : string) (s : Step unit) (ts : list Task) : Process :=
  match s with
  | Finished _ w => {| world := w; tasks := ts |}
  | Suspended req w k =>
      {| world := w;
         tasks := {| task_video := video_id; task_req := req; task_k := k |} :: ts |}
  end.

Inductive pstep : Process -> Process -> Prop :=
| step_invoke p video_id :
    pstep p (settle video_id (generateClipsForVideo video_id (world p)) (tasks p))
| step_resume p t (ts1 ts2 : list Task) res :
    tasks p = (ts1 ++ t :: ts2)%list ->
    pstep p (settle (task_video t) (task_k t res (world p)) (ts1 ++ ts2)%list)
| step_outside p w' :
    activeJobs w' = activeJobs (world p) ->
    pstep p {| world := w'; tasks := tasks p |}.

(** [held] is the in-flight set when the computation is entered or
    resumed: it is left as it is until the end, where [video_id] is
    taken out. *)
Fixpoint releases (video_id : string) (held : gset string) (s : Step unit) : Prop :=
  match s with
  | Finished _ w => activeJobs w = held ∖ {[video_id]}
  | Suspended _ w k =>
      activeJobs w = held /\
      forall res w', releases video_id (activeJobs w') (k res w')
  end.

(** ** db/queries.ts: [createVideo] *)

Record VideoInput := {
  new_video_id : string;
  new_filename : string;
  new_original_path : string;
}.

(** The [INSERT] fails on the primary key of [videos]. *)
Definition insertVideo (input : VideoInput) (created : string) : Async unit :=
  fun w => match videos w !! new_video_id input with
           | Some _ =>
               Finished (Thrown (SqliteError "UNIQUE constraint failed: videos.video_id")) w
           | None =>
               Finished (Ok tt)
                 (setVideos (insert (new_video_id input)
                    {| created_at := created; filename := new_filename input;
                       original_path := new_original_path input; status := Pending;
                       metadata_json := None; rotation_raw := None;
                       error_message := None |}) w)
           end.

Definition createVideo (input : VideoInput) : Async VideoRow :=
  created ← nowIso;
  insertVideo input created;;
  getVideo (new_video_id input).

(** ** metadataPipeline.ts *)

(** [e.message] *)
Definition message (e : Exn) : string :=
  match e with Error m | TypeError m | SqliteError m => m end.

(** The text of [e.stack] is the engine's. *)
Class Diagnostics := { Error_stack : Exn -> string }.

Context `{Diagnostics}.

Definition extractAndPersistMetadata (video_id : string) : Async unit :=
  setVideoError video_id None;;
  video ← getVideo video_id;
  tryCatch
    (meta ← extractVideoMetadata (original_path video);
     saveVideoMetadata video_id (JSON_stringify (metaJson meta)) (meta_rotation_raw meta);;
     mret tt)
    (fun e =>
       let errorMsg := message e in
       stamp ← nowIso;
       let full := "---- " +:+ stamp +:+ " metadata extraction ----" +:+ newline
                   +:+ errorMsg +:+ newline +:+ Error_stack e +:+ newline +:+ newline in
       logPath ← appendLog (video_id +:+ "-ffprobe.log") full;
       setVideoError video_id
         (Some ("Metadata extraction failed." +:+ newline +:+ "Full log: " +:+ logPath
                +:+ newline +:+ truncateForDb errorMsg 500));;
       mret tt).

(** ** ipcVideos.ts: the handlers that change the store *)



(** [p] is [dir] or lies below it *)
Definition inside (dir p : string) : bool :=
  String.eqb p dir || startsWith (dir +:+ "/") p.

(** [fs.rmSync(dir, { recursive: true, force: true })], taken not to
    fail *)
Definition rmSync (dir : string) : Async unit :=
  modify (fun w =>
    setDirs (filter (fun d => inside dir d = false))
      (setFiles (filter (fun kv : string * Node => inside dir kv.1 = false)) w)).

Fixpoint deleteLoop (video_ids : list string) : Async unit :=
  match video_ids with
  | [] => mret tt
  | video_id :: rest =>
      videoDir ← getVideoDir video_id;
      rmSync videoDir;;
      deleteVideo video_id;;
      deleteLoop rest
  end.

(** The handler of ["videos:delete"]; its answer is [{ ok: true,
    deleted }]. *)
Definition videos_delete (video_ids : list string) : Async nat :=
  deleteLoop video_ids;;
  mret (length video_ids).

End Model.

(** ** utils/runCommand.ts: the promise around the child process

    The child is seen through its events. [TimeoutFired] is the
    callback of [setTimeout]; [Close] is the ['close'] event with its
    exit code, [None] when a signal ended the child. [ErrorEvent] is the
    ['error'] event of a child that could not be spawned: the function
    has no listener for it, so it is raised in the process as an
    uncaught exception and changes nothing in the promise; no ['close']
    follows it. *)
Module RunCommand.

Inductive Signal := SIGKILL.

Inductive ChildEvent :=
| StdoutData (d : string)
| StderrData (d : string)
| TimeoutFired
| Close (code : option Z)
| ErrorEvent (message : string).

Record State := {
  out : string;
  err : string;
  killedByTimeout : bool;
  timeout : bool;
  kills : list Signal;
  resolved : option CommandResult;
}.

(** [opts?.timeoutMs ? setTimeout(...) : null] *)
Definition armed (timeoutMs : option Z) : bool :=
  match timeoutMs with
  | Some t => negb (t =? 0)
  | None => false
  end.

Definition spawn (timeoutMs : option Z) : State :=
  {| out := ""; err := ""; killedByTimeout := false; timeout := armed timeoutMs;
     kills := []; resolved := None |}.

Definition on (st : State) (ev : ChildEvent) : State :=
  match ev with
  | StdoutData d =>
      {| out := out st +:+ d; err := err st; killedByTimeout := killedByTimeout st;
         timeout := timeout st; kills := kills st; resolved := resolved st |}
  | StderrData d =>
      {| out := out st; err := err st +:+ d; killedByTimeout := killedByTimeout st;
         timeout := timeout st; kills := kills st; resolved := resolved st |}
  | TimeoutFired =>
      if timeout st then
        {| out := out st; err := err st; killedByTimeout := true;
           timeout := false; kills := (kills st ++ [SIGKILL])%list; resolved := resolved st |}
      else st
  | Close code =>
      {| out := out st; err := err st; killedByTimeout := killedByTimeout st;
         timeout := false; kills := kills st;
         resolved :=
           match resolved st with
           | Some r => Some r
           | None =>
               Some {| exitCode := if killedByTimeout st then 124 else default 1 code;
                       stdout := out st; stderr := err st |}
           end |}
  | ErrorEvent _ => st
  end.

Definition run (timeoutMs : option Z) (evs : list ChildEvent) : State :=
  foldl on (spawn timeoutMs) evs.

Definition stdoutOf (evs : list ChildEvent) : string :=
  foldl (fun acc ev => match ev with StdoutData d => acc +:+ d | _ => acc end) "" evs.

Definition stderrOf (evs : list ChildEvent) : string :=
  foldl (fun acc ev => match ev with StderrData d => acc +:+ d | _ => acc end) "" evs.

Definition isClose (ev : ChildEvent) : bool :=
  match ev with Close _ => true | _ => false end.

Definition isTimeout (ev : ChildEvent) : bool :=
  match ev with TimeoutFired => true | _ => false end.

Definition isError (ev : ChildEvent) : bool :=
  match ev with ErrorEvent _ => true | _ => false end.

End RunCommand.

(** * Vocabulary of the statements *)

Section Vocabulary.
Context `{Platform}.

(** the row that [setClipJobState] writes *)
Definition jobRow (w : World) (st : ClipJobState) (e : option string) (c : option Z)
  : JobRow :=
  {| state := st; last_stderr := e; last_exit_code := c;
     updated_at := Date_toISOString (clock w) |}.

Definition stoppedMessage (s : VideoStatus) : string :=
  "Stopped: video status changed to " +:+ statusName s +:+ " during generation.".

Definition recoveryMessage : string :=
  "Recovery: job was Generating but stale for > 10 minutes.".

(** what the sweep makes of one job row *)
Definition swept (w : World) (job : JobRow) : JobRow :=
  if bool_decide (state job = Generating)
     && isStale (clock w) (Date_parse (updated_at job))
  then jobRow w Failed (Some recoveryMessage) None
  else job.

(** where [getClipsDir] and [clipPath] point *)
Definition clipsDirOf (video_id : string) : string :=
  path_join (videoDirOf video_id) "clips".

Definition clipPathOf (video_id : string) (clipIndex : nat) : string :=
  path_join (clipsDirOf video_id) (clipName clipIndex).

(** the test of [fileLooksComplete] on the files of [w] *)
Definition complete (w : World) (p : string) : bool :=
  match files w !! p with
  | Some (Stat f n) => f && (1024 <? n)%N
  | _ => false
  end.

(** [w'] differs from [w] in the set of directories at most *)
Definition sameButDirs (w w' : World) : Prop :=
  videos w' = videos w /\ clips w' = clips w /\ clip_jobs w' = clip_jobs w /\
  files w' = files w /\ logs w' = logs w /\ clock w' = clock w /\
  activeJobs w' = activeJobs w.

(** [held] is the in-flight set when the computation is entered or
    resumed: the computation leaves it as it is. *)
Fixpoint keeps {A} (held : gset string) (s : Step A) : Prop :=
  match s with
  | Finished _ w => activeJobs w = held
  | Suspended _ w k =>
      activeJobs w = held /\
      forall res w', keeps (activeJobs w') (k res w')
  end.

Definition Keeps {A} (m : Async A) : Prop :=
  forall w, keeps (activeJobs w) (m w).

(** the tasks of a process hold the in-flight set, one task per video *)
Definition inFlight (p : Process) : Prop :=
  NoDup (task_video <$> tasks p) /\
  activeJobs (world p) = list_to_set (task_video <$> tasks p) /\
  Forall (fun t => forall res w',
            releases (task_video t) (activeJobs w') (task_k t res w')) (tasks p).

(** the binary64 number nearest to 30000/1001 *)
Definition ntsc : Qc := Q2Qc (1054476685978981 # 35184372088832).

(** the files after [safeUnlink p]: a regular file at [p] is gone, an
    entry of another kind stays *)
Definition unlinked (p : string) (fs : gmap string Node) : gmap string Node :=
  match fs !! p with
  | Some (Stat true _) => delete p fs
  | _ => fs
  end.

(** what [fs.readdirSync] lists in [dir] *)
Definition listing (w : World) (dir : string) : list string :=
  merge_sort nameLe (omap (entryName dir) (map_to_list (files w)).*1).

(** the condition under which [generateClipsForVideo] runs the backfill
    before planning: clip files on disk and no row in the store *)
Definition drifted (w : World) (video_id : string) : bool :=
  existsb looksLikeClip (listing w (clipsDirOf video_id))
  && isNil (clipsOf video_id (clips w)).

(** the call of [runCommand] that transcodes segment [i] *)
Definition ffmpegRequest (video_id : string) (v : VideoRow) (D : Qc) (i : nat) : Request :=
  {| cmd := "ffmpeg";
     args := ffmpegArgs (Z.of_nat i * 120) (original_path v) (segmentLen D i)
                        (clipPathOf video_id i);
     timeoutMs := Some 600000 |}.

(** the call of [runCommand] that probes [filePath] *)
Definition ffprobeRequest (filePath : string) : Request :=
  {| cmd := "ffprobe"; args := ffprobeArgs filePath; timeoutMs := Some 60000 |}.

(** what [extractVideoMetadata] makes of the prober's result [res] when
    it is resumed in [w] *)
Definition metadataOf (filePath : string) (res : CommandResult) (w : World)
  : Result ComputedVideoMetadata :=
  match (checkProbe res ≫= describeProbe filePath) w with
  | Finished r _ => r
  | Suspended _ _ _ => Thrown (Error "")
  end.

(** the video row after [saveVideoMetadata] *)
Definition withMetadata (row : VideoRow) (meta : ComputedVideoMetadata) : VideoRow :=
  {| created_at := created_at row; filename := filename row;
     original_path := original_path row; status := status row;
     metadata_json := Some (JSON_stringify (metaJson meta));
     rotation_raw := meta_rotation_raw meta;
     error_message := error_message row |}.

(** the files that the scan keeps: the name carries an index and the
    entry is a file of more than 1024 bytes *)
Definition scannable (w : World) (video_id : string) (f : string) : bool :=
  match parseClipIndex f with
  | Some _ => complete w (path_join (clipsDirOf video_id) f)
  | None => false
  end.

(** the row that the scan writes for the file [f] of index [idx], given
    the prober's answers [probe], over the row [old] found in the store *)
Definition scannedRow (w : World) (probe : Request -> CommandResult)
    (video_id : string) (f : string) (idx : nat) (old : option ClipRow)
  : option ClipRow :=
  let p := path_join (clipsDirOf video_id) f in
  match metadataOf p (probe (ffprobeRequest p)) w, files w !! p with
  | Ok meta, Some (Stat _ n) =>
      Some (upsertedRow (clipInputOf video_id idx p meta (Some (sizeNum n))) old)
  | _, _ => None
  end.

(** what the scan does to the table of clips when it meets [f] *)
Definition scanStep (w : World) (probe : Request -> CommandResult)
    (video_id : string) (t : gmap (string * nat) ClipRow) (f : string)
  : gmap (string * nat) ClipRow :=
  match parseClipIndex f with
  | Some idx =>
      if complete w (path_join (clipsDirOf video_id) f) then
        match scannedRow w probe video_id f idx (t !! (video_id, idx)) with
        | Some row => <[(video_id, idx) := row]> t
        | None => t
        end
      else t
  | None => t
  end.


(** what [liveSize] answers in [w]: the size on disk, or the prober's
    when the file cannot be stat'ed *)
Definition sizeOf (w : World) (p : string) (meta : ComputedVideoMetadata) : option Qc :=
  match files w !! p with
  | Some (Stat _ n) => Some (sizeNum n)
  | _ => meta_file_size_bytes meta
  end.

(** the turn of the segment loop at [i] from the line after
    [await runCommand] on; [rest] is the loop at the next index *)
Definition afterFfmpeg (video_id : string) (total i : nat) (outPath : string)
    (rest : Async LoopExit) (res : CommandResult) : Async LoopExit :=
  if negb (exitCode res =? 0) then
    let errorOutput := orElse (stderr res) (orElse (stdout res) "(no output)") in
    stamp ← nowIso;
    let full := "---- " +:+ stamp +:+ " clip " +:+ pretty i +:+ " ----"
                +:+ newline +:+ errorOutput +:+ newline +:+ newline in
    logPath ← appendLog (video_id +:+ "-ffmpeg.log") full;
    setClipJobState video_id Failed
      (Some (truncateForDb (errorOutput +:+ newline +:+ "(full log: "
                            +:+ logPath +:+ ")") 4000))
      (Some (exitCode res));;
    setVideoError video_id
      (Some ("ffmpeg failed while generating clip " +:+ pretty i +:+ "/"
             +:+ pretty (total - 1)%nat +:+ " (exit=" +:+ pretty (exitCode res)
             +:+ ")." +:+ newline
             +:+ "Full log: " +:+ logPath +:+ newline
             +:+ (if negb (String.eqb (trim (stderr res)) "")
                  then truncateForDb (trim (stderr res)) 500
                  else "(no stderr)")));;
    mret Returned
  else
    clipMeta ← extractVideoMetadata outPath;
    fileSizeBytes ← liveSize outPath clipMeta;
    upsertClip (clipInputOf video_id i outPath clipMeta fileSizeBytes);;
    setClipJobState video_id Generating None None;;
    rest.

(** the video row after [setVideoError] and after [updateVideoStatus] *)
Definition withError (row : VideoRow) (msg : option string) : VideoRow :=
  {| created_at := created_at row; filename := filename row;
     original_path := original_path row; status := status row;
     metadata_json := metadata_json row; rotation_raw := rotation_raw row;
     error_message := msg |}.


(** where [appendLog] keeps the file [name] *)
Definition logPathOf (name : string) : string :=
  path_join (cwd +:+ "/data/logs") name.

(** The foreign keys of the schema hold: every clip row and every job
    row belongs to a video that has a row. *)
Definition referential (w : World) : Prop :=
  (forall v i, is_Some (clips w !! (v, i)) -> is_Some (videos w !! v)) /\
  (forall v, is_Some (clip_jobs w !! v) -> is_Some (videos w !! v)).

(** the streams, the format and the primary video stream that
    [extractVideoMetadata] reads off the prober's output *)
Definition streamsOf (raw : Json) : list Json :=
  match prop "streams" (Some raw) with
  | Some (JArr l) => l
  | _ => []
  end.

Definition formatOf (raw : Json) : Json :=
  default (JObj []) (notNullish (prop "format" (Some raw))).

Definition primaryStream (raw : Json) : option Json :=
  nullish (List.find (fun s => isVideo s && isDefault s) (streamsOf raw))
          (List.find isVideo (streamsOf raw)).

(** a plain file name: what a video id is taken to be where the
    directory of the video matters *)
Definition plainName (s : string) : bool :=
  negb (String.eqb s "") && negb (hasSlash s)
  && negb (String.eqb s ".") && negb (String.eqb s "..").

(** an environment in which ffmpeg succeeds and leaves a file of [size]
    bytes at its output path, the prober answers by [probe], and nothing
    else touches the world *)
Definition ideal (size : N) (probe : Request -> CommandResult) : Env :=
  fun _ req w =>
    if String.eqb (cmd req) "ffmpeg"
    then ({| exitCode := 0; stdout := ""; stderr := "" |},
          setFiles (insert (List.last (args req) "") (Stat true size)) w)
    else (probe req, w).

(** two to an integer power *)
Definition pow2 (e : Z) : Q := ((2 # 1) ^ e)%Q.

(** the plan of the segments is the one that binary64 arithmetic
    computes: the rounded quotient [duration / CLIP_LEN_SECONDS] gives
    the planned count, and [duration - start] is not rounded at any
    planned start *)
Definition planIsExact (D : Qc) : Prop :=
  (exists q, Num_div D (Qc_of_Z CLIP_LEN_SECONDS) = Fin q /\
             segmentTotal D = Z.to_nat (Z.max 1 (Math_ceil q))) /\
  (forall i, (i < segmentTotal D)%nat ->
             Num_sub D (Qc_of_Z (segmentStart i)) =
             Fin (D - Qc_of_Z (segmentStart i))%Qc).

(** the number of segments that a run reaches: the planned ones, less
    the last one when it is no longer than the number that [0.01]
    denotes *)
Definition reached (D : Qc) : nat :=
  if Qc_leb (segmentLen D (segmentTotal D - 1)) hundredth
  then (segmentTotal D - 1)%nat
  else segmentTotal D.

(** the child processes of the turn that transcodes segment [i] *)
Definition turnRequests (video_id : string) (v : VideoRow) (D : Qc) (i : nat)
  : list Request :=
  [ffmpegRequest video_id v D i; ffprobeRequest (clipPathOf video_id i)].

(** every child process that the computation spawns, whatever the
    children answer and whatever world it is resumed in, satisfies [P] *)
Fixpoint spawnsOnly {A} (P : Request -> Prop) (s : Step A) : Prop :=
  match s with
  | Finished _ _ => True
  | Suspended req _ k => P req /\ forall res w', spawnsOnly P (k res w')
  end.

Definition SpawnsOnly {A} (P : Request -> Prop) (m : Async A) : Prop :=
  forall w, spawnsOnly P (m w).

(** the prober with its limit of one minute; the transcoder with its
    limit of ten minutes *)
Definition probing (req : Request) : Prop :=
  cmd req = "ffprobe" /\ timeoutMs req = Some 60000.

Definition transcoding (req : Request) : Prop :=
  cmd req = "ffmpeg" /\ timeoutMs req = Some 600000.

End Vocabulary.

(** ** A sample platform, sample worlds and sample environments *)
Module Demo.

Definition decimal (q : Qc) : string :=
  let whole := Qfloor q in
  let frac := Qfloor ((q - Qc_of_Z whole) * Qc_of_Z 1000)%Qc in
  if frac =? 0 then pretty whole
  else pretty whole +:+ "." +:+ padStart 3 "0" (pretty frac).

(** the binary64 number nearest to 16/9 *)
Definition wide : Qc := Q2Qc (2001599834386887 # 1125899906842624).

Definition probeJson (d : string) : Json :=
  JObj [ ("streams", JArr [ JObj [ ("codec_type", JStr "video");
                                   ("width", JNum (Qc_of_Z 1920));
                                   ("height", JNum (Qc_of_Z 1080));
                                   ("r_frame_rate", JStr "30000/1001");
                                   ("avg_frame_rate", JStr "30/1") ] ]);
         ("format", JObj [ ("duration", JStr d); ("format_name", JStr "mov,mp4") ]) ].

Definition parseSample (s : string) : option Json :=
  match stripPrefix "duration=" s with
  | Some d => Some (probeJson d)
  | None => None
  end.

Definition sample : Platform :=
  {| Number_toString := decimal;
     JSON_parse := parseSample;
     JSON_parse_message := fun _ => "Unexpected token";
     cwd := "/app";
     Date_toISOString := fun z => pretty z;
     Date_parse := StringToNumber |}.

Definition video (st : VideoStatus) (meta : option JsonText) : VideoRow :=
  {| created_at := "1000"; filename := "a.mp4";
     original_path := "/app/data/videos/v1/original.mp4"; status := st;
     metadata_json := meta; rotation_raw := None; error_message := None |}.

Definition durationJson (d : Qc) : JsonText := JsonOf (JObj [("duration_seconds", JNum d)]).

Definition emptyWorld : World :=
  {| videos := ∅; clips := ∅; clip_jobs := ∅; dirs := ∅; files := ∅; logs := ∅;
     clock := 5000; activeJobs := ∅ |}.

Definition approved (d : Qc) : World :=
  setVideos (fun _ => {[ "v1" := video Approved (Some (durationJson d)) ]}) emptyWorld.

Definition lastArg (l : list string) : string := List.last l "".

(** an environment in which ffmpeg writes its output file and ffprobe
    describes a two-minute file *)
Definition studio : Env := fun _ req w =>
  if String.eqb (cmd req) "ffmpeg" then
    ({| exitCode := 0; stdout := ""; stderr := "" |},
     setFiles (insert (lastArg (args req)) (Stat true 5000)) w)
  else ({| exitCode := 0; stdout := "duration=120.000000"; stderr := "" |}, w).

(** the same, except that somebody rejects the video while the [k]-th
    child process of the run is at work *)
Definition rejectedDuring (k : nat) : Env := fun n req w =>
  let '(res, w') := studio n req w in
  (res,
   if (n =? k)%nat
   then setVideos (alter (fun r =>
          {| created_at := created_at r; filename := filename r;
             original_path := original_path r; status := Rejected;
             metadata_json := metadata_json r; rotation_raw := rotation_raw r;
             error_message := error_message r |}) "v1") w'
   else w').

(** the world left by a first run over a video of 250 seconds *)
Definition afterFirstRun : World :=
  (exec studio 0 (generateClipsForVideo (H := sample) "v1" (approved (Qc_of_Z 250)))).1.2.

(** a video whose status is no longer Approved *)
Definition rejected : World :=
  setVideos (fun _ => {[ "v1" := video Rejected (Some (durationJson (Qc_of_Z 250))) ]})
            emptyWorld.

(** a video without stored metadata *)
Definition unprobed : World :=
  setVideos (fun _ => {[ "v1" := video Approved None ]}) emptyWorld.

Definition probeAnswer (d : string) : CommandResult :=
  {| exitCode := 0; stdout := "duration=" +:+ d; stderr := "" |}.

(** a job that has said Generating since the instant 1000, swept at the
    instant [now] *)
Definition generatingSince1000 (now : Z) : World :=
  {| videos := {[ "v1" := video Approved None ]}; clips := ∅;
     clip_jobs := {[ "v1" := {| state := Generating; last_stderr := None;
                                last_exit_code := None; updated_at := "1000" |} ]};
     dirs := ∅; files := ∅; logs := ∅; clock := now; activeJobs := ∅ |}.

(** two clip files of 2000 bytes and no row *)
Definition twoFiles : World :=
  setFiles (fun _ => {[ "/app/data/videos/v1/clips/clip_000.mp4" := Stat true 2000;
                        "/app/data/videos/v1/clips/clip_001.mp4" := Stat true 2000 ]})
           (approved (Qc_of_Z 250)).

(** a prober that cannot open [clip_000.mp4] *)
Definition deniedFirst (req : Request) : CommandResult :=
  if String.eqb (lastArg (args req)) "/app/data/videos/v1/clips/clip_000.mp4"
  then {| exitCode := 1; stdout := ""; stderr := "Permission denied" |}
  else probeAnswer "120.000000".




(** a video in flight *)
Definition busy : World := setActiveJobs (fun _ => {[ "v1" ]}) (approved (Qc_of_Z 250)).

Definition idleProcess : Process := {| world := approved (Qc_of_Z 250); tasks := [] |}.


(** the stack text of an exception *)
Definition stack : Diagnostics := {| Error_stack := fun e => "Error: " +:+ message e |}.

(** a video with one clip: its row, its file and a job that is Done *)
Definition oneClip : World :=
  {| videos := {[ "v1" := video Approved None ]};
     clips := {[ ("v1", 0%nat) :=
                   {| clip_id := "v1:000";
                      path := "/app/data/videos/v1/clips/clip_000.mp4";
                      duration := Some (Qc_of_Z 120); fps := None; width := None;
                      height := None; file_size_bytes := Some (Qc_of_Z 2000) |} ]};
     clip_jobs := {[ "v1" := {| state := Done; last_stderr := None;
                                last_exit_code := Some 0; updated_at := "1000" |} ]};
     dirs := ∅;
     files := {[ "/app/data/videos/v1/clips/clip_000.mp4" := Stat true 2000 ]};
     logs := ∅; clock := 5000; activeJobs := ∅ |}.

(** a child that fails *)
Definition failing : CommandResult :=
  {| exitCode := 1; stdout := ""; stderr := "Conversion failed!" |}.


(** what the pipeline writes for a clip of [id] at index 0 *)
Definition clipInput (id : string) : ClipInput :=
  {| in_video_id := id; in_clip_index := 0;
     in_path := "/app/data/videos/v1/clips/clip_000.mp4";
     in_duration := Some (Qc_of_Z 120); in_fps := None; in_width := None;
     in_height := None; in_file_size_bytes := Some (Qc_of_Z 2000) |}.

(** what the import writes for a new video *)
Definition imported (id : string) : VideoInput :=
  {| new_video_id := id; new_filename := "b.mp4";
     new_original_path := "/app/data/videos/" +:+ id +:+ "/original.mp4" |}.

End Demo.

(** * Properties *)

Section Properties.
Context `{Platform}.

(** ** Comparisons on numbers *)

Lemma Qc_eqb_true a b : Qc_eqb a b = true <-> a = b.
Proof. unfold Qc_eqb. apply bool_decide_eq_true. Qed.

Lemma Qc_ltb_true a b : Qc_ltb a b = true <-> (a < b)%Qc.
Proof. unfold Qc_ltb. apply bool_decide_eq_true. Qed.

Lemma Qc_leb_true a b : Qc_leb a b = true <-> (a <= b)%Qc.
Proof. unfold Qc_leb. apply bool_decide_eq_true. Qed.

Lemma Qc_leb_false a b : Qc_leb a b = false <-> (b < a)%Qc.
Proof.
  unfold Qc_leb. rewrite bool_decide_eq_false. split.
  - apply Qcnot_le_lt.
  - apply Qclt_not_le.
Qed.

Lemma Qc_ltb_false a b : Qc_ltb a b = false <-> (b <= a)%Qc.
Proof.
  unfold Qc_ltb. rewrite bool_decide_eq_false. split.
  - apply Qcnot_lt_le.
  - apply Qcle_not_lt.
Qed.

(** ** Rounding to binary64 *)

(** [round64] at numbers whose binary64 neighbours are known: 0.1; the
    largest finite number and the first text that overflows; the least
    positive number and the two sides of half of it; the ties at 2^53+1
    and 2^53+3, which go to the even neighbour. *)
Example round64_examples :
  round64 (Q2Qc (1 # 10)) = Fin (Q2Qc (3602879701896397 # 2 ^ 55)) /\
  round64 (Q2Qc (1 # 100)) = Fin hundredth /\
  StringToNumber "1.7976931348623157e308" = Fin (Qc_of_Z ((2 ^ 53 - 1) * 2 ^ 971)) /\
  StringToNumber "1.7976931348623159e308" = PosInf /\
  StringToNumber "-1e400" = NegInf /\
  StringToNumber "5e-324" = Fin (Q2Qc (1 # 2 ^ 1074)) /\
  StringToNumber "2.4703282292062327e-324" = Fin (Qc_of_Z 0) /\
  StringToNumber "2.4703282292062328e-324" = Fin (Q2Qc (1 # 2 ^ 1074)) /\
  StringToNumber "9007199254740993" = Fin (Qc_of_Z (2 ^ 53)) /\
  StringToNumber "9007199254740995" = Fin (Qc_of_Z (2 ^ 53 + 4)) /\
  StringToNumber "250.5" = Fin (Q2Qc (501 # 2)).
Proof.
  assert (forall x y : Qc, (this x == this y)%Q -> Fin x = Fin y) as Hfin
    by (intros x y E; by apply f_equal, Qc_is_canon).
  repeat split; vm_compute; try reflexivity; by apply Hfin.
Qed.

(** *** Powers of two *)

Lemma this_Q2Qc q : (this (Q2Qc q) == q)%Q.
Proof. apply Qred_correct. Qed.

Lemma this_of_Z z : (this (Qc_of_Z z) == inject_Z z)%Q.
Proof. apply this_Q2Qc. Qed.

Lemma this_minus (a b : Qc) : (this (a - b)%Qc == this a - this b)%Q.
Proof.
  unfold Qcminus, Qcplus, Qcopp. rewrite !this_Q2Qc. reflexivity.
Qed.

Lemma this_div_Z (a : Qc) (z : Z) : (0 < z)%Z -> (this (a / Qc_of_Z z)%Qc == this a / inject_Z z)%Q.
Proof.
  intros Hz. unfold Qcdiv, Qcmult, Qcinv. rewrite !this_Q2Qc. rewrite this_of_Z. reflexivity.
Qed.

Lemma pow2_pos e : (0 < pow2 e)%Q.
Proof. apply Qpower_0_lt. reflexivity. Qed.

Lemma pow2_add a b : (pow2 (a + b) == pow2 a * pow2 b)%Q.
Proof. apply Qpower_plus. discriminate. Qed.

Lemma pow2_Z e : 0 <= e -> (pow2 e == inject_Z (2 ^ e))%Q.
Proof. intros He. unfold pow2. by rewrite Zpower_Qpower. Qed.

Lemma pow2_le a b : a <= b -> (pow2 a <= pow2 b)%Q.
Proof. intros H0. apply Qpower_le_compat_l; [done|discriminate]. Qed.

Lemma pow2_lt_inv a b : (pow2 a < pow2 b)%Q -> a < b.
Proof. intros H0. apply (Qpower_lt_compat_l_inv (2 # 1)); [done|reflexivity]. Qed.

Lemma pow2_succ a : (pow2 (a + 1) == 2 * pow2 a)%Q.
Proof. rewrite pow2_add. change (pow2 1) with (2 # 1)%Q. ring. Qed.

Lemma pow2_opp a : (pow2 a * pow2 (- a) == 1)%Q.
Proof. rewrite <- pow2_add, Z.add_opp_diag_r. reflexivity. Qed.

(** *** The pieces of [round64] *)

Lemma roundHalfEven_spec n d : 0 <= n -> 0 < d ->
  0 <= roundHalfEven n d /\
  - d <= 2 * (roundHalfEven n d * d - n) <= d.
Proof.
  intros Hn Hd. unfold roundHalfEven.
  pose proof (Z.div_mod n d ltac:(lia)) as Hq.
  pose proof (Z.mod_pos_bound n d Hd) as Hr.
  pose proof (Z.div_pos n d Hn Hd) as Hq0.
  set (q := n / d) in *. set (r := n mod d) in *.
  destruct (Z.compare_spec (2 * r) d); [destruct (Z.even q)|..]; split; nia.
Qed.

Lemma log2Floor_test n d s : 0 < n -> 0 < d ->
  (if 0 <=? s then n <? d * 2 ^ s else n * 2 ^ (- s) <? d) = true <->
  (inject_Z n < pow2 s * inject_Z d)%Q.
Proof.
  intros Hn Hd. destruct (Z.leb_spec 0 s) as [Hs|Hs].
  - rewrite Z.ltb_lt, Zlt_Qlt, inject_Z_mult, pow2_Z by done.
    split; intros Hh; lra.
  - rewrite Z.ltb_lt, Zlt_Qlt, inject_Z_mult, <- pow2_Z by lia.
    pose proof (pow2_opp s) as Ho. pose proof (pow2_pos s) as Hp.
    pose proof (pow2_pos (- s)) as Hp'.
    split; intros Hh.
    + assert (pow2 s * (inject_Z n * pow2 (- s)) < pow2 s * inject_Z d)%Q as H'
        by (apply Qmult_lt_l; done).
      assert (pow2 s * (inject_Z n * pow2 (- s)) == inject_Z n)%Q as E
        by (transitivity (inject_Z n * (pow2 s * pow2 (- s)))%Q; [ring|rewrite Ho; ring]).
      by rewrite E in H'.
    + assert (pow2 (- s) * inject_Z n < pow2 (- s) * (pow2 s * inject_Z d))%Q as H'
        by (apply Qmult_lt_l; done).
      assert (pow2 (- s) * (pow2 s * inject_Z d) == inject_Z d)%Q as E
        by (transitivity (inject_Z d * (pow2 s * pow2 (- s)))%Q; [ring|rewrite Ho; ring]).
      rewrite E in H'. by rewrite Qmult_comm.
Qed.

Lemma log2_pow2 n : 0 < n ->
  (pow2 (Z.log2 n) <= inject_Z n < 2 * pow2 (Z.log2 n))%Q.
Proof.
  intros Hn. pose proof (Z.log2_spec n Hn) as [Hlo Hhi].
  pose proof (Z.log2_nonneg n) as H0.
  rewrite <- pow2_succ, !pow2_Z by lia.
  rewrite Zle_Qle in Hlo. rewrite Zlt_Qlt in Hhi.
  split; [done|]. by rewrite Z.add_1_r.
Qed.

Lemma log2Floor_spec n d : 0 < n -> 0 < d ->
  (pow2 (log2Floor n d) * inject_Z d <= inject_Z n
   < 2 * pow2 (log2Floor n d) * inject_Z d)%Q.
Proof.
  intros Hn Hd. unfold log2Floor.
  pose proof (log2Floor_test n d (Z.log2 n - Z.log2 d) Hn Hd) as Ht.
  pose proof (log2_pow2 n Hn) as [Hn1 Hn2].
  pose proof (log2_pow2 d Hd) as [Hd1 Hd2].
  set (s := Z.log2 n - Z.log2 d) in *.
  assert (pow2 (Z.log2 n) == pow2 s * pow2 (Z.log2 d))%Q as Ha
    by (rewrite <- pow2_add; unfold s; by replace (Z.log2 n - Z.log2 d + Z.log2 d) with (Z.log2 n) by lia).
  assert (pow2 s == 2 * pow2 (s - 1))%Q as Hs
    by (rewrite <- pow2_succ; by replace (s - 1 + 1) with s by lia).
  rewrite Ha in Hn1, Hn2.
  pose proof (pow2_pos s) as Ps. pose proof (pow2_pos (Z.log2 d)) as Pd.
  pose proof (pow2_pos (s - 1)) as Ps1.
  destruct (if 0 <=? s then _ else _) eqn:Etest.
  - apply proj1 in Ht. specialize (Ht eq_refl). rewrite Hs in Ht, Hn1.
    split; [|lra].
    assert (pow2 (s - 1) * inject_Z d <= pow2 (s - 1) * (2 * pow2 (Z.log2 d)))%Q
      by (apply Qmult_le_l; [done|lra]).
    lra.
  - assert (~ (inject_Z n < pow2 s * inject_Z d)%Q) as Hge
      by (intros Hh; apply Ht in Hh; congruence).
    apply Qnot_lt_le in Hge. split; [done|].
    assert (pow2 s * pow2 (Z.log2 d) <= pow2 s * inject_Z d)%Q
      by (apply Qmult_le_l; done).
    lra.
Qed.

Lemma Qmake_pow2 m t : 0 <= t -> (m # Z.to_pos (2 ^ t) == inject_Z m * pow2 (- t))%Q.
Proof.
  intros Ht. rewrite Qmake_Qdiv, Z2Pos.id by (apply Z.pow_pos_nonneg; lia).
  unfold Qdiv. apply Qmult_comp; [reflexivity|].
  rewrite <- pow2_Z by done. unfold pow2. by rewrite Qpower_opp.
Qed.

Lemma scaled_error (P T a b c : Q) :
  (P * T == 1 -> 2 * (a * P * c - b) == P * (2 * (a * c - b * T)))%Q.
Proof.
  intros Hh. transitivity (2 * (a * P * c) - 2 * b * (P * T))%Q; [rewrite Hh|]; ring.
Qed.

(** [roundMagnitude] takes the integer nearest to [n / d] in units of the
    last place, and overflows only at 2^1024 *)
Lemma roundMagnitude_spec n d : 0 < n -> 0 < d ->
  let e := Z.max (log2Floor n d - 52) (-1074) in
  exists m : Z, 0 <= m /\
    (- (pow2 e * inject_Z d)
       <= 2 * (inject_Z m * pow2 e * inject_Z d - inject_Z n)
       <= pow2 e * inject_Z d)%Q /\
    match roundMagnitude n d with
    | Some r => (this r == inject_Z m * pow2 e)%Q
    | None => 0 <= e /\ (inject_Z (2 ^ 1024) <= inject_Z m * pow2 e)%Q
    end.
Proof.
  intros Hn Hd e. unfold roundMagnitude. fold e.
  destruct (Z.leb_spec 0 e) as [He|He].
  - assert (0 < d * 2 ^ e) as Hd' by (apply Z.mul_pos_pos; [done|apply Z.pow_pos_nonneg; lia]).
    destruct (roundHalfEven_spec n (d * 2 ^ e)) as [Hm0 [H1 H2]]; [lia|done|].
    set (m := roundHalfEven n (d * 2 ^ e)) in *.
    exists m. split; [done|].
    pose proof (pow2_Z e He) as HP.
    split.
    + rewrite HP. unfold Qle. simpl. split; lia.
    + destruct (Z.leb_spec (2 ^ 1024) (m * 2 ^ e)) as [Ho|Ho].
      * split; [done|]. by rewrite HP, <- inject_Z_mult, <- Zle_Qle.
      * by rewrite this_of_Z, inject_Z_mult, HP.
  - destruct (roundHalfEven_spec (n * 2 ^ (- e)) d) as [Hm0 [H1 H2]];
      [apply Z.mul_nonneg_nonneg; [lia|apply Z.pow_nonneg; lia]|done|].
    set (m := roundHalfEven (n * 2 ^ (- e)) d) in *.
    exists m. split; [done|].
    pose proof (pow2_Z (- e) ltac:(lia)) as HT.
    pose proof (pow2_opp e) as HPT. pose proof (pow2_pos e) as HP.
    split.
    + rewrite (scaled_error _ _ _ _ _ HPT).
      assert (- (pow2 e * inject_Z d) == pow2 e * - inject_Z d)%Q as -> by ring.
      split; (apply Qmult_le_l; [done|]); rewrite HT; unfold Qle; simpl; lia.
    + rewrite this_Q2Qc, Qmake_pow2 by lia. by rewrite Z.opp_involutive.
Qed.

Lemma round64_pos (x : Qc) : (0 < x)%Q ->
  round64 x =
  match roundMagnitude (Qnum x) (Z.pos (Qden x)) with
  | Some r => Fin r
  | None => PosInf
  end.
Proof.
  intros Hx. unfold round64.
  assert (0 < Qnum x) as Hn by (unfold Qlt in Hx; simpl in Hx; lia).
  rewrite (proj2 (Z.eqb_neq _ _)) by lia. by rewrite (proj2 (Z.ltb_lt _ _)).
Qed.

Lemma Qnum_times_den (q : Q) : (inject_Z (Qnum q) == q * inject_Z (Z.pos (Qden q)))%Q.
Proof.
  destruct q as [a b]. cbn [Qnum Qden]. rewrite (Qmake_Qdiv a b). field. discriminate.
Qed.

(** [round64] at a positive number [x] of binade [E]: the integer nearest
    to [x] in units of the last place of that binade *)
Lemma round64_spec (x : Qc) : (0 < x)%Q ->
  exists E m : Z,
    (pow2 E <= x < 2 * pow2 E)%Q /\ 0 <= m /\
    (- pow2 (Z.max (E - 52) (-1074))
       <= 2 * (inject_Z m * pow2 (Z.max (E - 52) (-1074)) - x)
       <= pow2 (Z.max (E - 52) (-1074)))%Q /\
    match round64 x with
    | Fin r => (this r == inject_Z m * pow2 (Z.max (E - 52) (-1074)))%Q
    | PosInf => 0 <= Z.max (E - 52) (-1074) /\
                (inject_Z (2 ^ 1024) <= inject_Z m * pow2 (Z.max (E - 52) (-1074)))%Q
    | _ => False
    end.
Proof.
  intros Hx. rewrite (round64_pos x Hx).
  assert (0 < Qnum x) as Hn by (unfold Qlt in Hx; simpl in Hx; lia).
  pose proof (Qnum_times_den x) as Hnd.
  set (n := Qnum x) in *. set (d := Z.pos (Qden x)) in *.
  assert (0 < d) as Hd by done.
  assert (0 < inject_Z d)%Q as Hd' by (unfold Qlt; simpl; lia).
  clearbody n d.
  pose proof (log2Floor_spec n d Hn Hd) as [HE1 HE2].
  destruct (roundMagnitude_spec n d Hn Hd) as (m & Hm0 & [Hm1 Hm2] & Hr).
  set (E := log2Floor n d) in *. set (P := pow2 (Z.max (E - 52) (-1074))) in *.
  exists E, m. rewrite Hnd in HE1, HE2, Hm1, Hm2. fold P. clearbody P E.
  split; [|split; [done|split]].
  - split.
    + by apply (Qmult_le_r _ _ (inject_Z d)).
    + by apply (Qmult_lt_r _ _ (inject_Z d)).
  - split; apply (Qmult_le_r _ _ (inject_Z d)); try done; lra.
  - by destruct (roundMagnitude n d).
Qed.

Lemma inject_Z_nearest (a b : Z) :
  (- (1) <= 2 * (inject_Z a - inject_Z b) <= 1)%Q -> a = b.
Proof. unfold Qle. simpl. lia. Qed.

Lemma inject_Z_pos (z : Z) : 0 < z -> (0 < inject_Z z)%Q.
Proof. unfold Qlt. simpl. lia. Qed.

(** *** The binary64 numbers

    A positive multiple of a power of two that has fewer than 54 bits,
    with an exponent from -1074 to 0, is a binary64 number. *)
Lemma round64_exact (x : Qc) (M e : Z) :
  0 < M < 2 ^ 53 -> -1074 <= e <= 0 -> (x == inject_Z M * pow2 e)%Q ->
  round64 x = Fin x.
Proof.
  intros [HM0 HM] [He0 He1] Hx.
  pose proof (pow2_pos e) as Pe. pose proof (inject_Z_pos M HM0) as PM.
  assert (0 < x)%Q as Hpos by (rewrite Hx; by apply Qmult_lt_0_compat).
  destruct (round64_spec x Hpos) as (E & m & [HE1 HE2] & Hm0 & [Hm1 Hm2] & Hr).
  assert (E < 53 + e) as HEe.
  { apply pow2_lt_inv. apply Qle_lt_trans with x; [done|].
    rewrite Hx, pow2_add. apply Qmult_lt_r; [done|].
    rewrite pow2_Z by lia. by rewrite <- Zlt_Qlt. }
  set (f := Z.max (E - 52) (-1074)) in *.
  assert (f <= e) as Hfe by lia.
  assert (-1074 <= f) as Hf by lia.
  assert (pow2 e == inject_Z (2 ^ (e - f)) * pow2 f)%Q as Hef.
  { rewrite <- pow2_Z, <- pow2_add by lia. by replace (e - f + f) with e by lia. }
  pose proof (pow2_pos f) as Pf. clearbody f.
  assert (m = M * 2 ^ (e - f)) as Hm.
  { apply inject_Z_nearest. rewrite inject_Z_mult.
    rewrite Hx, Hef in Hm1, Hm2. clear -Hm1 Hm2 Pf.
    split; apply (Qmult_le_r _ _ (pow2 f)); try done; lra. }
  destruct (round64 x) as [r| | |]; try done.
  - f_equal. apply Qc_is_canon. rewrite Hr, Hx, Hef, Hm, inject_Z_mult. ring.
  - destruct Hr as [Hf0 Ho]. assert (f = 0) as -> by lia. assert (e = 0) as -> by lia.
    subst m. change (pow2 0) with 1%Q in Ho. change (2 ^ (0 - 0)) with 1 in Ho.
    rewrite Qmult_1_r, <- Zle_Qle in Ho.
    assert (2 ^ 53 < 2 ^ 1024) by (by vm_compute). lia.
Qed.

(** a positive binary64 number is such a multiple, in units of the last
    place of its binade *)
Lemma binary64_repr (x : Qc) : (0 < x)%Q -> binary64 x = true ->
  exists E M : Z, (pow2 E <= x < 2 * pow2 E)%Q /\ 0 < M < 2 ^ 53 /\
    (x == inject_Z M * pow2 (Z.max (E - 52) (-1074)))%Q.
Proof.
  intros Hpos Hb.
  destruct (round64_spec x Hpos) as (E & m & [HE1 HE2] & Hm0 & _ & Hr).
  unfold binary64 in Hb. destruct (round64 x) as [r| | |]; try done.
  apply Qc_eqb_true in Hb. subst r. exists E, m. split; [done|].
  assert (pow2 (E - 52) <= pow2 (Z.max (E - 52) (-1074)))%Q as Hle by (apply pow2_le; lia).
  assert (2 * pow2 E == inject_Z (2 ^ 53) * pow2 (E - 52))%Q as H53.
  { rewrite <- pow2_succ, <- pow2_Z, <- pow2_add by lia.
    by replace (53 + (E - 52)) with (E + 1) by lia. }
  set (f := Z.max (E - 52) (-1074)) in *. pose proof (pow2_pos f) as Pf. clearbody f.
  split; [|done]. split.
  - destruct (Z.eq_dec m 0) as [->|]; [|lia]. exfalso.
    rewrite Hr in Hpos. change (inject_Z 0) with 0%Q in Hpos. clear -Hpos. lra.
  - rewrite Zlt_Qlt. apply (Qmult_lt_r _ _ (pow2 f)); [done|]. rewrite <- Hr.
    apply Qlt_le_trans with (2 * pow2 E)%Q; [done|]. rewrite H53.
    apply Qmult_le_l; [by apply inject_Z_pos|done].
Qed.

(** the binade of a positive number below 2^53 *)
Lemma binade_below (x : Q) (E k : Z) : 0 <= k ->
  (pow2 E <= x)%Q -> (x < inject_Z (2 ^ k))%Q -> E < k.
Proof.
  intros Hk H1 H2. apply pow2_lt_inv. rewrite (pow2_Z k) by done.
  by apply Qle_lt_trans with x.
Qed.

(** [duration - start] is exact: the difference of a binary64 number
    below 2^53 and a smaller natural number is a binary64 number *)
Lemma difference_is_exact (D : Qc) (s : Z) :
  binary64 D = true -> (D < Qc_of_Z (2 ^ 53))%Qc -> 0 <= s -> (Qc_of_Z s < D)%Qc ->
  round64 (D - Qc_of_Z s) = Fin (D - Qc_of_Z s)%Qc.
Proof.
  intros Hb H53 Hs HsD. unfold Qclt in H53, HsD. rewrite this_of_Z in H53, HsD.
  assert (0 <= inject_Z s)%Q as Hs' by (unfold Qle; simpl; lia).
  assert (0 < D)%Q as Hpos by (by apply Qle_lt_trans with (inject_Z s)).
  destruct (binary64_repr D Hpos Hb) as (E & M & [HE1 HE2] & [HM0 HM] & HD).
  pose proof (binade_below D E 53 ltac:(lia) HE1 H53) as HE.
  set (f := Z.max (E - 52) (-1074)) in *.
  assert (-1074 <= f <= 0) as Hf by lia. clearbody f.
  pose proof (pow2_pos f) as Pf. pose proof (pow2_opp f) as Ho.
  pose proof (pow2_Z (- f) ltac:(lia)) as HT.
  assert (0 < 2 ^ (- f)) as HT0 by (apply Z.pow_pos_nonneg; lia).
  assert (this (D - Qc_of_Z s)%Qc == inject_Z (M - s * 2 ^ (- f)) * pow2 f)%Q as Hx.
  { unfold Z.sub.
    rewrite this_minus, this_of_Z, HD, inject_Z_plus, inject_Z_opp, inject_Z_mult, <- HT.
    transitivity (inject_Z M * pow2 f - inject_Z s * (pow2 f * pow2 (- f)))%Q;
      [rewrite Ho|]; ring. }
  apply (round64_exact _ (M - s * 2 ^ (- f)) f); [|done|done].
  split; [|nia].
  assert (0 < this (D - Qc_of_Z s)%Qc)%Q as Hd
    by (rewrite this_minus, this_of_Z; clear -HsD; lra).
  rewrite Hx in Hd. rewrite Zlt_Qlt.
  apply (Qmult_lt_r _ _ (pow2 f)); [done|]. by rewrite Qmult_0_l.
Qed.

Lemma Qceiling_le_Z (q : Q) (k : Z) : (q <= inject_Z k)%Q -> Qceiling q <= k.
Proof. intros Hh. rewrite <- (Qceiling_Z k). by apply Qceiling_resp_le. Qed.

Lemma Qceiling_gt_Z (q : Q) (j : Z) : (inject_Z j < q)%Q -> j < Qceiling q.
Proof.
  intros Hh. rewrite Zlt_Qlt. apply Qlt_le_trans with q; [done|apply Qle_ceiling].
Qed.

Lemma unit_scale (f z : Z) : (inject_Z z == inject_Z z * pow2 (- f) * pow2 f)%Q.
Proof. rewrite <- Qmult_assoc, (Qmult_comm (pow2 (- f))), pow2_opp. ring. Qed.

(** [Math.ceil(duration / 120)] is the ceiling of the exact quotient: the
    quotient of a binary64 number below 2^53 by 120 is not rounded
    across an integer, unless down to 0 *)
Lemma quotient_ceiling (D : Qc) :
  (Qc_of_Z 0 < D)%Qc -> binary64 D = true -> (D < Qc_of_Z (2 ^ 53))%Qc ->
  exists q, Num_div D (Qc_of_Z 120) = Fin q /\
    Z.max 1 (Math_ceil q) = Z.max 1 (Math_ceil (D / Qc_of_Z 120)%Qc).
Proof.
  intros Hpos Hb H53. unfold Num_div, Math_ceil.
  pose proof (this_div_Z D 120 ltac:(lia)) as Hy.
  set (y := (D / Qc_of_Z 120)%Qc) in *.
  unfold Qclt in Hpos, H53. rewrite this_of_Z in Hpos, H53.
  change (inject_Z 0) with 0%Q in Hpos.
  change (inject_Z (2 ^ 53)) with (9007199254740992 # 1)%Q in H53.
  change (inject_Z 120) with (120 # 1)%Q in Hy.
  assert (this D == 120 * y)%Q as HDy by (rewrite Hy; field).
  assert (0 < y)%Q as Hypos by (clear -HDy Hpos; lra).
  assert (y < inject_Z (2 ^ 47))%Q as Hy47
    by (change (inject_Z (2 ^ 47)) with (140737488355328 # 1)%Q; clear -HDy H53; lra).
  destruct (round64_spec y Hypos) as (E & m & [HE1 HE2] & Hm0 & [Hm1 Hm2] & Hr).
  pose proof (binade_below y E 47 ltac:(lia) HE1 Hy47) as HE.
  pose proof (Qle_ceiling y) as Hk1. pose proof (Qceiling_lt y) as Hk0.
  set (k := Qceiling y) in *.
  assert (1 <= k) as Hk.
  { assert (0 < k); [|lia]. rewrite Zlt_Qlt. by apply Qlt_le_trans with y. }
  (* what a positive binary64 dividend above an integer multiple of 120
     leaves above it *)
  assert (forall j, 1 <= j -> (inject_Z j < y)%Q ->
            (64 * pow2 (E - 52) <= this D - 120 * inject_Z j)%Q) as Hgap.
  { intros j Hj Hjy.
    destruct (binary64_repr D Hpos Hb) as (ED & M & [HD1 HD2] & [HM0 HM] & HD).
    assert (ED < 53) as HED
      by (apply (binade_below D ED 53); [lia|done|exact H53]).
    assert (E + 6 <= ED) as HEED.
    { assert (E + 6 < ED + 1); [|lia]. apply pow2_lt_inv.
      rewrite pow2_succ. apply Qle_lt_trans with D; [|done].
      rewrite pow2_add. change (pow2 6) with (64 # 1)%Q.
      pose proof (pow2_pos E) as PE. clear -HDy HE1 PE. lra. }
    assert (0 <= E) as HE0.
    { assert (0 < E + 1); [|lia]. apply pow2_lt_inv. rewrite pow2_succ.
      change (pow2 0) with 1%Q.
      assert (1 <= inject_Z j)%Q as Hj1 by (unfold Qle; simpl; lia).
      clear -HE2 Hjy Hj1. lra. }
    set (g := Z.max (ED - 52) (-1074)) in *.
    assert (E - 52 + 6 <= g <= 0) as Hg by lia. clearbody g.
    pose proof (unit_scale g (120 * j)) as Hu.
    rewrite inject_Z_mult in Hu.
    pose proof (pow2_pos g) as Pg.
    assert (0 < M - 120 * j * 2 ^ (- g)) as Hint.
    { rewrite Zlt_Qlt. apply (Qmult_lt_r _ _ (pow2 g)); [done|].
      unfold Z.sub. rewrite inject_Z_plus, inject_Z_opp, !inject_Z_mult, <- pow2_Z by lia.
      change (inject_Z 120) with (120 # 1)%Q in *. change (inject_Z 0) with 0%Q.
      clear -Hu HD HDy Hjy. lra. }
    assert (1 <= M - 120 * j * 2 ^ (- g)) as Hint1 by lia.
    rewrite Zle_Qle in Hint1. apply (Qmult_le_r _ _ (pow2 g) Pg) in Hint1.
    unfold Z.sub in Hint1.
    rewrite inject_Z_plus, inject_Z_opp, !inject_Z_mult, <- pow2_Z in Hint1 by lia.
    change (inject_Z 120) with (120 # 1)%Q in *. change (inject_Z 1) with 1%Q in Hint1.
    assert (pow2 (E - 52 + 6) <= pow2 g)%Q as Hpg by (apply pow2_le; lia).
    rewrite pow2_add in Hpg. change (pow2 6) with (64 # 1)%Q in Hpg.
    clear -Hint1 Hpg Hu HD. lra. }
  set (f := Z.max (E - 52) (-1074)) in *.
  assert (f < 0) as Hf by lia.
  destruct (round64 y) as [r| | |]; [|done|lia|done].
  exists r. split; [done|].
  pose proof (pow2_pos f) as Pf.
  (* the rounded quotient does not exceed the ceiling *)
  assert (Qceiling r <= k) as Hup.
  { apply Qceiling_le_Z. rewrite Hr.
    assert (m <= k * 2 ^ (- f)) as Hm.
    { assert (2 * m <= 2 * (k * 2 ^ (- f)) + 1); [|lia].
      rewrite Zle_Qle. apply (Qmult_le_r _ _ (pow2 f)); [done|].
      pose proof (unit_scale f k) as Hu.
      rewrite inject_Z_plus, !inject_Z_mult, <- pow2_Z by lia.
      change (inject_Z 2) with 2%Q. change (inject_Z 1) with 1%Q.
      clear -Hu Hk1 Hm2. lra. }
    rewrite Zle_Qle in Hm. apply (Qmult_le_r _ _ (pow2 f) Pf) in Hm.
    rewrite inject_Z_mult, <- pow2_Z in Hm by lia.
    pose proof (unit_scale f k) as Hu. clear -Hm Hu. lra. }
  destruct (Z.eq_dec k 1) as [Hk1'|Hk2]; [lia|].
  (* nor fall to the integer below it *)
  assert (k - 1 < Qceiling r); [|lia].
  apply Qceiling_gt_Z. rewrite Hr.
  specialize (Hgap (k - 1) ltac:(lia) Hk0).
  assert (f = E - 52) as Hfe.
  { assert (0 <= E); [|lia]. assert (0 < E + 1); [|lia]. apply pow2_lt_inv.
    rewrite pow2_succ. change (pow2 0) with 1%Q.
    assert (1 <= inject_Z (k - 1))%Q as Hj1 by (unfold Qle; simpl; lia).
    clear -HE2 Hk0 Hj1. lra. }
  rewrite <- Hfe in Hgap. clearbody f.
  assert ((k - 1) * 2 ^ (- f) < m) as Hm.
  { assert (2 * ((k - 1) * 2 ^ (- f)) < 2 * m); [|lia].
    rewrite Zlt_Qlt. apply (Qmult_lt_r _ _ (pow2 f)); [done|].
    pose proof (unit_scale f (k - 1)) as Hu.
    rewrite !inject_Z_mult, <- pow2_Z by lia.
    change (inject_Z 2) with 2%Q.
    clear -Hu Hk0 Hm1 Hgap HDy Pf. lra. }
  assert ((k - 1) * 2 ^ (- f) + 1 <= m) as Hm' by lia.
  rewrite Zle_Qle in Hm'. apply (Qmult_le_r _ _ (pow2 f) Pf) in Hm'.
  rewrite inject_Z_plus, inject_Z_mult, <- pow2_Z in Hm' by lia.
  pose proof (unit_scale f (k - 1)) as Hu. change (inject_Z 1) with 1%Q in Hm'.
  clear -Hm' Hu Pf. lra.
Qed.

(** ** Frame rate *)

Lemma split_empty sep : split sep "" = [""].
Proof. reflexivity. Qed.







(** ** The command runner *)

Import RunCommand.

Lemma run_snoc t evs ev : run t (evs ++ [ev]) = on (run t evs) ev.
Proof. unfold run. by rewrite foldl_app. Qed.

Lemma run_before_close t pre :
  forallb (fun e => negb (isClose e)) pre = true ->
  let st := run t pre in
  out st = stdoutOf pre /\ err st = stderrOf pre /\
  killedByTimeout st = armed t && existsb isTimeout pre /\
  timeout st = armed t && negb (existsb isTimeout pre) /\
  resolved st = None /\
  (killedByTimeout st = true -> SIGKILL ∈ kills st).
Proof.
  induction pre as [|ev pre IH] using rev_ind; intros Hc.
  - simpl. rewrite !andb_false_r, andb_true_r. repeat split; auto. discriminate.
  - rewrite forallb_app in Hc. apply andb_prop in Hc as [Hpre Hev].
    simpl in Hev. rewrite andb_true_r in Hev.
    specialize (IH Hpre). cbv zeta in IH. destruct IH as (Ho & He & Hk & Ht & Hr & Hs).
    cbv zeta. rewrite run_snoc. unfold stdoutOf, stderrOf in *. rewrite !foldl_app.
    rewrite existsb_app. simpl foldl. simpl existsb. rewrite orb_false_r.
    destruct ev as [d|d| |c|m]; simpl in Hev; try discriminate; simpl on.
    + simpl. rewrite orb_false_r. rewrite Ho. repeat split; auto.
    + simpl. rewrite orb_false_r. rewrite He. repeat split; auto.
    + rewrite Ht. destruct (armed t); simpl.
      * destruct (existsb isTimeout pre) eqn:Hx; simpl in *;
          repeat split; auto; intros _; set_solver.
      * repeat split; auto.
    + simpl. rewrite orb_false_r. repeat split; auto.
Qed.

Lemma resolved_stays st evs r :
  resolved st = Some r -> resolved (foldl on st evs) = Some r.
Proof.
  revert st. induction evs as [|ev evs IH]; intros st Hr; [done|].
  simpl. apply IH. destruct ev; simpl; try done.
  - by destruct (timeout st).
  - by rewrite Hr.
Qed.

Lemma kills_grow st evs s : s ∈ kills st -> s ∈ kills (foldl on st evs).
Proof.
  revert st. induction evs as [|ev evs IH]; intros st Hs; [done|].
  simpl. apply IH. destruct ev; simpl; try done.
  destruct (timeout st); simpl; [set_solver | done].
Qed.

(** C6, as the code has it. Until the child closes the promise is
    pending, whatever else happens: data, the timer, or the ['error']
    event of a child that could not be spawned, after which no close
    comes. Once the child closes, the promise is resolved (there is no
    way to reject it) with all the text that arrived on stdout and on
    stderr; the exit code is 124 when the timer had fired before the
    close, and otherwise the code of the child, or 1 when it has none;
    when the timer fires the child is sent SIGKILL. Nothing that happens
    after the close changes the resolved record. *)
Theorem runCommand_resolves timeoutMs pre code post :
  forallb (fun e => negb (isClose e)) pre = true ->
  let st := run timeoutMs (pre ++ Close code :: post) in
  resolved (run timeoutMs pre) = None /\
  exists r, resolved st = Some r /\
    stdout r = stdoutOf pre /\ stderr r = stderrOf pre /\
    exitCode r = (if armed timeoutMs && existsb isTimeout pre then 124 else default 1 code) /\
    (armed timeoutMs = true -> existsb isTimeout pre = true -> SIGKILL ∈ kills st).
Proof.
  intros Hc. cbv zeta.
  destruct (run_before_close timeoutMs pre Hc) as (Ho & He & Hk & Ht & Hr & Hs).
  split; [exact Hr|].
  unfold run in *. rewrite foldl_app. simpl foldl.
  set (st := foldl on (spawn timeoutMs) pre) in *.
  eexists. split.
  - apply resolved_stays. simpl. rewrite Hr. reflexivity.
  - simpl. rewrite Ho, He, Hk. repeat split; auto.
    intros Ha Hx. apply kills_grow. simpl. apply Hs. by rewrite Hk, Ha, Hx.
Qed.

(** ** Stepping through synchronous code *)

Lemma bind_unfold {A B} (m : Async A) (f : A -> Async B) w :
  (m ≫= f) w = bindStep (m w) f.
Proof. reflexivity. Qed.

Lemma bind_ok {A B} (m : Async A) (f : A -> Async B) w a w' :
  m w = Finished (Ok a) w' -> (m ≫= f) w = f a w'.
Proof. intros E. by rewrite bind_unfold, E. Qed.

Lemma bind_thrown {A B} (m : Async A) (f : A -> Async B) w e w' :
  m w = Finished (Thrown e) w' -> (m ≫= f) w = Finished (Thrown e) w'.
Proof. intros E. by rewrite bind_unfold, E. Qed.

Lemma getVideo_some video_id w row :
  videos w !! video_id = Some row -> getVideo video_id w = Finished (Ok row) w.
Proof. intros E. unfold getVideo. by rewrite E. Qed.

Lemma getVideo_none video_id w :
  videos w !! video_id = None ->
  getVideo video_id w = Finished (Thrown (Error ("Video not found: " +:+ video_id))) w.
Proof. intros E. unfold getVideo. by rewrite E. Qed.

Lemma setClipJobState_ok video_id st e c w :
  is_Some (videos w !! video_id) ->
  setClipJobState video_id st e c w =
  Finished (Ok tt) (setJobs (insert video_id (jobRow w st e c)) w).
Proof.
  intros [row E]. unfold setClipJobState, nowIso, foreignKey, gets, modify.
  rewrite !bind_unfold. cbn [bindStep]. rewrite !bind_unfold. rewrite E. reflexivity.
Qed.

(** ** Status changed during generation *)

Lemma segmentLoop_not_approved video_id v rows D total n i w latest :
  videos w !! video_id = Some latest ->
  status latest <> Approved ->
  segmentLoop video_id v rows D total (S n) i w =
  Finished (Ok Returned)
    (setJobs (insert video_id (jobRow w Failed (Some (stoppedMessage (status latest))) None)) w).
Proof.
  intros Hv Hs. cbn [segmentLoop].
  rewrite (bind_ok _ _ _ _ _ (getVideo_some _ _ _ Hv)).
  rewrite bool_decide_eq_false_2 by done. cbn [negb].
  erewrite bind_ok; [reflexivity|].
  apply setClipJobState_ok. by rewrite Hv.
Qed.

(** C3. Every turn of the loop starts by reading the video row of that
    moment. If its status is not Approved, the run ends there without
    spawning anything further: the job row becomes Failed with the
    message naming the status found, and files, clip rows and video rows
    are what they were, so the clips produced so far stay on disk. The
    job is not marked Done afterwards. *)
Theorem status_change_stops_run video_id v rows D total n i w latest :
  videos w !! video_id = Some latest ->
  status latest <> Approved ->
  exists w',
    runSegments video_id v rows D total (S n) i w = Finished (Ok tt) w' /\
    clip_jobs w' !! video_id =
      Some {| state := Failed;
              last_stderr := Some ("Stopped: video status changed to "
                                   +:+ statusName (status latest)
                                   +:+ " during generation.");
              last_exit_code := None;
              updated_at := Date_toISOString (clock w) |} /\
    files w' = files w /\ clips w' = clips w /\ videos w' = videos w /\
    activeJobs w' = activeJobs w.
Proof.
  intros Hv Hs. eexists. split.
  - unfold runSegments.
    rewrite (bind_ok _ _ _ _ _
               (segmentLoop_not_approved video_id v rows D total n i w latest Hv Hs)).
    reflexivity.
  - simpl. rewrite lookup_insert_eq. auto.
Qed.

(** ** The recovery sweep *)

Lemma recoverLoop_spec now stamp (vids : list (string * VideoRow)) :
  forall w,
    clock w = stamp ->
    NoDup vids.*1 ->
    (forall x, x ∈ vids.*1 -> is_Some (videos w !! x)) ->
    exists w',
      recoverLoop now vids w = Finished (Ok tt) w' /\
      videos w' = videos w /\ clips w' = clips w /\ files w' = files w /\
      dirs w' = dirs w /\ logs w' = logs w /\ clock w' = clock w /\
      activeJobs w' = activeJobs w /\
      forall x,
        (x ∈ vids.*1 ->
         clip_jobs w' !! x =
           (fun job =>
              if bool_decide (state job = Generating)
                 && isStale now (Date_parse (updated_at job))
              then {| state := Failed; last_stderr := Some recoveryMessage;
                      last_exit_code := None;
                      updated_at := Date_toISOString stamp |}
              else job) <$> clip_jobs w !! x) /\
        (x ∉ vids.*1 -> clip_jobs w' !! x = clip_jobs w !! x).
Proof.
  induction vids as [|[v row] vids IH]; intros w Hclock Hnd Hfk.
  - exists w. repeat split; auto. intros Hx. by apply elem_of_nil in Hx.
  - rewrite fmap_cons in Hnd, Hfk. cbn [fst] in Hnd, Hfk.
    apply NoDup_cons in Hnd as [Hv Hnd].
    assert (is_Some (videos w !! v)) as Hvideo by (apply Hfk, elem_of_cons; by left).
    cbn [recoverLoop]. unfold getClipJob at 1. rewrite bind_unfold. cbn [gets bindStep fst].
    destruct (clip_jobs w !! v) as [job|] eqn:Hjob.
    + set (act := if bool_decide (state job = Generating) then _ else _).
      assert (exists w1, act w = Finished (Ok tt) w1 /\
                videos w1 = videos w /\ clips w1 = clips w /\ files w1 = files w /\
                dirs w1 = dirs w /\ logs w1 = logs w /\ clock w1 = clock w /\
                activeJobs w1 = activeJobs w /\
                clip_jobs w1 =
                  <[v := if bool_decide (state job = Generating)
                            && isStale now (Date_parse (updated_at job))
                         then {| state := Failed; last_stderr := Some recoveryMessage;
                                 last_exit_code := None;
                                 updated_at := Date_toISOString stamp |}
                         else job]> (clip_jobs w))
        as (w1 & Hact & Hvid & Hcl & Hf & Hd & Hl & Hc & Ha & Hj).
      { subst act. destruct (bool_decide (state job = Generating)); cbn [andb].
        - destruct (isStale now (Date_parse (updated_at job))).
          + eexists. split; [by apply setClipJobState_ok|].
            cbn. unfold jobRow. rewrite Hclock. repeat split; auto.
          + exists w. repeat split; auto. by rewrite insert_id.
        - exists w. repeat split; auto. by rewrite insert_id. }
      rewrite (bind_ok _ _ _ _ _ Hact).
      destruct (IH w1) as (w' & Hrun & Hvid' & Hcl' & Hf' & Hd' & Hl' & Hc' & Ha' & Hj').
      { congruence. } { done. }
      { intros x Hx. rewrite Hvid. apply Hfk, elem_of_cons. by right. }
      exists w'. split; [done|].
      split; [congruence|]. split; [congruence|]. split; [congruence|].
      split; [congruence|]. split; [congruence|]. split; [congruence|].
      split; [congruence|].
      intros x. rewrite fmap_cons. cbn [fst]. destruct (Hj' x) as [Hin Hout]. split.
      * intros Hx. apply elem_of_cons in Hx as [->|Hx].
        -- rewrite Hout by done. by rewrite Hj, lookup_insert_eq, Hjob.
        -- rewrite Hin by done. rewrite Hj, lookup_insert_ne; [done|]. by intros ->.
      * intros Hx. rewrite elem_of_cons in Hx.
        rewrite Hout by tauto. rewrite Hj, lookup_insert_ne; [done|]. intros ->. tauto.
    + destruct (IH w) as (w' & Hrun & Hrest); auto.
      { intros x Hx. apply Hfk, elem_of_cons. by right. }
      exists w'. split; [done|].
      destruct Hrest as (?&?&?&?&?&?&?&Hj'). rewrite fmap_cons. cbn [fst].
      repeat split; auto.
      * intros Hx. apply elem_of_cons in Hx as [->|Hx].
        -- destruct (Hj' v) as [_ Hout]. rewrite Hout by done. by rewrite Hjob.
        -- by apply Hj'.
      * intros Hx. rewrite elem_of_cons in Hx. apply Hj'. tauto.
Qed.

Lemma listVideos_keys w :
  let vids := merge_sort createdDesc (map_to_list (videos w)) in
  NoDup vids.*1 /\ forall x, x ∈ vids.*1 <-> is_Some (videos w !! x).
Proof.
  cbv zeta.
  assert (merge_sort createdDesc (map_to_list (videos w)) ≡ₚ map_to_list (videos w)) as Hp
    by apply merge_sort_Permutation.
  split.
  - rewrite Hp. apply NoDup_fst_map_to_list.
  - intros x. rewrite Hp. rewrite list_elem_of_fmap. split.
    + intros [[k r] [-> Hin]]. apply elem_of_map_to_list in Hin. by exists r.
    + intros [r Hr]. exists (x, r). split; [done|]. by apply elem_of_map_to_list.
Qed.

Lemma recoverStaleJobs_spec w :
  exists w',
    recoverStaleJobs w = Finished (Ok tt) w' /\
    videos w' = videos w /\ clips w' = clips w /\ files w' = files w /\
    forall x,
      (is_Some (videos w !! x) -> clip_jobs w' !! x = swept w <$> clip_jobs w !! x) /\
      (videos w !! x = None -> clip_jobs w' !! x = clip_jobs w !! x).
Proof.
  destruct (listVideos_keys w) as [Hnd Hin]. cbv zeta in *.
  destruct (recoverLoop_spec (clock w) (clock w) _ w eq_refl Hnd) as (w' & Hrun & Hrest).
  { intros x Hx. by apply Hin. }
  exists w'. split; [exact Hrun|].
  destruct Hrest as (?&?&?&?&?&?&?&Hj). repeat split; auto.
  - intros Hx. apply Hin in Hx. by apply Hj.
  - intros Hx. apply Hj. rewrite Hin, Hx. by intros [? ?].
Qed.

(** C7. The sweep always completes. For a video whose job row says
    Generating: if the row's timestamp parses to an instant more than
    600000 ms before the time of the sweep, the row becomes Failed with
    the recovery message, no exit code and the time of the sweep; if it
    parses to an instant less than 600000 ms before, the row is left as
    it is. *)
Theorem stale_jobs_are_reaped w video_id job u :
  is_Some (videos w !! video_id) ->
  clip_jobs w !! video_id = Some job ->
  state job = Generating ->
  Date_parse (updated_at job) = Fin u ->
  exists w',
    recoverStaleJobs w = Finished (Ok tt) w' /\
    ((Qc_of_Z (10 * 60 * 1000) < Qc_of_Z (clock w) - u)%Qc ->
     clip_jobs w' !! video_id =
       Some {| state := Failed;
               last_stderr := Some "Recovery: job was Generating but stale for > 10 minutes.";
               last_exit_code := None;
               updated_at := Date_toISOString (clock w) |}) /\
    ((Qc_of_Z (clock w) - u < Qc_of_Z (10 * 60 * 1000))%Qc ->
     clip_jobs w' !! video_id = Some job).
Proof.
  intros Hv Hjob Hst Hu.
  destruct (recoverStaleJobs_spec w) as (w' & Hrun & _ & _ & _ & Hj).
  exists w'. split; [done|].
  destruct (Hj video_id) as [Hin _]. specialize (Hin Hv). clear Hj. rename Hin into Hj.
  rewrite Hjob in Hj. cbn [fmap option_fmap option_map] in Hj. unfold swept in Hj.
  rewrite bool_decide_eq_true_2 in Hj by done. cbn [andb] in Hj.
  unfold isStale in Hj. rewrite Hu in Hj. split.
  - intros Hold. apply Qc_ltb_true in Hold. unfold STALE_MS in Hj. by rewrite Hold in Hj.
  - intros Hnew.
    assert (Qc_ltb (Qc_of_Z STALE_MS) (Qc_of_Z (clock w) - u) = false) as E.
    { apply Qc_ltb_false. by apply Qclt_le_weak. }
    by rewrite E in Hj.
Qed.

(** ** The prober and the duration resolver *)

Lemma describeProbe_sync p raw w : exists r, describeProbe p raw w = Finished r w.
Proof.
  unfold describeProbe.
  destruct raw; try (eexists; reflexivity).
  all: match goal with |- context [nullish ?a ?b] => destruct (nullish a b) as [vs|] end;
    try (eexists; reflexivity).
  all: destruct (computeAspectRatio _ _ _) as [ars ar].
  all: rewrite bind_unfold; unfold ofResult at 1;
    destruct (extractRotationRaw vs) as [rot|e]; cbn [bindStep]; try (eexists; reflexivity).
  all: rewrite bind_unfold; unfold tryCatch at 1; rewrite bind_unfold; unfold statSync at 1;
    destruct (files w !! p) as [[|f n]|]; cbn [bindStep catchStep];
    eexists; reflexivity.
Qed.

Lemma extract_resumes p res w :
  (checkProbe res ≫= describeProbe p) w = Finished (metadataOf p res w) w.
Proof.
  unfold metadataOf. rewrite bind_unfold. unfold checkProbe.
  destruct (negb (exitCode res =? 0)); [reflexivity|].
  destruct (JSON_parse (stdout res)) as [raw|]; [|reflexivity].
  cbn [mret Async_ret bindStep].
  destruct (describeProbe_sync p raw w) as [r ->]. reflexivity.
Qed.

Lemma extractVideoMetadata_suspends p w :
  extractVideoMetadata p w =
  Suspended (ffprobeRequest p) w
    (fun res w' => bindStep (bindStep (Finished (Ok res) w') checkProbe) (describeProbe p)).
Proof. reflexivity. Qed.

Lemma getDurationSeconds_hit video_id w v d :
  videos w !! video_id = Some v -> cachedDuration v = Some d ->
  getDurationSeconds video_id w = Finished (Ok d) w.
Proof.
  intros Hv Hc. unfold getDurationSeconds.
  rewrite (bind_ok _ _ _ _ _ (getVideo_some _ _ _ Hv)). by rewrite Hc.
Qed.


Lemma saveVideoMetadata_ok video_id text rot w row :
  videos w !! video_id = Some row ->
  saveVideoMetadata video_id text rot w =
  Finished
    (Ok {| created_at := created_at row; filename := filename row;
           original_path := original_path row; status := status row;
           metadata_json := Some text; rotation_raw := rot;
           error_message := error_message row |})
    (setVideos (alter (fun r =>
       {| created_at := created_at r; filename := filename r;
          original_path := original_path r; status := status r;
          metadata_json := Some text; rotation_raw := rot;
          error_message := error_message r |}) video_id) w).
Proof.
  intros Hv. unfold saveVideoMetadata, modify. rewrite bind_unfold. cbn [bindStep].
  apply getVideo_some. cbn. by rewrite lookup_alter_eq, Hv.
Qed.

Lemma World_eq w w' :
  videos w' = videos w -> clips w' = clips w -> clip_jobs w' = clip_jobs w ->
  dirs w' = dirs w -> files w' = files w -> logs w' = logs w -> clock w' = clock w ->
  activeJobs w' = activeJobs w -> w' = w.
Proof. destruct w, w'; cbn; intros; subst; reflexivity. Qed.

Lemma alter_missing {A} (f : A -> A) (k : string) (m : gmap string A) :
  m !! k = None -> alter f k m = m.
Proof.
  intros Hk. apply map_eq. intros j. destruct (decide (j = k)) as [->|Hj].
  - by rewrite lookup_alter_eq, Hk.
  - by rewrite lookup_alter_ne.
Qed.

Lemma update_missing (f : VideoRow -> VideoRow) video_id w :
  videos w !! video_id = None ->
  (modify (setVideos (alter f video_id));; getVideo video_id) w =
  Finished (Thrown (Error ("Video not found: " +:+ video_id))) w.
Proof.
  intros Hv. unfold modify. rewrite bind_unfold. cbn [bindStep].
  assert (setVideos (alter f video_id) w = w) as ->.
  { apply World_eq; try reflexivity. cbn. by apply alter_missing. }
  by apply getVideo_none.
Qed.

Lemma setVideoError_missing video_id msg w :
  videos w !! video_id = None ->
  setVideoError video_id msg w =
  Finished (Thrown (Error ("Video not found: " +:+ video_id))) w.
Proof. apply update_missing. Qed.

Lemma saveVideoMetadata_missing video_id text rot w :
  videos w !! video_id = None ->
  saveVideoMetadata video_id text rot w =
  Finished (Thrown (Error ("Video not found: " +:+ video_id))) w.
Proof. apply update_missing. Qed.





Lemma cachedDuration_positive v d : cachedDuration v = Some d -> (Qc_of_Z 0 < d)%Qc.
Proof.
  unfold cachedDuration. intros Hc.
  destruct (metadata_json v) as [t|]; [|done].
  destruct (textTruthy t); [|done].
  destruct (JSON_parseText t) as [meta|]; [|done].
  destruct (Number_ _) as [q| | |]; try done.
  destruct (Qc_ltb (Qc_of_Z 0) q) eqn:E; [|done].
  injection Hc as <-. by apply Qc_ltb_true.
Qed.


(** ** The segment plan *)

(** bounds of the segment count *)
Lemma segmentTotal_bounds (D : Qc) :
  (Qc_of_Z 0 < D)%Qc ->
  let N := segmentTotal D in
  (1 <= N)%nat /\
  (Qc_of_Z (Z.of_nat (N - 1) * 120) < D)%Qc /\
  (D <= Qc_of_Z (Z.of_nat N * 120))%Qc.
Proof.
  intros Hpos. cbv zeta. unfold segmentTotal, Math_ceil, CLIP_LEN_SECONDS.
  set (x := this (D / Qc_of_Z 120)%Qc).
  assert (x == this D / inject_Z 120)%Q as Hx by (apply this_div_Z; lia).
  assert (0 < this D)%Q as HD.
  { unfold Qclt in Hpos. rewrite this_of_Z in Hpos. exact Hpos. }
  pose proof (Qle_ceiling x) as Hup. pose proof (Qceiling_lt x) as Hlo.
  assert (0 < x)%Q as Hxpos.
  { rewrite Hx. apply Qlt_shift_div_l; [reflexivity|]. lra. }
  assert (1 <= Qceiling x)%Z as Hc.
  { assert (0 < inject_Z (Qceiling x))%Q as Hc0 by lra.
    rewrite <- (Zlt_Qlt 0) in Hc0. lia. }
  rewrite Z.max_r by lia.
  split; [lia|].
  unfold Qclt, Qcle. rewrite !this_of_Z.
  replace (Z.of_nat (Z.to_nat (Qceiling x) - 1)) with (Qceiling x - 1)%Z by lia.
  rewrite Z2Nat.id by lia.
  rewrite !inject_Z_mult.
  assert (this D == x * inject_Z 120)%Q as HDx.
  { rewrite Hx. field. }
  rewrite HDx. split.
  - apply Qmult_lt_compat_r; [reflexivity|exact Hlo].
  - apply Qmult_le_compat_r; [exact Hup|discriminate].
Qed.

(** the plan of a positive binary64 duration below 2^53 is the one that
    binary64 arithmetic computes *)
Lemma plan_is_exact (D : Qc) :
  (Qc_of_Z 0 < D)%Qc -> binary64 D = true -> (D < Qc_of_Z (2 ^ 53))%Qc ->
  planIsExact D.
Proof.
  intros Hpos Hb H53. split.
  - destruct (quotient_ceiling D Hpos Hb H53) as (q & Hq & Hc).
    exists q. split; [done|]. unfold segmentTotal, CLIP_LEN_SECONDS. by rewrite Hc.
  - intros i Hi. unfold Num_sub, segmentStart, CLIP_LEN_SECONDS.
    apply difference_is_exact; [done|done|lia|].
    destruct (segmentTotal_bounds D Hpos) as (HN & Hlo & _).
    unfold Qclt in *. rewrite this_of_Z in Hlo. rewrite this_of_Z.
    apply Qle_lt_trans with (inject_Z (Z.of_nat (segmentTotal D - 1) * 120)); [|done].
    rewrite <- Zle_Qle. lia.
Qed.

Lemma segmentLen_full (D : Qc) i :
  (Qc_of_Z 0 < D)%Qc -> (i < segmentTotal D - 1)%nat ->
  segmentLen D i = Qc_of_Z 120.
Proof.
  intros Hpos Hi. destruct (segmentTotal_bounds D Hpos) as (HN & Hlo & _).
  unfold segmentLen, segmentStart, CLIP_LEN_SECONDS.
  assert (Qc_of_Z 120 <= D - Qc_of_Z (Z.of_nat i * 120))%Qc as Hfull.
  { unfold Qcle, Qclt in *. rewrite this_minus, !this_of_Z. rewrite this_of_Z in Hlo.
    assert (inject_Z (Z.of_nat i * 120) + inject_Z 120 <= inject_Z (Z.of_nat (segmentTotal D - 1) * 120))%Q.
    { rewrite <- inject_Z_plus, <- Zle_Qle. lia. }
    lra. }
  assert (Qc_of_Z 0 <= Qc_of_Z 120)%Qc as H0 by (by apply Qc_leb_true; vm_compute).
  unfold Qc_max. rewrite (proj2 (Qc_leb_true _ _)) by (etrans; eassumption).
  unfold Qc_min. by rewrite (proj2 (Qc_leb_true _ _)).
Qed.

Lemma segmentLen_last (D : Qc) :
  (Qc_of_Z 0 < D)%Qc ->
  let N := segmentTotal D in
  segmentLen D (N - 1) = (D - Qc_of_Z (Z.of_nat (N - 1) * 120))%Qc /\
  (Qc_of_Z 0 < segmentLen D (N - 1))%Qc /\
  (segmentLen D (N - 1) <= Qc_of_Z 120)%Qc.
Proof.
  intros Hpos. cbv zeta. destruct (segmentTotal_bounds D Hpos) as (HN & Hlo & Hup).
  set (N := segmentTotal D) in *.
  set (x := (D - Qc_of_Z (Z.of_nat (N - 1) * 120))%Qc).
  assert (Qc_of_Z 0 < x)%Qc as Hx0.
  { unfold x, Qclt in *. rewrite this_minus, !this_of_Z. rewrite this_of_Z in Hlo.
    change (inject_Z 0) with 0%Q. lra. }
  assert (x <= Qc_of_Z 120)%Qc as Hx1.
  { unfold x, Qcle, Qclt in *. rewrite this_minus, !this_of_Z. rewrite this_of_Z in Hup.
    assert (inject_Z (Z.of_nat N * 120) == inject_Z (Z.of_nat (N - 1) * 120) + inject_Z 120)%Q.
    { rewrite <- inject_Z_plus. apply inject_Z_injective. lia. }
    lra. }
  assert (segmentLen D (N - 1) = x) as Hlen.
  { unfold segmentLen, segmentStart, CLIP_LEN_SECONDS. fold x.
    unfold Qc_max. rewrite (proj2 (Qc_leb_true _ _)) by by apply Qclt_le_weak.
    unfold Qc_min. destruct (Qc_leb (Qc_of_Z 120) x) eqn:E; [|done].
    apply Qc_leb_true in E. by apply Qcle_antisym. }
  rewrite Hlen. auto.
Qed.

(** ** One turn of the segment loop *)

Lemma getClipsDir_spec video_id w :
  exists w', getClipsDir video_id w = Finished (Ok (clipsDirOf video_id)) w' /\
             sameButDirs w w' /\
             dirs w' = {[clipsDirOf video_id]} ∪ ({[videoDirOf video_id]} ∪ dirs w).
Proof.
  cbv [getClipsDir getVideoDir ensureDir modify mbind mret Async_bind Async_ret bindStep].
  eexists. split; [reflexivity|]. by repeat split.
Qed.

Lemma clipPath_spec video_id i w :
  exists w', clipPath video_id i w = Finished (Ok (clipPathOf video_id i)) w' /\
             sameButDirs w w'.
Proof.
  cbv [clipPath getClipsDir getVideoDir ensureDir modify mbind mret Async_bind Async_ret
       bindStep].
  eexists. split; [reflexivity|]. by repeat split.
Qed.

Lemma fileLooksComplete_spec p w :
  fileLooksComplete p w = Finished (Ok (complete w p)) w.
Proof.
  unfold fileLooksComplete, tryCatch, complete. rewrite bind_unfold. unfold statSync.
  by destruct (files w !! p) as [[|f n]|].
Qed.

Lemma safeUnlink_spec p w :
  exists w', safeUnlink p w = Finished (Ok tt) w' /\
             files w' = unlinked p (files w) /\
             videos w' = videos w /\ clips w' = clips w /\ clip_jobs w' = clip_jobs w /\
             dirs w' = dirs w /\ logs w' = logs w /\ clock w' = clock w /\
             activeJobs w' = activeJobs w.
Proof.
  unfold safeUnlink, tryCatch, unlinkSync, unlinked.
  destruct (files w !! p) as [[|[|] n]|] eqn:E; cbn [catchStep];
    eexists; (split; [reflexivity|]); by repeat split.
Qed.


Lemma segmentLoop_transcodes video_id v rows D total n i w latest :
  videos w !! video_id = Some latest ->
  status latest = Approved ->
  (hundredth < segmentLen D i)%Qc ->
  complete w (clipPathOf video_id i) = false ->
  exists w1 k,
    segmentLoop video_id v rows D total (S n) i w =
      Suspended (ffmpegRequest video_id v D i) w1 k /\
    files w1 = unlinked (clipPathOf video_id i) (files w) /\
    videos w1 = videos w /\ clips w1 = clips w /\ clip_jobs w1 = clip_jobs w.
Proof.
  intros Hv Hs Hlen Hc. cbn [segmentLoop].
  rewrite (bind_ok _ _ _ _ _ (getVideo_some _ _ _ Hv)).
  rewrite bool_decide_eq_true_2 by done. cbn [negb].
  rewrite (proj2 (Qc_leb_false _ _)) by done.
  destruct (clipPath_spec video_id i w) as (w0 & Hp & Hsame).
  rewrite (bind_ok _ _ _ _ _ Hp).
  rewrite (bind_ok _ _ _ _ _ (fileLooksComplete_spec _ _)).
  assert (complete w0 (clipPathOf video_id i) = false) as ->.
  { unfold complete in *. destruct Hsame as (_&_&_&->&_). done. }
  destruct (safeUnlink_spec (clipPathOf video_id i) w0) as (w1 & Hu & Hf & Hrest).
  rewrite (bind_ok _ _ _ _ _ Hu).
  rewrite bind_unfold. unfold runCommand at 1. cbn [bindStep].
  eexists w1, _. split; [reflexivity|].
  destruct Hsame as (Ha&Hb&Hc'&Hd&_). destruct Hrest as (Ha'&Hb'&Hc''&_).
  repeat split; congruence.
Qed.

Lemma segmentLoop_breaks video_id v rows D total n i w latest :
  videos w !! video_id = Some latest ->
  status latest = Approved ->
  (segmentLen D i <= hundredth)%Qc ->
  segmentLoop video_id v rows D total (S n) i w = Finished (Ok Completed) w.
Proof.
  intros Hv Hs Hlen. cbn [segmentLoop].
  rewrite (bind_ok _ _ _ _ _ (getVideo_some _ _ _ Hv)).
  rewrite bool_decide_eq_true_2 by done. cbn [negb].
  by rewrite (proj2 (Qc_leb_true _ _)) by done.
Qed.

Lemma runSegments_breaks video_id v rows D total n i w latest :
  videos w !! video_id = Some latest ->
  status latest = Approved ->
  (segmentLen D i <= hundredth)%Qc ->
  runSegments video_id v rows D total (S n) i w =
  Finished (Ok tt) (setJobs (insert video_id (jobRow w Done None (Some 0))) w).
Proof.
  intros Hv Hs Hlen. unfold runSegments.
  rewrite (bind_ok _ _ _ _ _ (segmentLoop_breaks video_id v rows D total n i w latest Hv Hs Hlen)).
  apply setClipJobState_ok. by rewrite Hv.
Qed.

(** C1, as the code has it. Let the duration [D] be a positive binary64
    number below 2^53. Then binary64 arithmetic computes the plan
    exactly: the rounded quotient [D/120] has the ceiling of the exact
    one, unless both give the count 1, and no difference [D - i*120] is
    rounded. The planned count [N] is the ceiling of [D/120], at least 1. Every index before the last has
    length exactly 120, and the last has length [D - (N-1)*120], which is
    positive and at most 120. A turn of the loop at an index whose file
    is not complete, for a video still Approved, spawns ffmpeg with
    [-ss i*120] and [-t] that length, provided the length exceeds the
    binary64 number that [0.01] denotes; a length of at most that number
    can only occur at the last index, and there the loop stops without
    spawning anything and the job is marked Done. *)
Theorem segments_as_planned video_id v rows (D : Qc) :
  (Qc_of_Z 0 < D)%Qc ->
  binary64 D = true ->
  (D < Qc_of_Z (2 ^ 53))%Qc ->
  let N := segmentTotal D in
  planIsExact D /\
  Z.of_nat N = Z.max 1 (Math_ceil (D / Qc_of_Z 120)) /\
  (forall i, (i < N - 1)%nat -> segmentLen D i = Qc_of_Z 120) /\
  segmentLen D (N - 1) = (D - Qc_of_Z (Z.of_nat (N - 1) * 120))%Qc /\
  (Qc_of_Z 0 < segmentLen D (N - 1))%Qc /\
  (segmentLen D (N - 1) <= Qc_of_Z 120)%Qc /\
  (forall i n w latest,
      (i < N)%nat ->
      videos w !! video_id = Some latest ->
      status latest = Approved ->
      ((hundredth < segmentLen D i)%Qc ->
       complete w (clipPathOf video_id i) = false ->
       exists w1 k,
         segmentLoop video_id v rows D N (S n) i w =
           Suspended {| cmd := "ffmpeg";
                        args := ffmpegArgs (Z.of_nat i * 120) (original_path v)
                                           (segmentLen D i) (clipPathOf video_id i);
                        timeoutMs := Some 600000 |} w1 k) /\
      ((segmentLen D i <= hundredth)%Qc ->
       i = (N - 1)%nat /\
       exists w',
         runSegments video_id v rows D N (S n) i w = Finished (Ok tt) w' /\
         state <$> clip_jobs w' !! video_id = Some Done /\
         files w' = files w /\ clips w' = clips w)).
Proof.
  intros Hpos Hb H53 N.
  destruct (segmentLen_last D Hpos) as (Hlast & Hlast0 & Hlast1). fold N in Hlast, Hlast0, Hlast1.
  split; [by apply plan_is_exact|].
  split.
  { unfold N, segmentTotal, CLIP_LEN_SECONDS. rewrite Z2Nat.id; [done|]. lia. }
  split; [intros i Hi; by apply segmentLen_full|].
  split; [done|]. split; [done|]. split; [done|].
  intros i n w latest Hi Hv Hs. split.
  - intros Hlen Hc.
    destruct (segmentLoop_transcodes video_id v rows D N n i w latest Hv Hs Hlen Hc)
      as (w1 & k & Hrun & _).
    by exists w1, k.
  - intros Hlen.
    assert (i = (N - 1)%nat) as ->.
    { destruct (decide (i < N - 1)%nat) as [Hlt|Hge]; [|lia].
      rewrite (segmentLen_full D i Hpos Hlt) in Hlen.
      apply Qc_leb_true in Hlen. vm_compute in Hlen. discriminate. }
    split; [done|]. eexists. split.
    + by apply runSegments_breaks with (latest := latest).
    + cbn. by rewrite lookup_insert_eq.
Qed.

(** ** A run over clips that are already there *)

Lemma elem_of_clipsOf (video_id : string) (t : gmap (string * nat) ClipRow) (j : nat) (row : ClipRow) :
  (j, row) ∈ clipsOf video_id t <-> t !! (video_id, j) = Some row.
Proof.
  unfold clipsOf. rewrite merge_sort_Permutation. rewrite list_elem_of_omap. split.
  - intros ([[vid k] r] & Hin & Hf). cbn in Hf.
    destruct (String.eqb_spec vid video_id) as [->|]; [|done].
    injection Hf as -> ->. by apply elem_of_map_to_list.
  - intros Hl. exists ((video_id, j), row). split; [by apply elem_of_map_to_list|].
    cbn. by rewrite String.eqb_refl.
Qed.

Lemma find_clipsOf (video_id : string) (t : gmap (string * nat) ClipRow) (i : nat) :
  is_Some (List.find (fun r : nat * ClipRow => Nat.eqb r.1 i) (clipsOf video_id t)) <->
  is_Some (t !! (video_id, i)).
Proof.
  split.
  - intros [[j row] Hf]. apply find_some in Hf as [Hin Heq].
    apply Nat.eqb_eq in Heq. cbn in Heq. subst j.
    apply list_elem_of_In, elem_of_clipsOf in Hin. by exists row.
  - intros [row Hrow].
    destruct (List.find _ _) as [x|] eqn:Hf; [by exists x|].
    apply elem_of_clipsOf, list_elem_of_In in Hrow.
    pose proof (find_none _ _ Hf _ Hrow) as Hn. cbn in Hn.
    by rewrite Nat.eqb_refl in Hn.
Qed.

Lemma clipsOf_nil (video_id : string) (t : gmap (string * nat) ClipRow) (i : nat) :
  is_Some (t !! (video_id, i)) -> isNil (clipsOf video_id t) = false.
Proof.
  intros [row Hrow]. apply elem_of_clipsOf in Hrow.
  destruct (clipsOf video_id t); [by apply elem_of_nil in Hrow|done].
Qed.

Lemma sameButDirs_refl w : sameButDirs w w.
Proof. by repeat split. Qed.

Lemma sameButDirs_trans w1 w2 w3 : sameButDirs w1 w2 -> sameButDirs w2 w3 -> sameButDirs w1 w3.
Proof.
  intros (?&?&?&?&?&?&?) (?&?&?&?&?&?&?). repeat split; congruence.
Qed.

Lemma complete_same w w' p : files w' = files w -> complete w' p = complete w p.
Proof. intros E. unfold complete. by rewrite E. Qed.

Lemma segmentLoop_skips video_id v rows D total latest :
  status latest = Approved ->
  (forall i, (i < total)%nat -> (hundredth < segmentLen D i)%Qc ->
             is_Some (List.find (fun r : nat * ClipRow => Nat.eqb r.1 i) rows)) ->
  forall n i w,
    (i + n = total)%nat ->
    videos w !! video_id = Some latest ->
    (forall j, (i <= j < total)%nat -> (hundredth < segmentLen D j)%Qc ->
               complete w (clipPathOf video_id j) = true) ->
    exists w', segmentLoop video_id v rows D total n i w = Finished (Ok Completed) w' /\
               sameButDirs w w'.
Proof.
  intros Hs Hrows. induction n as [|n IH]; intros i w Hin Hv Hfiles.
  - exists w. split; [reflexivity|apply sameButDirs_refl].
  - destruct (Qc_leb (segmentLen D i) hundredth) eqn:Hlen.
    + exists w. split; [|apply sameButDirs_refl].
      apply segmentLoop_breaks with (latest := latest); auto. by apply Qc_leb_true.
    + cbn [segmentLoop].
      rewrite (bind_ok _ _ _ _ _ (getVideo_some _ _ _ Hv)).
      rewrite bool_decide_eq_true_2 by done. cbn [negb]. rewrite Hlen.
      apply Qc_leb_false in Hlen.
      destruct (clipPath_spec video_id i w) as (w0 & Hp & Hsame).
      rewrite (bind_ok _ _ _ _ _ Hp).
      rewrite (bind_ok _ _ _ _ _ (fileLooksComplete_spec _ _)).
      pose proof Hsame as (Hvid0 & _ & _ & Hf0 & _).
      rewrite (complete_same w w0 _ Hf0), Hfiles by (done || lia).
      unfold repairRow at 1. destruct (Hrows i) as [row ->]; [lia|done|].
      rewrite bind_unfold. cbn [mret Async_ret bindStep].
      destruct (IH (S i) w0) as (w' & Hrun & Hsame').
      * lia.
      * by rewrite Hvid0.
      * intros j Hj Hl. rewrite (complete_same w w0 _ Hf0). apply Hfiles; [lia|done].
      * exists w'. split; [exact Hrun|]. by apply sameButDirs_trans with w0.
Qed.


Lemma setVideoError_ok video_id msg w row :
  videos w !! video_id = Some row ->
  exists row' w',
    setVideoError video_id msg w = Finished (Ok row') w' /\
    videos w' !! video_id = Some row' /\
    status row' = status row /\ metadata_json row' = metadata_json row /\
    original_path row' = original_path row /\
    clips w' = clips w /\ clip_jobs w' = clip_jobs w /\ files w' = files w /\
    dirs w' = dirs w /\ logs w' = logs w /\ clock w' = clock w /\
    activeJobs w' = activeJobs w.
Proof.
  intros Hv. unfold setVideoError, modify. rewrite bind_unfold. cbn [bindStep].
  eexists _, _. split.
  - apply getVideo_some. cbn. by rewrite lookup_alter_eq, Hv.
  - cbn. rewrite lookup_alter_eq, Hv. by repeat split.
Qed.

Lemma listClips_spec video_id w :
  listClips video_id w = Finished (Ok (clipsOf video_id (clips w))) w.
Proof. reflexivity. Qed.

Lemma readdirSync_ok dir w :
  dir ∈ dirs w -> readdirSync dir w = Finished (Ok (listing w dir)) w.
Proof. intros Hd. unfold readdirSync. by rewrite bool_decide_eq_true_2. Qed.

Lemma cachedDuration_ext v v' :
  metadata_json v' = metadata_json v -> cachedDuration v' = cachedDuration v.
Proof. intros E. unfold cachedDuration. by rewrite E. Qed.

Lemma generateClipsBody_idle video_id w v D :
  videos w !! video_id = Some v ->
  status v = Approved ->
  cachedDuration v = Some D ->
  drifted w video_id = false ->
  (forall i, (i < segmentTotal D)%nat -> (hundredth < segmentLen D i)%Qc ->
             complete w (clipPathOf video_id i) = true /\
             is_Some (clips w !! (video_id, i))) ->
  exists w',
    generateClipsBody video_id w = Finished (Ok tt) w' /\
    files w' = files w /\ clips w' = clips w /\
    clip_jobs w' !! video_id = Some (jobRow w Done None (Some 0)) /\
    activeJobs w' = activeJobs w.
Proof.
  intros Hv Hs Hc Hdrift Hclips. unfold generateClipsBody.
  rewrite (bind_ok _ _ _ _ _ (getVideo_some _ _ _ Hv)).
  rewrite bool_decide_eq_true_2 by done. cbn [negb].
  destruct (setVideoError_ok video_id None w v Hv)
    as (v1 & w1 & Herr & Hv1 & Hs1 & Hm1 & _ & Hcl1 & Hj1 & Hf1 & Hd1 & Hl1 & Hck1 & Ha1).
  rewrite (bind_ok _ _ _ _ _ Herr).
  rewrite (bind_ok _ _ _ _ _ (setClipJobState_ok video_id Generating None None w1
                                (ltac:(by rewrite Hv1)))).
  set (w2 := setJobs _ w1).
  destruct (getClipsDir_spec video_id w2) as (w3 & Hdir & Hsame3 & Hdirs3).
  rewrite (bind_ok _ _ _ _ _ Hdir). cbn beta.
  pose proof Hsame3 as (Hv3 & Hcl3 & Hj3 & Hf3 & Hl3 & Hck3 & Ha3).
  rewrite (bind_ok _ _ _ _ _ (listClips_spec video_id w3)). cbn beta.
  rewrite (bind_ok _ _ _ _ _ (readdirSync_ok (clipsDirOf video_id) w3
                                (ltac:(rewrite Hdirs3; set_solver)))).
  assert (clips w3 = clips w) as Hclips3 by (rewrite Hcl3; cbn; exact Hcl1).
  assert (files w3 = files w) as Hfiles3 by (rewrite Hf3; cbn; exact Hf1).
  assert (videos w3 !! video_id = Some v1) as Hvideo3 by (rewrite Hv3; cbn; exact Hv1).
  replace (existsb looksLikeClip (listing w3 (clipsDirOf video_id))
           && isNil (clipsOf video_id (clips w3))) with false.
  2:{ unfold drifted, listing in *. by rewrite Hfiles3, Hclips3. }
  rewrite bind_unfold. cbn [mret Async_ret bindStep].
  rewrite (bind_ok _ _ _ _ _ (getDurationSeconds_hit video_id w3 v1 D Hvideo3
                                (ltac:(by rewrite (cachedDuration_ext v v1 Hm1))))).
  unfold runSegments.
  destruct (segmentLoop_skips video_id v (clipsOf video_id (clips w3)) D (segmentTotal D) v1
              (ltac:(congruence))) with (n := segmentTotal D) (i := 0%nat) (w := w3)
    as (w4 & Hloop & Hsame4).
  - intros i Hi Hlen. rewrite Hclips3. apply find_clipsOf. by apply Hclips.
  - lia.
  - exact Hvideo3.
  - intros j Hj Hlen. rewrite (complete_same w w3 _ Hfiles3). apply Hclips; [lia|done].
  - rewrite (bind_ok _ _ _ _ _ Hloop).
    destruct Hsame4 as (Hv4 & Hcl4 & Hj4 & Hf4 & Hl4 & Hck4 & Ha4).
    eexists. split.
    + apply setClipJobState_ok. rewrite Hv4, Hvideo3. by eexists.
    + cbn. rewrite lookup_insert_eq. unfold jobRow.
      rewrite Hf4, Hcl4, Hck4, Ha4, Hck3, Ha3. cbn. rewrite Hck1, Ha1.
      split; [congruence|]. split; [congruence|]. done.
Qed.

Lemma release_acquire (video_id : string) (s : gset string) :
  video_id ∉ s -> ({[video_id]} ∪ s) ∖ {[video_id]} = s.
Proof. intros Hn. apply set_eq. intros x. rewrite elem_of_difference, elem_of_union, elem_of_singleton. split; [intros [[?|?] ?]; done|]. intros Hx. split; [by right|]. by intros ->. Qed.

(** C2. Take an approved video that is not in flight, whose stored
    metadata gives the duration [D], for which the pre-pass finds no
    drift, and such that every index the loop can reach (below the
    planned count, with a length above the number that [0.01] denotes) has a
    file that passes the completeness test and a row in the store. Then
    the run finishes without spawning any child process: nothing is
    transcoded or probed, the files and the clip rows are exactly what
    they were, the job row says Done with exit code 0, and the in-flight
    set is what it was. *)
Theorem second_run_is_idle video_id w v D :
  video_id ∉ activeJobs w ->
  videos w !! video_id = Some v ->
  status v = Approved ->
  cachedDuration v = Some D ->
  drifted w video_id = false ->
  (forall i, (i < segmentTotal D)%nat -> (hundredth < segmentLen D i)%Qc ->
             complete w (clipPathOf video_id i) = true /\
             is_Some (clips w !! (video_id, i))) ->
  exists w',
    generateClipsForVideo video_id w = Finished (Ok tt) w' /\
    files w' = files w /\
    clips w' = clips w /\
    clip_jobs w' !! video_id =
      Some {| state := Done; last_stderr := None; last_exit_code := Some 0;
              updated_at := Date_toISOString (clock w) |} /\
    activeJobs w' = activeJobs w.
Proof.
  intros Hfree Hv Hs Hc Hdrift Hclips. unfold generateClipsForVideo.
  rewrite bool_decide_eq_false_2 by done. unfold tryFinally.
  destruct (generateClipsBody_idle video_id
              (setActiveJobs (fun s => {[video_id]} ∪ s) w) v D)
    as (w' & Hrun & Hf & Hcl & Hj & Ha); try done.
  rewrite Hrun. cbn [finallyStep]. eexists. split; [reflexivity|].
  cbn. rewrite Ha. cbn. split; [done|]. split; [done|]. split; [done|].
  by apply release_acquire.
Qed.

(** ** The in-flight set *)

Lemma keeps_bind {A B} (s : Step A) (f : A -> Async B) held :
  keeps held s -> (forall a, Keeps (f a)) -> keeps held (bindStep s f).
Proof.
  intros Hs Hf. revert held Hs.
  induction s as [[a|e] w|req w k IH]; intros held Hs; cbn in *.
  - subst held. apply Hf.
  - done.
  - destruct Hs as [Hw Hk]. split; [done|]. intros res w'. apply IH, Hk.
Qed.

Lemma Keeps_bind {A B} (m : Async A) (f : A -> Async B) :
  Keeps m -> (forall a, Keeps (f a)) -> Keeps (m ≫= f).
Proof. intros Hm Hf w. rewrite bind_unfold. apply keeps_bind; [apply Hm|done]. Qed.

Lemma Keeps_ret {A} (a : A) : Keeps (mret a).
Proof. by intros w. Qed.

Lemma Keeps_throw {A} e : Keeps (@throw A e).
Proof. by intros w. Qed.

Lemma Keeps_gets {A} (f : World -> A) : Keeps (gets f).
Proof. by intros w. Qed.

Lemma Keeps_ofResult {A} (r : Result A) : Keeps (ofResult r).
Proof. by intros w. Qed.

Lemma Keeps_modify (f : World -> World) :
  (forall w, activeJobs (f w) = activeJobs w) -> Keeps (modify f).
Proof. intros Hf w. apply Hf. Qed.

Lemma Keeps_runCommand c a t : Keeps (runCommand c a t).
Proof. intros w. cbn. split; [done|]. by intros res w'. Qed.

Lemma keeps_catch {A} (s : Step A) (h : Exn -> Async A) held :
  keeps held s -> (forall e, Keeps (h e)) -> keeps held (catchStep s h).
Proof.
  intros Hs Hh. revert held Hs.
  induction s as [[a|e] w|req w k IH]; intros held Hs; cbn in *.
  - done.
  - subst held. apply Hh.
  - destruct Hs as [Hw Hk]. split; [done|]. intros res w'. apply IH, Hk.
Qed.

Lemma Keeps_tryCatch {A} (m : Async A) (h : Exn -> Async A) :
  Keeps m -> (forall e, Keeps (h e)) -> Keeps (tryCatch m h).
Proof. intros Hm Hh w. apply keeps_catch; [apply Hm|done]. Qed.

Lemma Keeps_getVideo v : Keeps (getVideo v).
Proof. intros w. unfold getVideo. by destruct (videos w !! v). Qed.

Lemma Keeps_statSync p : Keeps (statSync p).
Proof. intros w. unfold statSync. by destruct (files w !! p) as [[|]|]. Qed.

Lemma Keeps_unlinkSync p : Keeps (unlinkSync p).
Proof. intros w. unfold unlinkSync. by destruct (files w !! p) as [[|[|] n]|]. Qed.

Lemma Keeps_readdirSync d : Keeps (readdirSync d).
Proof. intros w. unfold readdirSync. by destruct (bool_decide _). Qed.

Lemma Keeps_foreignKey v : Keeps (foreignKey v).
Proof. intros w. unfold foreignKey. by destruct (videos w !! v). Qed.

Lemma Keeps_getClip v i : Keeps (getClip v i).
Proof. intros w. unfold getClip. by destruct (clips w !! (v, i)). Qed.

Create HintDb keeps.

Ltac keeps :=
  repeat first
    [ solve [auto 1 with keeps nocore]
    | apply Keeps_modify; intros ?; reflexivity
    | apply Keeps_bind; [|intros ?]
    | apply Keeps_tryCatch; [|intros ?]
    | match goal with
      | |- Keeps (if ?b then _ else _) => destruct b
      | |- Keeps (match ?x with _ => _ end) => destruct x
      | |- Keeps (let '(_, _) := ?x in _) => destruct x
      end ].

#[local] Hint Resolve Keeps_ret Keeps_throw Keeps_gets Keeps_ofResult Keeps_runCommand
  Keeps_getVideo Keeps_statSync Keeps_unlinkSync Keeps_readdirSync Keeps_foreignKey
  Keeps_getClip : keeps.

Lemma Keeps_getClipsDir v : Keeps (getClipsDir v).
Proof. unfold getClipsDir, getVideoDir, ensureDir. keeps. Qed.
#[local] Hint Resolve Keeps_getClipsDir : keeps.

Lemma Keeps_clipPath v i : Keeps (clipPath v i).
Proof. unfold clipPath. keeps. Qed.
#[local] Hint Resolve Keeps_clipPath : keeps.

Lemma Keeps_setClipJobState v st e c : Keeps (setClipJobState v st e c).
Proof. unfold setClipJobState, nowIso. keeps. Qed.
#[local] Hint Resolve Keeps_setClipJobState : keeps.

Lemma Keeps_setVideoError v m : Keeps (setVideoError v m).
Proof. unfold setVideoError. keeps. Qed.
#[local] Hint Resolve Keeps_setVideoError : keeps.

Lemma Keeps_saveVideoMetadata v t r : Keeps (saveVideoMetadata v t r).
Proof. unfold saveVideoMetadata. keeps. Qed.
#[local] Hint Resolve Keeps_saveVideoMetadata : keeps.

Lemma Keeps_upsertClip input : Keeps (upsertClip input).
Proof. unfold upsertClip. keeps. Qed.
#[local] Hint Resolve Keeps_upsertClip : keeps.

Lemma Keeps_appendLog f t : Keeps (appendLog f t).
Proof. unfold appendLog, logsDir, ensureDir. keeps. Qed.
#[local] Hint Resolve Keeps_appendLog : keeps.

Lemma Keeps_extractVideoMetadata p : Keeps (extractVideoMetadata p).
Proof.
  unfold extractVideoMetadata, runFfprobe, checkProbe, describeProbe. keeps.
Qed.
#[local] Hint Resolve Keeps_extractVideoMetadata : keeps.

Lemma Keeps_liveSize p m : Keeps (liveSize p m).
Proof. unfold liveSize. keeps. Qed.
#[local] Hint Resolve Keeps_liveSize : keeps.

Lemma Keeps_getDurationSeconds v : Keeps (getDurationSeconds v).
Proof.
  unfold getDurationSeconds, storeProbed. keeps.
Qed.
#[local] Hint Resolve Keeps_getDurationSeconds : keeps.

Lemma Keeps_backfillLoop v d fs : forall a b, Keeps (backfillLoop v d fs a b).
Proof.
  induction fs as [|f fs IH]; intros a b; cbn [backfillLoop]; [keeps|].
  destruct (parseClipIndex f); [|apply IH].
  unfold sizeCheck. keeps; apply IH.
Qed.
#[local] Hint Resolve Keeps_backfillLoop : keeps.

Lemma Keeps_backfillClipMetadata v : Keeps (backfillClipMetadata v).
Proof. unfold backfillClipMetadata. keeps. Qed.
#[local] Hint Resolve Keeps_backfillClipMetadata : keeps.

Lemma Keeps_repairRow v rows i p : Keeps (repairRow v rows i p).
Proof. unfold repairRow. keeps. Qed.
#[local] Hint Resolve Keeps_repairRow : keeps.

Lemma Keeps_segmentLoop video_id v rows D total n :
  forall i, Keeps (segmentLoop video_id v rows D total n i).
Proof.
  induction n as [|n IH]; intros i; cbn [segmentLoop]; [keeps|].
  unfold fileLooksComplete, safeUnlink, nowIso. keeps; apply IH.
Qed.
#[local] Hint Resolve Keeps_segmentLoop : keeps.

Lemma Keeps_generateClipsBody v : Keeps (generateClipsBody v).
Proof. unfold generateClipsBody, runSegments, listClips. keeps. Qed.

Lemma releases_finally (s : Step unit) video_id held :
  keeps held s ->
  releases video_id held (finallyStep s (setActiveJobs (fun a => a ∖ {[video_id]}))).
Proof.
  revert held. induction s as [r w|req w k IH]; intros held Hs; cbn in *.
  - by rewrite Hs.
  - destruct Hs as [Hw Hk]. split; [done|]. intros res w'. apply IH, Hk.
Qed.

Lemma generateClipsForVideo_in_flight video_id w :
  video_id ∈ activeJobs w -> generateClipsForVideo video_id w = Finished (Ok tt) w.
Proof. intros Hin. unfold generateClipsForVideo. by rewrite bool_decide_eq_true_2. Qed.

Lemma generateClipsForVideo_releases video_id w :
  video_id ∉ activeJobs w ->
  releases video_id ({[video_id]} ∪ activeJobs w) (generateClipsForVideo video_id w).
Proof.
  intros Hout. unfold generateClipsForVideo. rewrite bool_decide_eq_false_2 by done.
  unfold tryFinally. apply releases_finally.
  pose proof (Keeps_generateClipsBody video_id
                (setActiveJobs (fun s => {[video_id]} ∪ s) w)) as Hk.
  cbn [activeJobs setActiveJobs] in Hk. exact Hk.
Qed.

Lemma list_to_set_remove (ts1 ts2 : list string) (x : string) :
  NoDup (ts1 ++ x :: ts2) ->
  (list_to_set (ts1 ++ x :: ts2) : gset string) ∖ {[x]} = list_to_set (ts1 ++ ts2).
Proof.
  intros Hnd. apply NoDup_app in Hnd as (_ & Hdis & Hnd2).
  apply NoDup_cons in Hnd2 as [Hx2 _].
  assert (x ∉ ts1) as Hx1. { intros Hin. apply (Hdis x Hin). by left. }
  apply set_eq. intros y.
  rewrite elem_of_difference, !elem_of_list_to_set, !elem_of_app, elem_of_cons,
    elem_of_singleton.
  split.
  - intros [[?|[?|?]] ?]; tauto.
  - intros [Hy|Hy]; (split; [tauto|]); intros ->; tauto.
Qed.

Lemma inFlight_step p p' : inFlight p -> pstep p p' -> inFlight p'.
Proof.
  intros (Hnd & Hset & Hg) Hstep. destruct Hstep as [p video_id|p t ts1 ts2 res Hts|p w' Hw'].
  - destruct (decide (video_id ∈ activeJobs (world p))) as [Hin|Hout].
    + rewrite generateClipsForVideo_in_flight by done. by repeat split.
    + pose proof (generateClipsForVideo_releases video_id (world p) Hout) as Hrel.
      destruct (generateClipsForVideo video_id (world p)) as [r w|req w k]; cbn [settle releases] in *; unfold inFlight; cbn [world tasks].
      * repeat split; [done| |done]. rewrite Hrel, <- Hset. by apply release_acquire.
      * destruct Hrel as [Hw Hk]. repeat split.
        -- apply NoDup_cons. split; [|done].
           rewrite Hset in Hout. by rewrite elem_of_list_to_set in Hout.
        -- by rewrite Hw, Hset.
        -- apply Forall_cons. split; [exact Hk|done].
  - rewrite Hts in Hnd, Hset, Hg. rewrite fmap_app, fmap_cons in Hnd, Hset.
    apply Forall_app in Hg as [Hg1 Hg2]. apply Forall_cons in Hg2 as [Hgt Hg2].
    specialize (Hgt res (world p)).
    assert (NoDup (task_video <$> (ts1 ++ ts2)%list)) as Hnd'.
    { rewrite fmap_app. apply NoDup_app in Hnd as (Hn1 & Hdis & Hn2).
      apply NoDup_cons in Hn2 as [_ Hn2]. apply NoDup_app. repeat split; [done| |done].
      intros x Hx1 Hx2. apply (Hdis x Hx1). by right. }
    destruct (task_k t res (world p)) as [r w|req w k]; cbn [settle releases] in *; unfold inFlight; cbn [world tasks].
    + repeat split; [done| |by apply Forall_app].
      rewrite Hgt, Hset, fmap_app. by apply list_to_set_remove.
    + destruct Hgt as [Hw Hk]. rewrite !fmap_cons, !fmap_app. cbn [task_video].
      apply NoDup_app in Hnd as (Hn1 & Hdis & Hn2). apply NoDup_cons in Hn2 as [Hx2 Hn2].
      repeat split.
      * apply NoDup_cons. split.
        -- rewrite elem_of_app. intros [Hx|Hx]; [|done]. apply (Hdis _ Hx). by left.
        -- by rewrite <- fmap_app.
      * rewrite Hw, Hset. apply set_eq. intros y.
        rewrite !elem_of_list_to_set, !elem_of_cons, !elem_of_app, elem_of_cons.
        tauto.
      * apply Forall_cons. split; [exact Hk|by apply Forall_app].
  - unfold inFlight. cbn [world tasks]. by rewrite Hw'.
Qed.

Lemma inFlight_reachable p0 p :
  tasks p0 = [] -> activeJobs (world p0) = ∅ -> rtc pstep p0 p -> inFlight p.
Proof.
  intros Ht Ha Hsteps. revert p Hsteps. apply rtc_ind_r.
  - unfold inFlight. rewrite Ht, Ha. cbn. repeat split; constructor.
  - intros p2 p3 _ Hstep IH. by apply inFlight_step with (p := p2).
Qed.

(** C8. An invocation for a video that is in the in-flight set returns
    at once and leaves the world exactly as it is. An invocation for a
    video that is not in the set holds the video in the set for as long as
    it waits for child processes, whatever else happens to the world
    meanwhile, and takes it out when it ends, on every path: normal
    return, exception, or the early return for a video that is not
    Approved. In a process that starts with an empty set and no task,
    at every moment the waiting runs are for distinct videos, and the set
    holds exactly their videos. *)
Theorem one_run_per_video :
  (forall video_id w,
      video_id ∈ activeJobs w ->
      generateClipsForVideo video_id w = Finished (Ok tt) w) /\
  (forall video_id w,
      video_id ∉ activeJobs w ->
      releases video_id ({[video_id]} ∪ activeJobs w) (generateClipsForVideo video_id w)) /\
  (forall p0 p,
      tasks p0 = [] -> activeJobs (world p0) = ∅ -> rtc pstep p0 p ->
      NoDup (task_video <$> tasks p) /\
      activeJobs (world p) = list_to_set (task_video <$> tasks p)).
Proof.
  split; [exact generateClipsForVideo_in_flight|].
  split; [exact generateClipsForVideo_releases|].
  intros p0 p Ht Ha Hsteps.
  destruct (inFlight_reachable p0 p Ht Ha Hsteps) as (Hnd & Hset & _). done.
Qed.

(** ** Runs against an environment, and the steps of the scan *)

Lemma exec_bind {A B} env (s : Step A) (f : A -> Async B) :
  forall n,
    exec env n (bindStep s f) =
    match exec env n s with
    | (Ok a, w1, tr) =>
        let '(r2, w2, tr2) := exec env (n + length tr) (f a w1) in (r2, w2, (tr ++ tr2)%list)
    | (Thrown e, w1, tr) => (Thrown e, w1, tr)
    end.
Proof.
  induction s as [[a|e] w|req w k IH]; intros n; cbn [bindStep exec].
  - rewrite Nat.add_0_r. by destruct (exec env n (f a w)) as [[r2 w2] tr2].
  - done.
  - destruct (env n req w) as [res w']. rewrite IH.
    destruct (exec env (S n) (k res w')) as [[[a|e] w1] tr]; [|done].
    cbn [length]. replace (n + S (length tr))%nat with (S n + length tr)%nat by lia.
    by destruct (exec env (S n + length tr) (f a w1)) as [[r2 w2] tr2].
Qed.

Lemma exec_quiet_index {A} probe (s : Step A) n m :
  exec (quiet probe) n s = exec (quiet probe) m s.
Proof.
  revert n m. induction s as [r w|req w k IH]; intros n m; cbn [exec quiet]; [done|].
  by rewrite (IH _ _ (S n) (S m)).
Qed.

Lemma describeProbe_files p raw w1 w2 :
  files w1 = files w2 ->
  exists r, describeProbe p raw w1 = Finished r w1 /\ describeProbe p raw w2 = Finished r w2.
Proof.
  intros Hf. unfold describeProbe.
  destruct raw; try (eexists; split; reflexivity).
  all: match goal with |- context [nullish ?a ?b] => destruct (nullish a b) as [vs|] end;
    try (eexists; split; reflexivity).
  all: destruct (computeAspectRatio _ _ _) as [ars ar].
  all: rewrite !bind_unfold; unfold ofResult;
    destruct (extractRotationRaw vs) as [rot|e]; cbn [bindStep];
    try (eexists; split; reflexivity).
  all: rewrite !bind_unfold; unfold tryCatch; rewrite !bind_unfold; unfold statSync;
    rewrite Hf; destruct (files w2 !! p) as [[|f n]|]; cbn [bindStep catchStep];
    eexists; split; reflexivity.
Qed.

Lemma metadataOf_files p res w1 w2 :
  files w1 = files w2 -> metadataOf p res w1 = metadataOf p res w2.
Proof.
  intros Hf. unfold metadataOf. rewrite !bind_unfold. unfold checkProbe.
  destruct (negb (exitCode res =? 0)); [reflexivity|].
  destruct (JSON_parse (stdout res)) as [raw|]; [|reflexivity].
  cbn [mret Async_ret bindStep].
  by destruct (describeProbe_files p raw w1 w2 Hf) as (r & -> & ->).
Qed.

Lemma exec_extract_quiet probe p w n :
  exec (quiet probe) n (extractVideoMetadata p w) =
  (metadataOf p (probe (ffprobeRequest p)) w, w, [ffprobeRequest p]).
Proof.
  rewrite extractVideoMetadata_suspends. cbn [exec quiet bindStep].
  change (bindStep (checkProbe (probe (ffprobeRequest p)) w) (describeProbe p))
    with ((checkProbe (probe (ffprobeRequest p)) ≫= describeProbe p) w).
  by rewrite extract_resumes.
Qed.

Lemma sizeCheck_spec p w : sizeCheck p w = Finished (Ok (complete w p)) w.
Proof.
  unfold sizeCheck, tryCatch, complete. rewrite bind_unfold. unfold statSync.
  destruct (files w !! p) as [[|f n]|]; cbn [bindStep catchStep mret Async_ret]; try done.
  do 3 f_equal. destruct f; cbn; [|done]. by rewrite N.leb_antisym, negb_involutive.
Qed.

Lemma liveSize_stat p meta w f n :
  files w !! p = Some (Stat f n) ->
  liveSize p meta w = Finished (Ok (Some (sizeNum n))) w.
Proof.
  intros Hp. unfold liveSize, tryCatch. rewrite bind_unfold. unfold statSync. by rewrite Hp.
Qed.

Lemma upsertClip_ok input w :
  is_Some (videos w !! in_video_id input) ->
  exists row,
    upsertClip input w =
    Finished (Ok row)
      (setClips (fun t => <[(in_video_id input, in_clip_index input) :=
                              upsertedRow input (t !! (in_video_id input, in_clip_index input))]> t) w).
Proof.
  intros [v Hv]. unfold upsertClip, foreignKey, modify. rewrite !bind_unfold. rewrite Hv.
  cbn [bindStep]. rewrite bind_unfold. cbn [bindStep]. unfold getClip. cbn [clips setClips].
  rewrite lookup_insert_eq. by eexists.
Qed.


Lemma complete_stat w p : complete w p = true -> exists n, files w !! p = Some (Stat true n) /\ (1024 < n)%N.
Proof.
  unfold complete. destruct (files w !! p) as [[|[] n]|]; try done.
  cbn. intros Hn. exists n. split; [done|]. by apply N.ltb_lt.
Qed.

Lemma backfillLoop_quiet w probe video_id :
  is_Some (videos w !! video_id) ->
  forall fs wc a b n,
    files wc = files w -> videos wc = videos w ->
    (forall f, f ∈ fs -> scannable w video_id f = true ->
       exists meta, metadataOf (path_join (clipsDirOf video_id) f)
                      (probe (ffprobeRequest (path_join (clipsDirOf video_id) f))) w = Ok meta) ->
    exists w' tr,
      exec (quiet probe) n (backfillLoop video_id (clipsDirOf video_id) fs a b wc) =
        (Ok {| scanned := a + length (List.filter (scannable w video_id) fs);
               upserted := b + length (List.filter (scannable w video_id) fs) |}, w', tr) /\
      files w' = files w /\ videos w' = videos w /\
      clips w' = foldl (scanStep w probe video_id) (clips wc) fs /\
      clip_jobs w' = clip_jobs wc /\ activeJobs w' = activeJobs wc.
Proof.
  intros Hvideo. induction fs as [|f fs IH]; intros wc a b n Hf Hv Hprobe.
  - exists wc, []. cbn. rewrite !Nat.add_0_r. by repeat split.
  - cbn [backfillLoop List.filter foldl].
    set (p := path_join (clipsDirOf video_id) f).
    destruct (parseClipIndex f) as [idx|] eqn:Hidx.
    2:{ assert (scannable w video_id f = false) as -> by (unfold scannable; by rewrite Hidx).
        assert (scanStep w probe video_id (clips wc) f = clips wc) as ->
          by (unfold scanStep; by rewrite Hidx).
        apply IH; auto. intros f' Hin. apply Hprobe. by right. }
    assert (scannable w video_id f = complete w p) as Hsc
      by (unfold scannable; by rewrite Hidx).
    rewrite (bind_ok _ _ _ _ _ (sizeCheck_spec p wc)).
    rewrite (complete_same w wc p Hf). rewrite Hsc.
    destruct (complete w p) eqn:Hc; cbn [negb].
    2:{ assert (scanStep w probe video_id (clips wc) f = clips wc) as ->.
        { unfold scanStep. rewrite Hidx. fold p. by rewrite Hc. }
        apply IH; auto. intros f' Hin. apply Hprobe. by right. }
    destruct (Hprobe f) as [meta Hmeta]; [by left|by rewrite Hsc|].
    fold p in Hmeta.
    destruct (complete_stat w p Hc) as (sz & Hstat & Hsz).
    rewrite bind_unfold, exec_bind, exec_extract_quiet.
    rewrite (metadataOf_files p _ wc w Hf), Hmeta.
    rewrite (bind_ok _ _ _ _ _ (liveSize_stat p meta wc true sz (ltac:(by rewrite Hf)))).
    destruct (upsertClip_ok (clipInputOf video_id idx p meta (Some (sizeNum sz))) wc)
      as [row Hup]; [cbn; by rewrite Hv|].
    rewrite (bind_ok _ _ _ _ _ Hup). cbn [in_video_id in_clip_index clipInputOf] in *.
    set (wn := setClips _ wc).
    destruct (IH wn (S a) (S b) (n + length [ffprobeRequest p])%nat)
      as (w' & tr & Hrun & Hf' & Hv' & Hcl' & Hj' & Ha'); [done|done| |].
    { intros f' Hin. apply Hprobe. by right. }
    rewrite Hrun. eexists w', _. split.
    { cbn [length]. do 3 f_equal. f_equal; lia. }
    split; [done|]. split; [done|]. split; [|done].
    rewrite Hcl'. f_equal. unfold scanStep. rewrite Hidx. fold p. rewrite Hc.
    unfold scannedRow. fold p. rewrite Hmeta, Hstat. reflexivity.
Qed.


Lemma stripPrefix_app p s r : stripPrefix p s = Some r -> s = p +:+ r.
Proof.
  revert s. induction p as [|a p IH]; intros s Hs; cbn in *.
  - by injection Hs as ->.
  - destruct s as [|b s]; [done|].
    destruct (Ascii.eqb_spec a b) as [->|]; [|done].
    by rewrite (IH s Hs).
Qed.

Lemma stripPrefix_append p r : stripPrefix p (p +:+ r) = Some r.
Proof.
  induction p as [|a p IH]; [done|].
  change (String a p +:+ r) with (String a (p +:+ r)). cbn [stripPrefix].
  by rewrite Ascii.eqb_refl.
Qed.

Lemma isDigit_spec d :
  isDigit d = true -> (digitOf d < 10)%nat /\ nat_of_ascii d = (48 + digitOf d)%nat.
Proof.
  unfold isDigit, digitOf. intros Hd. apply andb_prop in Hd as [H1 H2].
  apply Nat.leb_le in H1, H2. lia.
Qed.

Lemma digit_inj d d' :
  isDigit d = true -> isDigit d' = true -> digitOf d = digitOf d' -> d = d'.
Proof.
  intros Hd Hd' E. apply isDigit_spec in Hd as [_ Hd], Hd' as [_ Hd'].
  rewrite <- (ascii_nat_embedding d), <- (ascii_nat_embedding d'). congruence.
Qed.

(** the names that carry an index are exactly [clip_ddd.mp4] *)
Lemma parseClipIndex_shape f idx :
  parseClipIndex f = Some idx <->
  exists d1 d2 d3,
    f = "clip_" +:+ String d1 (String d2 (String d3 ".mp4")) /\
    isDigit d1 = true /\ isDigit d2 = true /\ isDigit d3 = true /\
    idx = (100 * digitOf d1 + 10 * digitOf d2 + digitOf d3)%nat.
Proof.
  unfold parseClipIndex. split.
  - destruct (stripPrefix "clip_" f) as [[|d1 [|d2 [|d3 rest]]]|] eqn:Hp; try done.
    destruct (isDigit d1) eqn:H1, (isDigit d2) eqn:H2, (isDigit d3) eqn:H3; try done.
    cbn [andb]. destruct (String.eqb_spec rest ".mp4") as [->|]; [|done].
    intros [= <-]. exists d1, d2, d3. split; [by apply stripPrefix_app|]. done.
  - intros (d1 & d2 & d3 & -> & H1 & H2 & H3 & ->).
    rewrite stripPrefix_append, H1, H2, H3. cbn [andb]. by rewrite String.eqb_refl.
Qed.

Lemma parseClipIndex_inj f1 f2 idx :
  parseClipIndex f1 = Some idx -> parseClipIndex f2 = Some idx -> f1 = f2.
Proof.
  intros H1 H2.
  apply parseClipIndex_shape in H1 as (a1 & a2 & a3 & -> & Ha1 & Ha2 & Ha3 & ->).
  apply parseClipIndex_shape in H2 as (b1 & b2 & b3 & -> & Hb1 & Hb2 & Hb3 & E).
  pose proof (isDigit_spec _ Ha1) as [? _]. pose proof (isDigit_spec _ Ha2) as [? _].
  pose proof (isDigit_spec _ Ha3) as [? _]. pose proof (isDigit_spec _ Hb1) as [? _].
  pose proof (isDigit_spec _ Hb2) as [? _]. pose proof (isDigit_spec _ Hb3) as [? _].
  rewrite (digit_inj a1 b1), (digit_inj a2 b2), (digit_inj a3 b3); auto; lia.
Qed.

Lemma scanStep_other w probe video_id t f key :
  (parseClipIndex f = Some key.2 -> key.1 = video_id -> scannable w video_id f = false) ->
  scanStep w probe video_id t f !! key = t !! key.
Proof.
  intros Hne. unfold scanStep. destruct (parseClipIndex f) as [idx|] eqn:Hidx; [|done].
  destruct (complete w _) eqn:Hc; [|done].
  destruct (scannedRow _ _ _ _ _ _); [|done].
  destruct key as [v i]. apply lookup_insert_ne. intros [= <- <-].
  specialize (Hne eq_refl eq_refl). unfold scannable in Hne. rewrite Hidx in Hne. congruence.
Qed.

Lemma foldl_scan_other w probe video_id fs key :
  forall t,
    (forall f, f ∈ fs -> parseClipIndex f = Some key.2 -> key.1 = video_id ->
               scannable w video_id f = false) ->
    foldl (scanStep w probe video_id) t fs !! key = t !! key.
Proof.
  induction fs as [|f fs IH]; intros t Hne; [done|].
  cbn [foldl]. rewrite IH.
  - apply scanStep_other. apply Hne. by left.
  - intros f' Hin. apply Hne. by right.
Qed.

Lemma foldl_scan_at w probe video_id fs :
  NoDup fs ->
  forall t f idx,
    f ∈ fs -> parseClipIndex f = Some idx ->
    complete w (path_join (clipsDirOf video_id) f) = true ->
    foldl (scanStep w probe video_id) t fs !! (video_id, idx) =
    match scannedRow w probe video_id f idx (t !! (video_id, idx)) with
    | Some row => Some row
    | None => t !! (video_id, idx)
    end.
Proof.
  induction fs as [|f0 fs IH]; intros Hnd t f idx Hin Hidx Hc.
  - by apply elem_of_nil in Hin.
  - apply NoDup_cons in Hnd as [Hf0 Hnd]. cbn [foldl].
    apply elem_of_cons in Hin as [->|Hin].
    + rewrite foldl_scan_other.
      * unfold scanStep. rewrite Hidx, Hc.
        destruct (scannedRow _ _ _ _ _ _); [by rewrite lookup_insert_eq|done].
      * intros f' Hin' Hidx' _. cbn in Hidx'.
        rewrite (parseClipIndex_inj _ _ _ Hidx' Hidx) in Hin'. done.
    + rewrite (IH Hnd _ f idx Hin Hidx Hc).
      rewrite scanStep_other; [done|].
      intros Hidx0 _. cbn in Hidx0.
      rewrite (parseClipIndex_inj _ _ _ Hidx0 Hidx) in Hf0. done.
Qed.

Lemma entryName_inj dir p1 p2 n :
  entryName dir p1 = Some n -> entryName dir p2 = Some n -> p1 = p2.
Proof.
  unfold entryName. intros H1 H2.
  destruct (stripPrefix (dir +:+ "/") p1) as [n1|] eqn:E1; [|done].
  destruct (stripPrefix (dir +:+ "/") p2) as [n2|] eqn:E2; [|done].
  destruct (String.eqb n1 "" || hasSlash n1); [done|].
  destruct (String.eqb n2 "" || hasSlash n2); [done|].
  injection H1 as ->. injection H2 as ->.
  apply stripPrefix_app in E1, E2. congruence.
Qed.

Lemma NoDup_omap_inj {A B} (f : A -> option B) (l : list A) :
  (forall x y z, f x = Some z -> f y = Some z -> x = y) ->
  NoDup l -> NoDup (omap f l).
Proof.
  intros Hinj. induction 1 as [|x l Hx Hnd IH]; cbn; [constructor|].
  destruct (f x) as [z|] eqn:Hz; [|done].
  apply NoDup_cons. split; [|done].
  rewrite list_elem_of_omap. intros (y & Hy & Hfy).
  rewrite (Hinj x y z Hz Hfy) in Hx. done.
Qed.

Lemma NoDup_listing w dir : NoDup (listing w dir).
Proof.
  unfold listing. rewrite merge_sort_Permutation. apply NoDup_omap_inj.
  - intros x y z. apply entryName_inj.
  - apply NoDup_fst_map_to_list.
Qed.

(** C5, as the code has it. The names that carry an index are exactly
    [clip_ddd.mp4] with three decimal digits. When the video has a row
    and the prober's answer yields metadata for every file that passes
    the size test, the scan in an otherwise idle world returns equal
    counts, the number of files that carry an index and are regular
    files of more than 1024 bytes; an entry that cannot be stat'ed, is
    not a regular file or has at most 1024 bytes is passed over, and so
    is a clips directory that did not exist, which is created empty. For
    each file kept, the row of its video and index is the one built from
    the prober's answer and the size on disk, over whatever row was there
    before; every other row is left as it was. *)
Theorem backfill_repairs_rows video_id w probe :
  is_Some (videos w !! video_id) ->
  (forall f, f ∈ listing w (clipsDirOf video_id) -> scannable w video_id f = true ->
     exists meta, metadataOf (path_join (clipsDirOf video_id) f)
                    (probe (ffprobeRequest (path_join (clipsDirOf video_id) f))) w = Ok meta) ->
  (forall f idx,
      parseClipIndex f = Some idx <->
      exists d1 d2 d3,
        f = "clip_" +:+ String d1 (String d2 (String d3 ".mp4")) /\
        isDigit d1 = true /\ isDigit d2 = true /\ isDigit d3 = true /\
        idx = (100 * digitOf d1 + 10 * digitOf d2 + digitOf d3)%nat) /\
  exists w' tr,
    exec (quiet probe) 0 (backfillClipMetadata video_id w) =
      (Ok {| scanned := length (List.filter (scannable w video_id)
                                  (listing w (clipsDirOf video_id)));
             upserted := length (List.filter (scannable w video_id)
                                   (listing w (clipsDirOf video_id))) |}, w', tr) /\
    files w' = files w /\ videos w' = videos w /\
    (forall f idx,
        f ∈ listing w (clipsDirOf video_id) ->
        parseClipIndex f = Some idx ->
        scannable w video_id f = true ->
        exists meta n,
          metadataOf (path_join (clipsDirOf video_id) f)
            (probe (ffprobeRequest (path_join (clipsDirOf video_id) f))) w = Ok meta /\
          files w !! path_join (clipsDirOf video_id) f = Some (Stat true n) /\
          clips w' !! (video_id, idx) =
            Some (upsertedRow
                    (clipInputOf video_id idx (path_join (clipsDirOf video_id) f) meta
                                 (Some (sizeNum n)))
                    (clips w !! (video_id, idx)))) /\
    (forall v' idx,
        (forall f, f ∈ listing w (clipsDirOf video_id) ->
                   parseClipIndex f = Some idx -> v' = video_id ->
                   scannable w video_id f = false) ->
        clips w' !! (v', idx) = clips w !! (v', idx)).
Proof.
  intros Hvideo Hprobe. split; [apply parseClipIndex_shape|].
  unfold backfillClipMetadata.
  destruct (getClipsDir_spec video_id w) as (w0 & Hdir & Hsame & Hdirs).
  rewrite (bind_ok _ _ _ _ _ Hdir). cbn beta.
  rewrite (bind_ok _ _ _ _ _ (readdirSync_ok (clipsDirOf video_id) w0
                                (ltac:(rewrite Hdirs; set_solver)))).
  destruct Hsame as (Hv0 & Hcl0 & Hj0 & Hf0 & _).
  assert (listing w0 (clipsDirOf video_id) = listing w (clipsDirOf video_id)) as ->
    by (unfold listing; by rewrite Hf0).
  destruct (backfillLoop_quiet w probe video_id Hvideo
              (listing w (clipsDirOf video_id)) w0 0%nat 0%nat 0%nat Hf0 Hv0 Hprobe)
    as (w' & tr & Hrun & Hf' & Hv' & Hcl' & _).
  exists w', tr. split; [exact Hrun|]. split; [done|]. split; [done|].
  rewrite Hcl0 in Hcl'. split.
  - intros f idx Hin Hidx Hsc.
    destruct (Hprobe f Hin Hsc) as [meta Hmeta].
    assert (complete w (path_join (clipsDirOf video_id) f) = true) as Hc.
    { unfold scannable in Hsc. by rewrite Hidx in Hsc. }
    destruct (complete_stat w _ Hc) as (n & Hstat & _).
    exists meta, n. split; [done|]. split; [done|].
    rewrite Hcl', (foldl_scan_at w probe video_id _ (NoDup_listing w _) _ f idx Hin Hidx Hc).
    unfold scannedRow. by rewrite Hmeta, Hstat.
  - intros v' idx Hne. rewrite Hcl'. by apply foldl_scan_other.
Qed.

(** * Further properties of the modules *)

(** ** The segment plan covers the duration *)







(** ** Worlds and continuations *)

Lemma bind_extract {B} p (f : ComputedVideoMetadata -> Async B) w :
  exists k,
    (extractVideoMetadata p ≫= f) w = Suspended (ffprobeRequest p) w k /\
    forall res w',
      k res w' = match metadataOf p res w' with
                 | Ok meta => f meta w'
                 | Thrown e => Finished (Thrown e) w'
                 end.
Proof.
  rewrite bind_unfold, extractVideoMetadata_suspends. cbn [bindStep].
  eexists. split; [reflexivity|].
  intros res w'. cbn beta. cbn [bindStep].
  change (bindStep (checkProbe res w') (describeProbe p))
    with ((checkProbe res ≫= describeProbe p) w').
  rewrite extract_resumes. cbn [bindStep]. by destruct (metadataOf _ _ _).
Qed.

Lemma liveSize_spec p meta w : liveSize p meta w = Finished (Ok (sizeOf w p meta)) w.
Proof.
  unfold liveSize, tryCatch, sizeOf. rewrite bind_unfold. unfold statSync.
  by destruct (files w !! p) as [[|f n]|].
Qed.

(** ** The request to leave a video that is not Approved alone *)

(** X2. A run asked for a video that is not in flight and whose status is
    not Approved ends at once, spawns nothing and leaves the world exactly
    as it was: no job row is written, no directory is created. Asked for
    an id that has no row, it throws "Video not found" and likewise
    leaves the world as it was, the in-flight set included. *)
Theorem unapproved_video_is_left_alone video_id w :
  video_id ∉ activeJobs w ->
  (forall v, videos w !! video_id = Some v -> status v <> Approved ->
             generateClipsForVideo video_id w = Finished (Ok tt) w) /\
  (videos w !! video_id = None ->
   generateClipsForVideo video_id w =
   Finished (Thrown (Error ("Video not found: " +:+ video_id))) w).
Proof.
  intros Hfree.
  assert (setActiveJobs (fun s => s ∖ {[video_id]})
            (setActiveJobs (fun s => {[video_id]} ∪ s) w) = w) as Hsame.
  { apply World_eq; try reflexivity. cbn. by apply release_acquire. }
  split.
  - intros v Hv Hs. unfold generateClipsForVideo.
    rewrite bool_decide_eq_false_2 by done. unfold tryFinally, generateClipsBody.
    rewrite (bind_ok _ _ _ _ _
               (getVideo_some video_id (setActiveJobs (fun s => {[video_id]} ∪ s) w) v Hv)).
    rewrite bool_decide_eq_false_2 by done. cbn. by rewrite Hsame.
  - intros Hv. unfold generateClipsForVideo.
    rewrite bool_decide_eq_false_2 by done. unfold tryFinally, generateClipsBody.
    rewrite (bind_thrown _ _ _ _ _
               (getVideo_none video_id (setActiveJobs (fun s => {[video_id]} ∪ s) w) Hv)).
    cbn. by rewrite Hsame.
Qed.

(** ** The turn of the loop that transcodes *)

Lemma segmentLoop_awaits_ffmpeg video_id v rows D total n i w latest :
  videos w !! video_id = Some latest ->
  status latest = Approved ->
  (hundredth < segmentLen D i)%Qc ->
  complete w (clipPathOf video_id i) = false ->
  exists w1 k,
    segmentLoop video_id v rows D total (S n) i w =
      Suspended (ffmpegRequest video_id v D i) w1 k /\
    files w1 = unlinked (clipPathOf video_id i) (files w) /\
    videos w1 = videos w /\ clips w1 = clips w /\ clip_jobs w1 = clip_jobs w /\
    logs w1 = logs w /\ clock w1 = clock w /\ activeJobs w1 = activeJobs w /\
    forall res w2,
      k res w2 = afterFfmpeg video_id total i (clipPathOf video_id i)
                   (segmentLoop video_id v rows D total n (S i)) res w2.
Proof.
  intros Hv Hs Hlen Hc. cbn [segmentLoop].
  rewrite (bind_ok _ _ _ _ _ (getVideo_some _ _ _ Hv)).
  rewrite bool_decide_eq_true_2 by done. cbn [negb].
  rewrite (proj2 (Qc_leb_false _ _)) by done.
  destruct (clipPath_spec video_id i w) as (w0 & Hp & Hsame).
  rewrite (bind_ok _ _ _ _ _ Hp).
  rewrite (bind_ok _ _ _ _ _ (fileLooksComplete_spec _ _)).
  assert (complete w0 (clipPathOf video_id i) = false) as ->.
  { unfold complete in *. destruct Hsame as (_&_&_&->&_). done. }
  destruct (safeUnlink_spec (clipPathOf video_id i) w0) as (w1 & Hu & Hf & Hrest).
  rewrite (bind_ok _ _ _ _ _ Hu).
  rewrite bind_unfold. unfold runCommand at 1. cbn [bindStep].
  eexists w1, _. split; [reflexivity|].
  destruct Hsame as (Ha&Hb&Hc'&Hd&He&Hf'&Hg).
  destruct Hrest as (Ha'&Hb'&Hc''&_&He'&Hf''&Hg').
  repeat split; try congruence.
Qed.

Lemma appendLog_spec name text w :
  appendLog name text w =
  Finished (Ok (logPathOf name))
    (setLogs (fun l => <[logPathOf name := default "" (l !! logPathOf name) +:+ text]> l)
       (setDirs (fun d => {[cwd +:+ "/data/logs"]} ∪ d) w)).
Proof. reflexivity. Qed.

Lemma setVideoError_spec video_id msg w row :
  videos w !! video_id = Some row ->
  setVideoError video_id msg w =
  Finished (Ok (withError row msg))
    (setVideos (alter (fun r => withError r msg) video_id) w).
Proof.
  intros Hv. unfold setVideoError, modify. rewrite bind_unfold. cbn [bindStep].
  apply getVideo_some. cbn. by rewrite lookup_alter_eq, Hv.
Qed.


Lemma upsertClip_orphan input w :
  videos w !! in_video_id input = None ->
  upsertClip input w = Finished (Thrown (SqliteError "FOREIGN KEY constraint failed")) w.
Proof.
  intros Hv. unfold upsertClip, foreignKey. rewrite !bind_unfold. by rewrite Hv.
Qed.



(** ** The turn of the loop that finds its file *)


(** ** The names of the clip files *)

Lemma length_append (a b : string) :
  String.length (a +:+ b) = (String.length a + String.length b)%nat.
Proof.
  induction a as [|c a IH]; [done|].
  change (String c a +:+ b) with (String c (a +:+ b)). cbn [String.length]. by rewrite IH.
Qed.

Lemma append_assoc (a b c : string) : (a +:+ b) +:+ c = a +:+ (b +:+ c).
Proof.
  induction a as [|x a IH]; [done|].
  change (String x ((a +:+ b) +:+ c) = String x (a +:+ (b +:+ c))). by rewrite IH.
Qed.

Lemma append_nil_r (a : string) : a +:+ "" = a.
Proof.
  induction a as [|x a IH]; [done|].
  change (String x (a +:+ "") = String x a). by rewrite IH.
Qed.

Lemma append_cancel_r (a b s : string) : a +:+ s = b +:+ s -> a = b.
Proof.
  revert b. induction a as [|x a IH]; intros [|y b] E.
  - done.
  - apply (f_equal String.length) in E.
    rewrite !length_append in E. cbn [String.length] in E. lia.
  - apply (f_equal String.length) in E.
    rewrite !length_append in E. cbn [String.length] in E. lia.
  - change (String x (a +:+ s) = String y (b +:+ s)) in E.
    injection E as -> E. by rewrite (IH b E).
Qed.

Lemma length_string_of_list_ascii l :
  String.length (string_of_list_ascii l) = length l.
Proof. induction l as [|c l IH]; [done|]. cbn. by rewrite IH. Qed.

Lemma pretty_N_go_length x s :
  (String.length s <= String.length (pretty_N_go x s))%nat.
Proof.
  revert s. induction (N.lt_wf_0 x) as [x _ IH]; intros s.
  destruct (decide (x = 0%N)) as [->|Hx]; [by rewrite pretty_N_go_0|].
  rewrite pretty_N_go_step by lia.
  etrans; [|apply IH; apply N.div_lt; lia]. cbn. lia.
Qed.

Lemma pretty_long (i : nat) : (1000 <= i)%nat -> (4 <= String.length (pretty i))%nat.
Proof.
  intros Hi. unfold pretty, pretty_nat, pretty, pretty_N.
  set (x := N.of_nat i). assert (1000 <= x)%N as Hx by lia. clearbody x.
  destruct (decide (x = 0%N)); [lia|].
  assert (100 <= x `div` 10)%N as H1 by (apply N.div_le_lower_bound; lia).
  assert (10 <= (x `div` 10) `div` 10)%N as H2 by (apply N.div_le_lower_bound; lia).
  assert (1 <= ((x `div` 10) `div` 10) `div` 10)%N as H3 by (apply N.div_le_lower_bound; lia).
  rewrite pretty_N_go_step by lia. rewrite pretty_N_go_step by lia.
  rewrite pretty_N_go_step by lia. rewrite pretty_N_go_step by lia.
  etrans; [|apply pretty_N_go_length]. cbn. lia.
Qed.

Lemma padStart_long n c s : (n <= String.length s)%nat -> padStart n c s = s.
Proof.
  intros Hn. unfold padStart. by replace (n - String.length s)%nat with 0%nat by lia.
Qed.

Lemma length_padStart n c s : (n <= String.length (padStart n c s))%nat.
Proof.
  unfold padStart. rewrite length_append, length_string_of_list_ascii, length_replicate. lia.
Qed.

Lemma parseClipIndex_clipName_small i :
  (i < 1000)%nat -> parseClipIndex (clipName i) = Some i.
Proof.
  intros Hi.
  assert (forallb (fun i => match parseClipIndex (clipName i) with
                            | Some j => Nat.eqb i j
                            | None => false
                            end) (seq 0 1000) = true) as Hall by (vm_compute; reflexivity).
  rewrite forallb_forall in Hall. specialize (Hall i).
  destruct (parseClipIndex (clipName i)) as [j|].
  - f_equal. symmetry. apply Nat.eqb_eq, Hall, in_seq. lia.
  - discriminate Hall. apply in_seq. lia.
Qed.

Lemma parseClipIndex_length f idx :
  parseClipIndex f = Some idx -> String.length f = 12%nat /\ (idx < 1000)%nat.
Proof.
  intros Hf. apply parseClipIndex_shape in Hf as (d1 & d2 & d3 & -> & H1 & H2 & H3 & ->).
  split; [reflexivity|].
  apply isDigit_spec in H1 as [? _], H2 as [? _], H3 as [? _]. lia.
Qed.

Lemma length_clipName i :
  String.length (clipName i) = (9 + String.length (padStart 3 "0" (pretty i)))%nat.
Proof. unfold clipName. rewrite !length_append. cbn. lia. Qed.

Lemma parseClipIndex_clipName_large i :
  (1000 <= i)%nat -> parseClipIndex (clipName i) = None.
Proof.
  intros Hi. destruct (parseClipIndex (clipName i)) as [idx|] eqn:E; [|done].
  apply parseClipIndex_length in E as [E _]. rewrite length_clipName in E.
  pose proof (pretty_long i Hi). rewrite padStart_long in E by lia. lia.
Qed.

Lemma startsWith_append p r : startsWith p (p +:+ r) = true.
Proof.
  unfold startsWith. induction p as [|a p IH]; [by destruct r|].
  change (String a p +:+ r) with (String a (p +:+ r)). cbn [String.prefix].
  by destruct (ascii_dec a a).
Qed.

Lemma substring_all p : substring 0 (String.length p) p = p.
Proof. induction p as [|a p IH]; [done|]. cbn. by rewrite IH. Qed.

Lemma substring_append s p :
  substring (String.length s) (String.length p) (s +:+ p) = p.
Proof.
  induction s as [|a s IH]; [apply substring_all|].
  change (String a s +:+ p) with (String a (s +:+ p)). cbn [String.length substring].
  exact IH.
Qed.

Lemma endsWith_append s p : endsWith p (s +:+ p) = true.
Proof.
  unfold endsWith. rewrite length_append. apply andb_true_intro. split.
  - apply Nat.leb_le. lia.
  - replace (String.length s + String.length p - String.length p)%nat
      with (String.length s) by lia.
    rewrite substring_append. apply String.eqb_refl.
Qed.

(** X7. The name that the pipeline gives to the clip of an index and the
    index that the scan reads off a name are inverse to each other up to
    index 999: the scan reads [i] off the name of clip [i] when [i] is
    below 1000, and every name from which the scan reads an index is the
    name of the clip of that index. From index 1000 on the name has four
    digits or more, the scan reads no index off it, although the name
    still counts as that of a clip file for the test that triggers the
    scan. *)
Theorem clip_names_round_trip :
  (forall i, parseClipIndex (clipName i) = if (i <? 1000)%nat then Some i else None) /\
  (forall f idx, parseClipIndex f = Some idx <-> f = clipName idx /\ (idx < 1000)%nat) /\
  (forall i, looksLikeClip (clipName i) = true).
Proof.
  split; [|split].
  - intros i. destruct (i <? 1000)%nat eqn:E.
    + apply Nat.ltb_lt in E. by apply parseClipIndex_clipName_small.
    + apply Nat.ltb_ge in E. by apply parseClipIndex_clipName_large.
  - intros f idx. split.
    + intros Hf. pose proof (parseClipIndex_length f idx Hf) as [_ Hidx].
      split; [|done].
      apply (parseClipIndex_inj f (clipName idx) idx Hf).
      by apply parseClipIndex_clipName_small.
    + intros [-> Hidx]. by apply parseClipIndex_clipName_small.
  - intros i. unfold looksLikeClip, clipName.
    rewrite startsWith_append. rewrite <- append_assoc. by rewrite endsWith_append.
Qed.

Lemma clipName_inj i j : clipName i = clipName j -> i = j.
Proof.
  intros E.
  destruct (decide (i < 1000)%nat) as [Hi|Hi], (decide (j < 1000)%nat) as [Hj|Hj].
  - pose proof (parseClipIndex_clipName_small i Hi) as Pi.
    rewrite E, (parseClipIndex_clipName_small j Hj) in Pi. congruence.
  - pose proof (parseClipIndex_clipName_small i Hi) as Pi.
    rewrite E, parseClipIndex_clipName_large in Pi by lia. discriminate.
  - pose proof (parseClipIndex_clipName_small j Hj) as Pj.
    rewrite <- E, parseClipIndex_clipName_large in Pj by lia. discriminate.
  - unfold clipName in E. apply (inj (String.append "clip_")) in E.
    apply append_cancel_r in E.
    rewrite !padStart_long in E by (etrans; [|apply pretty_long; lia]; lia).
    by apply (inj pretty).
Qed.

(** X8. Within the clips directory of a video, the clips of two
    different indices (below 2^53, where an index is an exact integer
    written in decimal) have different paths: no segment of a run writes
    over the file of another. *)
Theorem clip_paths_are_distinct video_id i j :
  (Z.of_nat i < 2 ^ 53)%Z -> (Z.of_nat j < 2 ^ 53)%Z ->
  i <> j ->
  clipPathOf video_id i <> clipPathOf video_id j.
Proof.
  intros _ _ Hne E. apply Hne. unfold clipPathOf, path_join in E.
  apply (inj (String.append (clipsDirOf video_id))) in E.
  apply (inj (String.append "/")) in E. by apply clipName_inj.
Qed.

(** ** The store *)

Lemma insert_same {K A} `{Countable K} (k : K) (x : A) (m : gmap K A) :
  m !! k = Some x -> <[k := x]> m = m.
Proof.
  intros Hk. apply map_eq. intros j. destruct (decide (j = k)) as [->|Hj].
  - by rewrite lookup_insert_eq.
  - by rewrite lookup_insert_ne.
Qed.

Lemma upsertClip_spec input w :
  is_Some (videos w !! in_video_id input) ->
  upsertClip input w =
  Finished (Ok (upsertedRow input (clips w !! (in_video_id input, in_clip_index input))))
    (setClips (fun t => <[(in_video_id input, in_clip_index input) :=
                            upsertedRow input (t !! (in_video_id input, in_clip_index input))]> t) w).
Proof.
  intros [v Hv]. unfold upsertClip, foreignKey, modify. rewrite !bind_unfold. rewrite Hv.
  cbn [bindStep]. rewrite bind_unfold. cbn [bindStep]. unfold getClip. cbn [clips setClips].
  by rewrite lookup_insert_eq.
Qed.

Lemma upsertedRow_again input old :
  upsertedRow input (Some (upsertedRow input old)) = upsertedRow input old.
Proof. unfold upsertedRow. cbn. by destruct old. Qed.

(** X9. Writing a clip row for a video that has a row succeeds and
    returns the row now stored under the video and index: its columns are
    the ones given, and its [clip_id] is the one of the row that was
    there, or the id made of the video and the index when there was none.
    No other clip row changes, nor anything outside the clips, and
    writing the same input again changes nothing. For a video that has
    no row the write fails on the foreign key and the store is left as it
    was. *)
Theorem upsertClip_round_trip input w :
  (is_Some (videos w !! in_video_id input) ->
   exists row w',
     upsertClip input w = Finished (Ok row) w' /\
     getClip (in_video_id input) (in_clip_index input) w' = Finished (Ok row) w' /\
     clip_id row =
       match clips w !! (in_video_id input, in_clip_index input) with
       | Some old => clip_id old
       | None => makeClipId (in_video_id input) (in_clip_index input)
       end /\
     path row = in_path input /\ duration row = in_duration input /\
     fps row = in_fps input /\ width row = in_width input /\
     height row = in_height input /\ file_size_bytes row = in_file_size_bytes input /\
     (forall key, key <> (in_video_id input, in_clip_index input) ->
                  clips w' !! key = clips w !! key) /\
     videos w' = videos w /\ clip_jobs w' = clip_jobs w /\ files w' = files w /\
     upsertClip input w' = Finished (Ok row) w') /\
  (videos w !! in_video_id input = None ->
   upsertClip input w = Finished (Thrown (SqliteError "FOREIGN KEY constraint failed")) w).
Proof.
  split; [|apply upsertClip_orphan].
  intros Hv. eexists _, _. split; [by apply upsertClip_spec|].
  set (key := (in_video_id input, in_clip_index input)).
  set (w' := setClips _ w).
  assert (clips w' !! key = Some (upsertedRow input (clips w !! key))) as Hkey
    by (cbn; by rewrite lookup_insert_eq).
  split; [unfold getClip; fold key; by rewrite Hkey|].
  split; [reflexivity|].
  do 6 (split; [reflexivity|]).
  split; [intros key' Hne; cbn; by rewrite lookup_insert_ne|].
  do 3 (split; [reflexivity|]).
  rewrite (upsertClip_spec input w' Hv). fold key. rewrite Hkey, upsertedRow_again.
  f_equal. apply World_eq; try reflexivity.
  cbn [clips setClips]. apply insert_same. fold key. rewrite Hkey.
  by rewrite upsertedRow_again.
Qed.

Lemma fst_omap_clips (video_id : string) (l : list (string * nat * ClipRow)) :
  (omap (fun kr : string * nat * ClipRow =>
           if String.eqb kr.1.1 video_id then Some (kr.1.2, kr.2) else None) l).*1 =
  omap (fun k : string * nat => if String.eqb k.1 video_id then Some k.2 else None) l.*1.
Proof.
  induction l as [|[[v j] r] l IH]; [done|]. cbn.
  destruct (String.eqb v video_id); cbn; by rewrite IH.
Qed.

Lemma NoDup_clipsOf (video_id : string) (t : gmap (string * nat) ClipRow) :
  NoDup (clipsOf video_id t).*1.
Proof.
  unfold clipsOf. rewrite merge_sort_Permutation, fst_omap_clips.
  apply NoDup_omap_inj; [|apply NoDup_fst_map_to_list].
  intros [v1 j1] [v2 j2] z. cbn.
  destruct (String.eqb_spec v1 video_id) as [->|]; [|done].
  destruct (String.eqb_spec v2 video_id) as [->|]; [|done].
  congruence.
Qed.

Lemma StronglySorted_strict (l : list (nat * ClipRow)) :
  StronglySorted clipIndexLe l -> NoDup l.*1 ->
  StronglySorted (fun a b : nat * ClipRow => (a.1 < b.1)%nat) l.
Proof.
  induction 1 as [|a l Hs IH Hall]; intros Hnd; [constructor|].
  rewrite fmap_cons in Hnd. apply NoDup_cons in Hnd as [Ha Hnd].
  constructor; [by apply IH|].
  rewrite Forall_forall in Hall |- *. intros b Hb.
  specialize (Hall b Hb). unfold clipIndexLe in Hall.
  assert (a.1 <> b.1); [|lia].
  intros E. apply Ha. rewrite E. by apply list_elem_of_fmap_2.
Qed.

(** X10. Listing the clips of a video changes nothing and returns
    exactly the rows stored for that video, each with its index, in
    strictly ascending order of index: no row of another video, no row
    twice, none left out. *)
Theorem listClips_is_ordered video_id w :
  exists rows,
    listClips video_id w = Finished (Ok rows) w /\
    (forall j row, (j, row) ∈ rows <-> clips w !! (video_id, j) = Some row) /\
    StronglySorted (fun a b : nat * ClipRow => (a.1 < b.1)%nat) rows.
Proof.
  exists (clipsOf video_id (clips w)). split; [reflexivity|].
  split; [intros j row; apply elem_of_clipsOf|].
  apply StronglySorted_strict; [|apply NoDup_clipsOf].
  assert (Transitive clipIndexLe) by (intros a b c; unfold clipIndexLe; lia).
  assert (Total clipIndexLe) by (intros a b; unfold clipIndexLe; lia).
  unfold clipsOf. by apply (StronglySorted_merge_sort clipIndexLe).
Qed.

Lemma empty_list_no_elem {A} (l : list A) : (forall x, x ∉ l) -> l = [].
Proof. destruct l as [|a l]; [done|]. intros Hl. destruct (Hl a). by left. Qed.

(** X11. In a store whose foreign keys hold, deleting a video removes its
    row together with every clip row and the job row that belong to it,
    as the schema's cascade says: afterwards the video is not found, its
    list of clips is empty and it has no job. The rows of every other
    video stay as they are, nothing on disk is touched, the foreign keys
    still hold, and deleting an id that has no row changes nothing at
    all. *)
Theorem deleteVideo_cascades video_id w :
  referential w ->
  exists w',
    deleteVideo video_id w = Finished (Ok tt) w' /\
    referential w' /\
    getVideo video_id w' = Finished (Thrown (Error ("Video not found: " +:+ video_id))) w' /\
    listClips video_id w' = Finished (Ok []) w' /\
    getClipJob video_id w' = Finished (Ok None) w' /\
    (forall v, v <> video_id ->
       videos w' !! v = videos w !! v /\ clip_jobs w' !! v = clip_jobs w !! v /\
       forall i, clips w' !! (v, i) = clips w !! (v, i)) /\
    files w' = files w /\ dirs w' = dirs w /\ logs w' = logs w /\
    activeJobs w' = activeJobs w /\
    (videos w !! video_id = None -> w' = w).
Proof.
  intros [Hfk1 Hfk2]. eexists. split; [reflexivity|].
  set (w' := setJobs _ _).
  assert (forall v i, clips w' !! (v, i) =
                      if bool_decide (v = video_id) then None else clips w !! (v, i)) as Hclips.
  { intros v i. cbn. case_bool_decide as Hv.
    - apply map_lookup_filter_None. right. intros x _. cbn. by intros ?.
    - destruct (clips w !! (v, i)) as [x|] eqn:E.
      + apply map_lookup_filter_Some. by split.
      + apply map_lookup_filter_None. by left. }
  split; [|split; [|split; [|split; [|split; [|do 4 (split; [reflexivity|])]]]]].
  - split.
    + intros v i [x Hx]. rewrite Hclips in Hx. case_bool_decide as Hv; [done|].
      cbn. rewrite lookup_delete_ne by done. apply (Hfk1 v i). by rewrite Hx.
    + intros v [x Hx]. cbn in Hx. destruct (decide (v = video_id)) as [->|Hv].
      * by rewrite lookup_delete_eq in Hx.
      * rewrite lookup_delete_ne in Hx by done. cbn. rewrite lookup_delete_ne by done.
        apply Hfk2. by rewrite Hx.
  - apply getVideo_none. cbn. by rewrite lookup_delete_eq.
  - unfold listClips, gets. do 2 f_equal. apply empty_list_no_elem.
    intros [j row] Hin. apply elem_of_clipsOf in Hin. rewrite Hclips in Hin.
    by rewrite bool_decide_eq_true_2 in Hin.
  - unfold getClipJob, gets. do 2 f_equal. cbn. by rewrite lookup_delete_eq.
  - intros v Hv. cbn. rewrite !lookup_delete_ne by done. split; [done|]. split; [done|].
    intros i. pose proof (Hclips v i) as Hc. cbn in Hc. rewrite Hc.
    by rewrite bool_decide_eq_false_2.
  - intros Hnone. apply World_eq; try reflexivity; cbn.
    + by apply delete_id.
    + apply map_filter_id. intros [v i] x Hx. cbn. intros ->.
      destruct (Hfk1 video_id i) as [? ?]; [by rewrite Hx|congruence].
    + apply delete_id. destruct (clip_jobs w !! video_id) eqn:E; [|done].
      destruct (Hfk2 video_id) as [? ?]; [by rewrite E|congruence].
Qed.

(** X12. For an id that has no video row, every function of the store
    that reads or updates a video throws "Video not found" with the id,
    the functions that write a clip row or a job row fail on the foreign
    key, and each of them leaves the world exactly as it was; listing
    the videos does not show the id. *)
Theorem missing_video_is_reported video_id w :
  videos w !! video_id = None ->
  getVideo video_id w = Finished (Thrown (Error ("Video not found: " +:+ video_id))) w /\
  (forall st, updateVideoStatus video_id st w =
              Finished (Thrown (Error ("Video not found: " +:+ video_id))) w) /\
  (forall text rot, saveVideoMetadata video_id text rot w =
                    Finished (Thrown (Error ("Video not found: " +:+ video_id))) w) /\
  (forall msg, setVideoError video_id msg w =
               Finished (Thrown (Error ("Video not found: " +:+ video_id))) w) /\
  (forall st e c, setClipJobState video_id st e c w =
                  Finished (Thrown (SqliteError "FOREIGN KEY constraint failed")) w) /\
  (forall input, in_video_id input = video_id ->
                 upsertClip input w =
                 Finished (Thrown (SqliteError "FOREIGN KEY constraint failed")) w) /\
  (forall rows, listVideos w = Finished (Ok rows) w -> video_id ∉ rows.*1).
Proof.
  intros Hv.
  split; [by apply getVideo_none|].
  split; [intros st; by apply update_missing|].
  split; [intros text rot; by apply update_missing|].
  split; [intros msg; by apply update_missing|].
  split; [|split].
  - intros st e c. unfold setClipJobState, nowIso, foreignKey, gets.
    rewrite !bind_unfold. cbn [bindStep]. rewrite !bind_unfold. by rewrite Hv.
  - intros input <-. by apply upsertClip_orphan.
  - intros rows [= <-]. destruct (listVideos_keys w) as [_ Hin]. cbv zeta in Hin.
    rewrite Hin, Hv. by intros [? ?].
Qed.

(** X13. Creating a video under an id that has no row stores a row that
    is Pending, carries the given file name and path and the time of the
    call, and has no metadata, rotation or error; the row is returned and
    is what reading the id gives from then on; no other row changes.
    Under an id that already has a row the insert fails on the primary
    key and the row that was there stays as it was, status and metadata
    included. *)
Theorem createVideo_is_pending input w :
  (videos w !! new_video_id input = None ->
   exists row w',
     createVideo input w = Finished (Ok row) w' /\
     row = {| created_at := Date_toISOString (clock w); filename := new_filename input;
              original_path := new_original_path input; status := Pending;
              metadata_json := None; rotation_raw := None; error_message := None |} /\
     getVideo (new_video_id input) w' = Finished (Ok row) w' /\
     (forall v, v <> new_video_id input -> videos w' !! v = videos w !! v) /\
     clips w' = clips w /\ clip_jobs w' = clip_jobs w /\ files w' = files w /\
     activeJobs w' = activeJobs w) /\
  (is_Some (videos w !! new_video_id input) ->
   createVideo input w =
   Finished (Thrown (SqliteError "UNIQUE constraint failed: videos.video_id")) w).
Proof.
  split.
  - intros Hv. unfold createVideo, nowIso, gets, insertVideo.
    rewrite !bind_unfold. cbn [bindStep]. rewrite !bind_unfold. rewrite Hv. cbn [bindStep].
    eexists _, _. split; [apply getVideo_some; cbn; by rewrite lookup_insert_eq|].
    split; [reflexivity|].
    split; [apply getVideo_some; cbn; by rewrite lookup_insert_eq|].
    split; [intros v Hne; cbn; by rewrite lookup_insert_ne|]. by repeat split.
  - intros [row Hv]. unfold createVideo, nowIso, gets, insertVideo.
    rewrite !bind_unfold. cbn [bindStep]. rewrite !bind_unfold. by rewrite Hv.
Qed.

(** ** Logs *)

Lemma length_substring_0 n s :
  String.length (substring 0 n s) = Nat.min n (String.length s).
Proof.
  revert s. induction n as [|n IH]; intros [|c s]; cbn; try done. by rewrite IH.
Qed.

Lemma substring_0_append a b : substring 0 (String.length a) (a +:+ b) = a.
Proof.
  induction a as [|c a IH]; [by destruct b|].
  change (String c a +:+ b) with (String c (a +:+ b)). cbn. by rewrite IH.
Qed.

(** X14. A text that fits the limit is returned as it is. A longer one
    is cut: the result starts with the first [max] characters of the
    text, and its length is [max] plus the 24 characters of the note that
    follows plus the digits of the original length, so what goes into the
    store is bounded by the limit and not by the output of the child. *)
Theorem truncateForDb_bounds s max :
  ((String.length s <= max)%nat -> truncateForDb s max = s) /\
  ((max < String.length s)%nat ->
   slice0 max (truncateForDb s max) = slice0 max s /\
   String.length (truncateForDb s max) =
     (max + 24 + String.length (pretty (String.length s)))%nat).
Proof.
  unfold truncateForDb. split.
  - intros Hle. destruct (String.eqb_spec s "") as [->|_]; [done|].
    by rewrite (proj2 (Nat.leb_le _ _) Hle).
  - intros Hlt. destruct (String.eqb_spec s "") as [->|_]; [cbn in Hlt; lia|].
    rewrite (proj2 (Nat.leb_gt _ _) Hlt).
    assert (String.length (slice0 max s) = max) as Hlen.
    { unfold slice0. rewrite length_substring_0. lia. }
    split.
    + unfold slice0 at 1. rewrite <- Hlen at 1. apply substring_0_append.
    + rewrite !length_append, Hlen. cbn [String.length]. lia.
Qed.

(** X15. Appending to a log returns the path of the file under the logs
    directory, which it creates, and adds the text at the end of what
    the file held; two appends to the same file leave the two texts one
    after the other. Nothing else changes: no other log, nothing in the
    store, no clip file. *)
Theorem appendLog_accumulates name a b w :
  exists w',
    (appendLog name a;; appendLog name b) w = Finished (Ok (logPathOf name)) w' /\
    logs w' !! logPathOf name = Some (default "" (logs w !! logPathOf name) +:+ a +:+ b) /\
    (forall p, p <> logPathOf name -> logs w' !! p = logs w !! p) /\
    (cwd +:+ "/data/logs") ∈ dirs w' /\
    videos w' = videos w /\ clips w' = clips w /\ clip_jobs w' = clip_jobs w /\
    files w' = files w /\ activeJobs w' = activeJobs w.
Proof.
  rewrite (bind_ok _ _ _ _ _ (appendLog_spec name a w)). rewrite appendLog_spec.
  eexists. split; [reflexivity|]. cbn. rewrite !lookup_insert_eq. cbn.
  split; [by rewrite append_assoc|].
  split; [intros p Hp; by rewrite !lookup_insert_ne|].
  split; [set_solver|]. by repeat split.
Qed.

(** ** What the prober's output is turned into *)

Lemma describeProbe_ok p raw w meta w' :
  describeProbe p raw w = Finished (Ok meta) w' ->
  w' = w /\ raw <> JNull /\
  exists vs rot,
    primaryStream raw = Some vs /\
    extractRotationRaw vs = Ok rot /\
    let width := finiteOrNull (Number_ (prop "width" (Some vs))) in
    let height := finiteOrNull (Number_ (prop "height" (Some vs))) in
    let ar := computeAspectRatio width height
                (typeofString (prop "display_aspect_ratio" (Some vs))) in
    meta =
    {| meta_fps := streamFps vs;
       meta_duration_seconds :=
         nullish (parseDurationSeconds (prop "duration" (Some (formatOf raw))))
                 (parseDurationSeconds (prop "duration" (Some vs)));
       meta_width := width;
       meta_height := height;
       meta_aspect_ratio := ar.2;
       meta_aspect_ratio_str := ar.1;
       meta_rotation_raw := rot;
       meta_codec := typeofString (prop "codec_name" (Some vs));
       meta_codec_long_name := typeofString (prop "codec_long_name" (Some vs));
       meta_file_size_bytes :=
         match files w !! p with
         | Some (Stat _ n) => Some (sizeNum n)
         | _ => finiteOrNull (Number_ (prop "size" (Some (formatOf raw))))
         end;
       meta_container_format := typeofString (prop "format_name" (Some (formatOf raw)));
       meta_ffprobe_raw := raw |}.
Proof.
  unfold describeProbe, primaryStream, streamsOf, formatOf.
  destruct raw; try (intros [=]; fail).
  all: match goal with
       | |- context [nullish ?a ?b] => destruct (nullish a b) as [vs|] eqn:Hvs
       end; try (intros [=]; fail).
  all: destruct (computeAspectRatio _ _ _) as [ars ar] eqn:Har.
  all: rewrite bind_unfold; unfold ofResult at 1;
    destruct (extractRotationRaw vs) as [rot|e] eqn:Hrot; cbn [bindStep];
    try (intros [=]; fail).
  all: rewrite bind_unfold; unfold tryCatch at 1; rewrite bind_unfold; unfold statSync at 1;
    destruct (files w !! p) as [[|f n]|]; cbn [bindStep catchStep mret Async_ret];
    intros [= <- <-]; (split; [reflexivity|]); (split; [discriminate|]);
    exists vs, rot; (split; [reflexivity|]); (split; [exact Hrot|]);
    cbv zeta; rewrite Har; reflexivity.
Qed.

Lemma describeProbe_defined p raw w vs rot :
  raw <> JNull -> primaryStream raw = Some vs -> extractRotationRaw vs = Ok rot ->
  exists meta, describeProbe p raw w = Finished (Ok meta) w.
Proof.
  unfold describeProbe, primaryStream, streamsOf.
  destruct raw; try done; intros _ -> Hrot.
  all: destruct (computeAspectRatio _ _ _) as [ars ar].
  all: rewrite bind_unfold; unfold ofResult at 1; rewrite Hrot; cbn [bindStep].
  all: rewrite bind_unfold; unfold tryCatch at 1; rewrite bind_unfold; unfold statSync at 1;
    destruct (files w !! p) as [[|f n]|]; cbn [bindStep catchStep mret Async_ret];
    by eexists.
Qed.

Lemma metadataOf_defined p res w raw vs rot :
  checkProbe res w = Finished (Ok raw) w ->
  raw <> JNull -> primaryStream raw = Some vs -> extractRotationRaw vs = Ok rot ->
  exists meta, metadataOf p res w = Ok meta.
Proof.
  intros Hc Hraw Hvs Hrot. unfold metadataOf. rewrite (bind_ok _ _ _ _ _ Hc).
  destruct (describeProbe_defined p raw w vs rot Hraw Hvs Hrot) as [meta ->]. by eexists.
Qed.

Lemma parseDurationSeconds_nonneg x d :
  parseDurationSeconds x = Some d -> (Qc_of_Z 0 <= d)%Qc.
Proof.
  unfold parseDurationSeconds. destruct (Number_ x) as [n| | |]; try done.
  destruct (Qc_leb (Qc_of_Z 0) n) eqn:E; [|done]. intros [= <-]. by apply Qc_leb_true.
Qed.

Lemma computeAspectRatio_both width height dar :
  (computeAspectRatio width height dar).2 = None <->
  (computeAspectRatio width height dar).1 = None.
Proof.
  unfold computeAspectRatio.
  destruct dar as [d|].
  - destruct (negb (String.eqb d "") && negb (String.eqb d "0:1") && negb (String.eqb d "N/A")).
    + destruct (split ":" d) as [|p0 [|p1 [|? ?]]];
        try (destruct width, height; try done;
             destruct (negb _ && negb _); by cbn).
      destruct (StringToNumber p0), (StringToNumber p1);
        try (destruct width, height; try done;
             destruct (negb _ && negb _); by cbn).
      destruct (negb (Qc_eqb q0 (Qc_of_Z 0))); [by cbn|].
      destruct width, height; try done. destruct (negb _ && negb _); by cbn.
    + destruct width, height; try done. destruct (negb _ && negb _); by cbn.
  - destruct width, height; try done. destruct (negb _ && negb _); by cbn.
Qed.

(** X16. Whatever output of the prober the metadata is made from, making
    it changes nothing in the world, and the metadata keeps that output
    whole; a duration, when there is one, is not negative; the aspect
    ratio and its text are both there or both missing; and when the file
    can be stat'ed the size recorded is the size on disk, whatever size
    the prober reports. *)
Theorem probed_metadata_is_well_formed p raw w meta w' :
  describeProbe p raw w = Finished (Ok meta) w' ->
  w' = w /\
  meta_ffprobe_raw meta = raw /\
  (forall d, meta_duration_seconds meta = Some d -> (Qc_of_Z 0 <= d)%Qc) /\
  (meta_aspect_ratio meta = None <-> meta_aspect_ratio_str meta = None) /\
  (forall f n, files w !! p = Some (Stat f n) -> meta_file_size_bytes meta = Some (sizeNum n)).
Proof.
  intros Hd. apply describeProbe_ok in Hd as (-> & _ & vs & rot & _ & _ & Hmeta).
  cbv zeta in Hmeta. subst meta.
  cbn [meta_ffprobe_raw meta_duration_seconds meta_aspect_ratio meta_aspect_ratio_str
       meta_file_size_bytes].
  split; [reflexivity|]. split; [reflexivity|]. split; [|split].
  - intros d. unfold nullish.
    destruct (parseDurationSeconds (prop "duration" (Some (formatOf raw)))) as [d1|] eqn:E1.
    + intros [= <-]. by apply parseDurationSeconds_nonneg in E1.
    + apply parseDurationSeconds_nonneg.
  - apply computeAspectRatio_both.
  - intros f n ->. reflexivity.
Qed.

Lemma Qc_eqb_false a b : Qc_eqb a b = false <-> a <> b.
Proof. unfold Qc_eqb. apply bool_decide_eq_false. Qed.

Lemma aspect_from_dimensions width height s r :
  match width, height with
  | Some wd, Some ht =>
      if negb (Qc_eqb wd (Qc_of_Z 0)) && negb (Qc_eqb ht (Qc_of_Z 0)) then
        (Some (Number_toString wd +:+ ":" +:+ Number_toString ht), Some (Num_div wd ht))
      else (None, None)
  | _, _ => (None, None)
  end = (Some s, Some r) ->
  exists wd ht, width = Some wd /\ height = Some ht /\
                wd <> Qc_of_Z 0 /\ ht <> Qc_of_Z 0 /\
                s = Number_toString wd +:+ ":" +:+ Number_toString ht /\ r = Num_div wd ht.
Proof.
  destruct width as [wd|], height as [ht|]; try done.
  destruct (Qc_eqb wd (Qc_of_Z 0)) eqn:E1, (Qc_eqb ht (Qc_of_Z 0)) eqn:E2; try done.
  cbn. intros [= <- <-]. exists wd, ht.
  apply Qc_eqb_false in E1, E2. by repeat split.
Qed.

(** X17. The aspect ratio comes from one of two places. A display ratio
    that is a text [a:b] other than "0:1" and "N/A", with both parts
    finite binary64 numbers and [b] not zero, is kept as it is and gives
    the binary64 quotient of [a] by [b], which is [Infinity] when it
    overflows. Whenever a ratio is returned it is either that one, or it
    is the quotient of the width by the height with its text made of the
    two numbers, and this only for a width and a height that are both
    known and not zero: no ratio is made with a zero denominator. A part
    that underflows to zero or overflows is not kept: ["1:1e-400"] and
    ["1e400:1"] give way to the dimensions. *)
Theorem aspect_ratio_sources width height dar :
  (forall d p0 p1 a b,
      dar = Some d -> d <> "" -> d <> "0:1" -> d <> "N/A" ->
      split ":" d = [p0; p1] ->
      StringToNumber p0 = Fin a -> StringToNumber p1 = Fin b -> b <> Qc_of_Z 0 ->
      computeAspectRatio width height dar = (Some d, Some (Num_div a b))) /\
  (forall s r,
      computeAspectRatio width height dar = (Some s, Some r) ->
      (dar = Some s /\ s <> "0:1" /\ s <> "N/A" /\
       exists p0 p1 a b,
         split ":" s = [p0; p1] /\ StringToNumber p0 = Fin a /\
         StringToNumber p1 = Fin b /\ b <> Qc_of_Z 0 /\ r = Num_div a b) \/
      (exists wd ht,
         width = Some wd /\ height = Some ht /\ wd <> Qc_of_Z 0 /\ ht <> Qc_of_Z 0 /\
         s = Number_toString wd +:+ ":" +:+ Number_toString ht /\ r = Num_div wd ht)) /\
  computeAspectRatio width height (Some "1:1e-400") = computeAspectRatio width height None /\
  computeAspectRatio width height (Some "1e400:1") = computeAspectRatio width height None /\
  computeAspectRatio width height (Some "1e308:1e-308") = (Some "1e308:1e-308", Some PosInf).
Proof.
  split; [|split; [|repeat split; reflexivity]].
  - intros d p0 p1 a b -> H1 H2 H3 Hs Ha Hb Hb0. unfold computeAspectRatio.
    rewrite (proj2 (String.eqb_neq _ _) H1), (proj2 (String.eqb_neq _ _) H2),
      (proj2 (String.eqb_neq _ _) H3). cbn [negb andb].
    rewrite Hs, Ha, Hb. by rewrite (proj2 (Qc_eqb_false _ _) Hb0).
  - intros s r. unfold computeAspectRatio.
    destruct dar as [d|]; [|intros E; right; by apply aspect_from_dimensions].
    destruct (String.eqb_spec d "") as [|H1]; cbn [negb andb];
      [intros E; right; by apply aspect_from_dimensions|].
    destruct (String.eqb_spec d "0:1") as [|H2]; cbn [negb andb];
      [intros E; right; by apply aspect_from_dimensions|].
    destruct (String.eqb_spec d "N/A") as [|H3]; cbn [negb andb];
      [intros E; right; by apply aspect_from_dimensions|].
    destruct (split ":" d) as [|p0 [|p1 [|? ?]]] eqn:Hs;
      try (intros E; right; by apply aspect_from_dimensions).
    destruct (StringToNumber p0) as [a| | |] eqn:Ha, (StringToNumber p1) as [b| | |] eqn:Hb;
      try (intros E; right; by apply aspect_from_dimensions).
    destruct (Qc_eqb b (Qc_of_Z 0)) eqn:Hb0; cbn [negb];
      [intros E; right; by apply aspect_from_dimensions|].
    intros [= <- <-]. left. split; [done|]. split; [done|]. split; [done|].
    exists p0, p1, a, b. apply Qc_eqb_false in Hb0. by repeat split.
Qed.




Lemma describeProbe_no_stream p raw w :
  raw <> JNull -> primaryStream raw = None ->
  describeProbe p raw w = Finished (Thrown (Error "ffprobe returned no video stream.")) w.
Proof.
  unfold primaryStream, streamsOf, describeProbe. intros Hraw Hnone.
  destruct raw; try done; by rewrite Hnone.
Qed.

(** X19. The metadata describes one stream of the prober's output: the
    first stream of type video that is marked as the default one or,
    when no video stream is so marked, the first stream of type video.
    Its frame rate, dimensions and codec are those of that stream, even
    when another video stream comes before it. When the output has no
    stream of type video (or no list of streams at all) the function
    throws "ffprobe returned no video stream.". *)
Theorem primary_stream_is_described p raw w :
  raw <> JNull ->
  (List.find isVideo (streamsOf raw) = None ->
   describeProbe p raw w = Finished (Thrown (Error "ffprobe returned no video stream.")) w) /\
  ((forall l, prop "streams" (Some raw) <> Some (JArr l)) ->
   describeProbe p raw w = Finished (Thrown (Error "ffprobe returned no video stream.")) w) /\
  (forall vs meta,
      List.find (fun s => isVideo s && isDefault s) (streamsOf raw) = Some vs \/
      (List.find (fun s => isVideo s && isDefault s) (streamsOf raw) = None /\
       List.find isVideo (streamsOf raw) = Some vs) ->
      describeProbe p raw w = Finished (Ok meta) w ->
      meta_fps meta = streamFps vs /\
      meta_width meta = finiteOrNull (Number_ (prop "width" (Some vs))) /\
      meta_height meta = finiteOrNull (Number_ (prop "height" (Some vs))) /\
      meta_codec meta = typeofString (prop "codec_name" (Some vs)) /\
      meta_codec_long_name meta = typeofString (prop "codec_long_name" (Some vs))).
Proof.
  intros Hraw.
  assert (forall l, List.find isVideo l = None ->
                    List.find (fun s => isVideo s && isDefault s) l = None) as Hnone.
  { induction l as [|s l IH]; [done|]. cbn. destruct (isVideo s); [done|]. exact IH. }
  split; [|split].
  - intros Hv. apply describeProbe_no_stream; [done|].
    unfold primaryStream. by rewrite Hv, (Hnone _ Hv).
  - intros Hl. apply describeProbe_no_stream; [done|].
    unfold primaryStream, streamsOf.
    destruct (prop "streams" (Some raw)) as [[]|]; try done. by destruct (Hl items).
  - intros vs meta Hvs Hd.
    apply describeProbe_ok in Hd as (_ & _ & vs' & rot & Hp & _ & Hmeta).
    assert (vs' = vs) as ->.
    { unfold primaryStream in Hp. destruct Hvs as [Hvs|[Hd Hvs]].
      - rewrite Hvs in Hp. cbn in Hp. congruence.
      - rewrite Hd, Hvs in Hp. cbn in Hp. congruence. }
    cbv zeta in Hmeta. subst meta. by repeat split.
Qed.

(** X20. Extracting metadata spawns the prober once, on the file, with a
    time limit of 60 seconds, and nothing else; when the prober has
    answered it ends without spawning again and without changing the
    world it is resumed in. A non-zero exit code, that of a timeout
    included, makes it throw a message with the exit code and the
    trimmed stderr, or "No stderr output." when stderr is blank, whatever
    stdout holds; an exit code of 0 with output that is not JSON makes it
    throw as well. *)
Theorem probe_reads_only p w :
  exists k,
    extractVideoMetadata p w =
      Suspended {| cmd := "ffprobe";
                   args := ["-v"; "error"; "-print_format"; "json"; "-show_format";
                            "-show_streams"; p];
                   timeoutMs := Some 60000 |} w k /\
    forall res w',
      (exists r, k res w' = Finished r w') /\
      (exitCode res <> 0 ->
       k res w' =
       Finished (Thrown (Error ("ffprobe failed (exit=" +:+ pretty (exitCode res) +:+ ")."
                                +:+ newline
                                +:+ (if String.eqb (trim (stderr res)) ""
                                     then "No stderr output."
                                     else "stderr:" +:+ newline +:+ trim (stderr res))))) w') /\
      (exitCode res = 0 -> JSON_parse (stdout res) = None ->
       exists msg, k res w' = Finished (Thrown (Error msg)) w').
Proof.
  destruct (bind_extract p (fun meta => mret meta) w) as (k & Hrun & Hk).
  assert (extractVideoMetadata p w = Suspended (ffprobeRequest p) w
            (fun res w' => bindStep (bindStep (Finished (Ok res) w') checkProbe)
                                    (describeProbe p))) as Hs
    by apply extractVideoMetadata_suspends.
  rewrite Hs. eexists. split; [reflexivity|].
  intros res w'. cbn beta. cbn [bindStep].
  change (bindStep (checkProbe res w') (describeProbe p))
    with ((checkProbe res ≫= describeProbe p) w').
  rewrite extract_resumes. split; [by eexists|]. split.
  - intros Hexit. do 2 f_equal. unfold metadataOf. rewrite bind_unfold. unfold checkProbe.
    rewrite (proj2 (Z.eqb_neq _ _) Hexit). cbn [negb].
    by destruct (String.eqb (trim (stderr res)) "").
  - intros Hexit Hjson. unfold metadataOf. rewrite bind_unfold. unfold checkProbe.
    rewrite Hexit, Hjson. cbn. by eexists.
Qed.

(** ** The recovery sweep, once more *)

Lemma recoverStaleJobs_frame w :
  exists w',
    recoverStaleJobs w = Finished (Ok tt) w' /\
    videos w' = videos w /\ clips w' = clips w /\ files w' = files w /\
    dirs w' = dirs w /\ logs w' = logs w /\ clock w' = clock w /\
    activeJobs w' = activeJobs w /\
    forall x,
      (is_Some (videos w !! x) -> clip_jobs w' !! x = swept w <$> clip_jobs w !! x) /\
      (videos w !! x = None -> clip_jobs w' !! x = clip_jobs w !! x).
Proof.
  destruct (listVideos_keys w) as [Hnd Hin]. cbv zeta in *.
  destruct (recoverLoop_spec (clock w) (clock w) _ w eq_refl Hnd) as (w' & Hrun & Hrest).
  { intros x Hx. by apply Hin. }
  exists w'. split; [exact Hrun|].
  destruct Hrest as (?&?&?&?&?&?&?&Hj). repeat split; auto.
  - intros Hx. apply Hin in Hx. by apply Hj.
  - intros Hx. apply Hj. rewrite Hin, Hx. by intros [? ?].
Qed.

Lemma swept_again w w' job :
  clock w' = clock w -> swept w' (swept w job) = swept w job.
Proof.
  intros Hc. unfold swept.
  destruct (bool_decide (state job = Generating)
            && isStale (clock w) (Date_parse (updated_at job))) eqn:E.
  - unfold jobRow. cbn [state]. by rewrite bool_decide_eq_false_2.
  - by rewrite Hc, E.
Qed.

(** X21. The sweep touches job rows only: videos, clips, files, logs and
    the in-flight set are what they were. A job row that does not say
    Generating is left as it is whatever its age, and so is one whose
    timestamp does not parse to a finite instant, and one whose age is
    exactly 600000 ms. Sweeping again at the same instant changes
    nothing. *)
Theorem recovery_sweep_is_idempotent w :
  exists w',
    recoverStaleJobs w = Finished (Ok tt) w' /\
    recoverStaleJobs w' = Finished (Ok tt) w' /\
    videos w' = videos w /\ clips w' = clips w /\ files w' = files w /\
    logs w' = logs w /\ activeJobs w' = activeJobs w /\
    (forall x job,
        clip_jobs w !! x = Some job ->
        state job <> Generating \/
        Number_isFinite (Date_parse (updated_at job)) = false \/
        Date_parse (updated_at job) = Fin (Qc_of_Z (clock w - 600000)) ->
        clip_jobs w' !! x = Some job).
Proof.
  destruct (recoverStaleJobs_frame w) as (w' & Hrun & Hv & Hc & Hf & Hd & Hl & Hck & Ha & Hj).
  exists w'. split; [exact Hrun|]. split; [|split; [done|split; [done|split; [done|
    split; [done|split; [done|]]]]]].
  - destruct (recoverStaleJobs_frame w') as (w'' & Hrun2 & Hv2 & Hc2 & Hf2 & Hd2 & Hl2 & Hck2
                                              & Ha2 & Hj2).
    rewrite Hrun2. f_equal. apply World_eq; try congruence.
    apply map_eq. intros x. destruct (Hj x) as [Hin Hout], (Hj2 x) as [Hin2 Hout2].
    destruct (videos w !! x) as [v|] eqn:Hx.
    + rewrite Hin2 by (rewrite Hv, Hx; by eexists). rewrite Hin by by eexists.
      destruct (clip_jobs w !! x) as [job|]; [|done]. cbn. f_equal.
      by apply swept_again.
    + rewrite Hout2 by by rewrite Hv. done.
  - intros x job Hjob Hkeep. destruct (Hj x) as [Hin Hout].
    destruct (videos w !! x) as [v|] eqn:Hx.
    + rewrite Hin by by eexists. rewrite Hjob. cbn. f_equal.
      unfold swept. destruct Hkeep as [Hs|[Hs|Hs]].
      * by rewrite bool_decide_eq_false_2.
      * destruct (Date_parse (updated_at job)); try done; by rewrite andb_false_r.
      * rewrite Hs. unfold isStale, STALE_MS.
        assert (Qc_ltb (Qc_of_Z (10 * 60 * 1000))
                  (Qc_of_Z (clock w) - Qc_of_Z (clock w - 600000)) = false) as ->;
          [|by rewrite andb_false_r].
        apply Qc_ltb_false. unfold Qcle. rewrite this_minus, !this_of_Z.
        change (10 * 60 * 1000) with 600000.
        replace (clock w - 600000) with (clock w + - 600000) by lia.
        rewrite inject_Z_plus.
        change (inject_Z (-600000)) with (- inject_Z 600000)%Q. lra.
    + rewrite Hout by done. done.
Qed.

(** ** The command runner, once more *)

Lemma kills_before_close t pre :
  forallb (fun e => negb (isClose e)) pre = true ->
  kills (run t pre) = if armed t && existsb isTimeout pre then [SIGKILL] else [].
Proof.
  induction pre as [|ev pre IH] using rev_ind; intros Hc.
  - cbn. by rewrite andb_false_r.
  - rewrite forallb_app in Hc. apply andb_prop in Hc as [Hpre Hev].
    cbn in Hev. rewrite andb_true_r in Hev.
    destruct (run_before_close t pre Hpre) as (_ & _ & _ & Ht & _ & _).
    specialize (IH Hpre). rewrite run_snoc, existsb_app. cbn [existsb].
    rewrite orb_false_r.
    destruct ev as [d|d| |c|m]; try discriminate; cbn [on isTimeout kills].
    + by rewrite orb_false_r.
    + by rewrite orb_false_r.
    + rewrite Ht, IH. destruct (armed t); [|done]. cbn [andb].
      by destruct (existsb isTimeout pre).
    + by rewrite orb_false_r.
Qed.

Lemma kills_after_clear st evs :
  timeout st = false ->
  kills (foldl on st evs) = kills st /\ timeout (foldl on st evs) = false.
Proof.
  revert st. induction evs as [|ev evs IH]; intros st Ht; [done|].
  cbn [foldl]. destruct (IH (on st ev)) as [-> ->].
  - destruct ev; cbn; try done. by rewrite Ht.
  - split; [|done]. destruct ev; cbn; try done. by rewrite Ht.
Qed.

(** X22. The child is sent SIGKILL once when the timer fires before the
    child closes, and is never sent a signal otherwise: not when no time
    limit was given or the limit is 0, and not by a timer that would fire
    after the close, which clears it. Without the timer having fired the
    exit code is the one of the child, or 1 when the child has none. *)
Theorem kill_only_on_timeout timeoutMs pre code post :
  forallb (fun e => negb (isClose e)) pre = true ->
  let st := run timeoutMs (pre ++ Close code :: post) in
  kills st = (if armed timeoutMs && existsb isTimeout pre then [SIGKILL] else []) /\
  timeout st = false /\
  (armed timeoutMs && existsb isTimeout pre = false ->
   exitCode <$> resolved st = Some (default 1 code)).
Proof.
  intros Hc. cbv zeta.
  pose proof (kills_before_close timeoutMs pre Hc) as Hk.
  destruct (run_before_close timeoutMs pre Hc) as (_ & _ & Hkt & _ & Hr & _).
  unfold run in *. rewrite foldl_app. cbn [foldl].
  set (st := foldl on (spawn timeoutMs) pre) in *.
  destruct (kills_after_clear (on st (Close code)) post eq_refl) as [Hk2 Ht2].
  rewrite Hk2, Ht2. split; [exact Hk|]. split; [done|].
  intros Hno. rewrite (resolved_stays (on st (Close code)) post
                         {| exitCode := if killedByTimeout st then 124 else default 1 code;
                            stdout := out st; stderr := err st |}).
  - cbn. by rewrite Hkt, Hno.
  - cbn. by rewrite Hr.
Qed.

(** ** The metadata pipeline *)

Context `{Diagnostics}.

(** X23. Extracting and storing the metadata of a video that has no row
    throws "Video not found" at once. For a video that has a row, its
    error message is cleared and its original file is probed. For a row
    that is still there when the prober has answered: when the answer
    yields metadata, the metadata and the rotation are stored and the
    call ends normally; when extraction throws, the call ends normally
    too, having appended the message and the stack to the log of the
    video and stored an error message that names the log and carries at
    most the first 500 characters of the message. When the row has been
    deleted meanwhile the call throws "Video not found". *)
Theorem metadata_extraction_is_reported video_id w :
  (videos w !! video_id = None ->
   extractAndPersistMetadata video_id w =
   Finished (Thrown (Error ("Video not found: " +:+ video_id))) w) /\
  (forall v,
      videos w !! video_id = Some v ->
      exists w1 k,
        extractAndPersistMetadata video_id w =
          Suspended (ffprobeRequest (original_path v)) w1 k /\
        videos w1 = <[video_id := withError v None]> (videos w) /\
        clips w1 = clips w /\ clip_jobs w1 = clip_jobs w /\ files w1 = files w /\
        logs w1 = logs w /\
        forall res w2,
          (forall row meta,
              videos w2 !! video_id = Some row ->
              metadataOf (original_path v) res w2 = Ok meta ->
              exists w',
                k res w2 = Finished (Ok tt) w' /\
                videos w' !! video_id = Some (withMetadata row meta) /\
                logs w' = logs w2) /\
          (forall row e,
              videos w2 !! video_id = Some row ->
              metadataOf (original_path v) res w2 = Thrown e ->
              let logPath := logPathOf (video_id +:+ "-ffprobe.log") in
              exists w',
                k res w2 = Finished (Ok tt) w' /\
                videos w' !! video_id =
                  Some (withError row
                          (Some ("Metadata extraction failed." +:+ newline
                                 +:+ "Full log: " +:+ logPath +:+ newline
                                 +:+ truncateForDb (message e) 500))) /\
                logs w' !! logPath =
                  Some (default "" (logs w2 !! logPath)
                        +:+ "---- " +:+ Date_toISOString (clock w2)
                        +:+ " metadata extraction ----" +:+ newline
                        +:+ message e +:+ newline +:+ Error_stack e +:+ newline +:+ newline)) /\
          (videos w2 !! video_id = None ->
           exists w',
             k res w2 = Finished (Thrown (Error ("Video not found: " +:+ video_id))) w')).
Proof.
  split.
  - intros Hv. unfold extractAndPersistMetadata.
    by rewrite (bind_thrown _ _ _ _ _ (setVideoError_missing video_id None w Hv)).
  - intros v Hv. unfold extractAndPersistMetadata.
    rewrite (bind_ok _ _ _ _ _ (setVideoError_spec video_id None w v Hv)).
    set (w1 := setVideos _ w).
    assert (videos w1 !! video_id = Some (withError v None)) as Hv1
      by (cbn; by rewrite lookup_alter_eq, Hv).
    rewrite (bind_ok _ _ _ _ _ (getVideo_some _ _ _ Hv1)).
    cbn [original_path withError].
    unfold tryCatch.
    destruct (bind_extract (original_path v)
                (fun meta =>
                   saveVideoMetadata video_id (JSON_stringify (metaJson meta))
                                     (meta_rotation_raw meta);; mret tt) w1)
      as (k0 & Hrun & Hk0).
    rewrite Hrun. cbn [catchStep]. eexists w1, _. split; [reflexivity|].
    split.
    { cbn. apply map_eq. intros x. destruct (decide (x = video_id)) as [->|Hx].
      - by rewrite lookup_alter_eq, lookup_insert_eq, Hv.
      - by rewrite lookup_alter_ne, lookup_insert_ne. }
    do 4 (split; [reflexivity|]).
    intros res w2. cbn beta. rewrite Hk0. split; [|split].
    + intros row meta Hrow ->.
      rewrite (bind_ok _ _ _ _ _ (saveVideoMetadata_ok _ _ _ _ _ Hrow)).
      cbn [mret Async_ret catchStep]. eexists. split; [reflexivity|].
      cbn. by rewrite lookup_alter_eq, Hrow.
    + intros row e Hrow ->. cbv zeta. cbn [catchStep].
      rewrite bind_unfold. unfold nowIso at 1, gets at 1. cbn [bindStep].
      rewrite (bind_ok _ _ _ _ _ (appendLog_spec _ _ _)).
      set (w3 := setLogs _ _).
      rewrite (bind_ok _ _ _ _ _ (setVideoError_spec video_id _ w3 row Hrow)).
      cbn [mret Async_ret]. eexists. split; [reflexivity|].
      cbn. by rewrite lookup_alter_eq, Hrow, lookup_insert_eq.
    + intros Hgone.
      assert (forall e w4, videos w4 = videos w2 ->
                exists w',
                  (let errorMsg := message e in
                   stamp ← nowIso;
                   let full := "---- " +:+ stamp +:+ " metadata extraction ----" +:+ newline
                               +:+ errorMsg +:+ newline +:+ Error_stack e +:+ newline
                               +:+ newline in
                   logPath ← appendLog (video_id +:+ "-ffprobe.log") full;
                   setVideoError video_id
                     (Some ("Metadata extraction failed." +:+ newline +:+ "Full log: "
                            +:+ logPath +:+ newline +:+ truncateForDb errorMsg 500));;
                   mret tt) w4 =
                  Finished (Thrown (Error ("Video not found: " +:+ video_id))) w') as Hcatch.
      { intros e w4 Hsame. cbv zeta.
        rewrite bind_unfold. unfold nowIso at 1, gets at 1. cbn [bindStep].
        rewrite (bind_ok _ _ _ _ _ (appendLog_spec _ _ _)).
        set (w5 := setLogs _ _).
        rewrite (bind_thrown _ _ _ _ _
                   (setVideoError_missing video_id _ w5 (ltac:(cbn; by rewrite Hsame)))).
        by eexists. }
      destruct (metadataOf (original_path v) res w2) as [meta|e].
      * rewrite (bind_thrown _ _ _ _ _ (saveVideoMetadata_missing video_id _ _ w2 Hgone)).
        cbn [catchStep]. by apply Hcatch.
      * cbn [catchStep]. by apply Hcatch.
Qed.

(** ** The handlers *)




Lemma deleteLoop_spec video_ids :
  forall w,
    exists w',
      deleteLoop video_ids w = Finished (Ok tt) w' /\
      (forall x, videos w' !! x = if bool_decide (x ∈ video_ids) then None else videos w !! x) /\
      (forall x, clip_jobs w' !! x =
                 if bool_decide (x ∈ video_ids) then None else clip_jobs w !! x) /\
      (forall x i, clips w' !! (x, i) =
                   if bool_decide (x ∈ video_ids) then None else clips w !! (x, i)) /\
      (forall p, files w' !! p =
                 if existsb (fun id => inside (videoDirOf id) p) video_ids then None
                 else files w !! p) /\
      logs w' = logs w /\ clock w' = clock w /\ activeJobs w' = activeJobs w.
Proof.
  induction video_ids as [|id rest IH]; intros w.
  - exists w. split; [reflexivity|]. repeat split; intros; by rewrite ?bool_decide_eq_false_2
      by (intros Hin; by apply elem_of_nil in Hin).
  - cbn [deleteLoop].
    unfold getVideoDir, ensureDir, rmSync, deleteVideo, modify.
    rewrite !bind_unfold. cbn [bindStep mret Async_ret]. rewrite !bind_unfold.
    cbn [bindStep]. rewrite !bind_unfold. cbn [bindStep].
    set (w1 := setJobs _ _).
    destruct (IH w1) as (w' & Hrun & Hv & Hj & Hc & Hf & Hl & Hck & Ha).
    exists w'. split; [exact Hrun|].
    assert (forall x : string, bool_decide (x ∈ id :: rest) =
                               bool_decide (x = id) || bool_decide (x ∈ rest)) as Hmem.
    { intros x. apply eq_true_iff_eq.
      rewrite orb_true_iff, !bool_decide_eq_true, elem_of_cons. done. }
    split; [|split; [|split; [|split]]].
    + intros x. rewrite Hv, Hmem. destruct (bool_decide (x ∈ rest)); [by rewrite orb_true_r|].
      rewrite orb_false_r. cbn. case_bool_decide as Hx.
      * subst. by rewrite lookup_delete_eq.
      * by rewrite lookup_delete_ne.
    + intros x. rewrite Hj, Hmem. destruct (bool_decide (x ∈ rest)); [by rewrite orb_true_r|].
      rewrite orb_false_r. cbn. case_bool_decide as Hx.
      * subst. by rewrite lookup_delete_eq.
      * by rewrite lookup_delete_ne.
    + intros x i. rewrite Hc, Hmem.
      destruct (bool_decide (x ∈ rest)); [by rewrite orb_true_r|].
      rewrite orb_false_r. cbn. case_bool_decide as Hx.
      * apply map_lookup_filter_None. right. intros r _. cbn. by intros ?.
      * destruct (clips w !! (x, i)) as [r|] eqn:E.
        -- apply map_lookup_filter_Some. by split.
        -- apply map_lookup_filter_None. by left.
    + intros p. rewrite Hf. cbn [existsb].
      destruct (existsb (fun id0 => inside (videoDirOf id0) p) rest); [by rewrite orb_true_r|].
      rewrite orb_false_r. cbn.
      destruct (inside (videoDirOf id) p) eqn:Hin.
      * apply map_lookup_filter_None. right. intros r _. cbn. by rewrite Hin.
      * destruct (files w !! p) as [r|] eqn:E.
        -- apply map_lookup_filter_Some. by split.
        -- apply map_lookup_filter_None. by left.
    + rewrite Hl, Hck, Ha. by repeat split.
Qed.

(** X25. In a store whose foreign keys hold, the handler that deletes a
    list of videos (ids that are plain file names) answers with the
    length of the list, whether or not the ids had rows, and does not
    throw. Afterwards no id of the list
    has a video row, a job row or a clip row, and nothing is left of the
    files in its directory; the rows of every other video and every file
    outside those directories are what they were; the foreign keys still
    hold; the in-flight set is not touched, so a run that waits for a
    child of a deleted video is still counted as in flight. *)
Theorem videos_delete_removes_everything video_ids w :
  Forall (fun id => plainName id = true) video_ids ->
  referential w ->
  exists w',
    videos_delete video_ids w = Finished (Ok (length video_ids)) w' /\
    referential w' /\
    (forall id, id ∈ video_ids ->
       videos w' !! id = None /\ clip_jobs w' !! id = None /\
       (forall i, clips w' !! (id, i) = None) /\
       (forall p, inside (videoDirOf id) p = true -> files w' !! p = None)) /\
    (forall id, id ∉ video_ids ->
       videos w' !! id = videos w !! id /\ clip_jobs w' !! id = clip_jobs w !! id /\
       (forall i, clips w' !! (id, i) = clips w !! (id, i))) /\
    (forall p, (forall id, id ∈ video_ids -> inside (videoDirOf id) p = false) ->
               files w' !! p = files w !! p) /\
    activeJobs w' = activeJobs w.
Proof.
  intros _ [Hfk1 Hfk2].
  destruct (deleteLoop_spec video_ids w) as (w' & Hrun & Hv & Hj & Hc & Hf & _ & _ & Ha).
  exists w'. split; [|split; [|split; [|split; [|split]]]].
  - unfold videos_delete. by rewrite (bind_ok _ _ _ _ _ Hrun).
  - split.
    + intros v i [r Hr]. rewrite Hc in Hr. rewrite Hv.
      destruct (bool_decide (v ∈ video_ids)); [done|]. apply (Hfk1 v i). by rewrite Hr.
    + intros v [r Hr]. rewrite Hj in Hr. rewrite Hv.
      destruct (bool_decide (v ∈ video_ids)); [done|]. apply Hfk2. by rewrite Hr.
  - intros id Hin. rewrite Hv, Hj, bool_decide_eq_true_2 by done.
    split; [done|]. split; [done|]. split.
    + intros i. by rewrite Hc, bool_decide_eq_true_2.
    + intros p Hp. rewrite Hf.
      assert (existsb (fun id0 => inside (videoDirOf id0) p) video_ids = true) as ->; [|done].
      apply existsb_exists. exists id. split; [by apply list_elem_of_In|done].
  - intros id Hout. rewrite Hv, Hj, bool_decide_eq_false_2 by done.
    split; [done|]. split; [done|]. intros i. by rewrite Hc, bool_decide_eq_false_2.
  - intros p Hp. rewrite Hf.
    assert (existsb (fun id0 => inside (videoDirOf id0) p) video_ids = false) as ->; [|done].
    apply not_true_is_false. intros Hex. apply existsb_exists in Hex as (id & Hin & Hid).
    rewrite Hp in Hid; [done|]. by apply list_elem_of_In.
  - exact Ha.
Qed.

(** ** A run from its first line to its last *)

Lemma exec_finally {A} env (s : Step A) c :
  forall n,
    exec env n (finallyStep s c) =
    let '(r, w, tr) := exec env n s in (r, c w, tr).
Proof.
  induction s as [r w|req w k IH]; intros n; cbn [finallyStep exec]; [done|].
  destruct (env n req w) as [res w']. rewrite IH.
  by destruct (exec env (S n) (k res w')) as [[r wf] tr].
Qed.

Lemma generateClipsBody_enters_loop video_id w v D :
  videos w !! video_id = Some v ->
  status v = Approved ->
  cachedDuration v = Some D ->
  drifted w video_id = false ->
  exists w3,
    generateClipsBody video_id w =
      runSegments video_id v (clipsOf video_id (clips w)) D
                  (segmentTotal D) (segmentTotal D) 0 w3 /\
    videos w3 = <[video_id := withError v None]> (videos w) /\
    clip_jobs w3 = <[video_id := jobRow w Generating None None]> (clip_jobs w) /\
    files w3 = files w /\ clips w3 = clips w /\ logs w3 = logs w /\ clock w3 = clock w /\
    activeJobs w3 = activeJobs w.
Proof.
  intros Hv Hs Hc Hdrift. unfold generateClipsBody.
  rewrite (bind_ok _ _ _ _ _ (getVideo_some _ _ _ Hv)).
  rewrite bool_decide_eq_true_2 by done. cbn [negb].
  rewrite (bind_ok _ _ _ _ _ (setVideoError_spec video_id None w v Hv)).
  set (w1 := setVideos _ w).
  assert (videos w1 = <[video_id := withError v None]> (videos w)) as Hv1.
  { cbn. apply map_eq. intros x. destruct (decide (x = video_id)) as [->|Hx].
    - by rewrite lookup_alter_eq, lookup_insert_eq, Hv.
    - by rewrite lookup_alter_ne, lookup_insert_ne. }
  assert (videos w1 !! video_id = Some (withError v None)) as Hrow1
    by (by rewrite Hv1, lookup_insert_eq).
  rewrite (bind_ok _ _ _ _ _ (setClipJobState_ok video_id Generating None None w1
                                (ltac:(by rewrite Hrow1)))).
  set (w2 := setJobs _ w1).
  destruct (getClipsDir_spec video_id w2) as (w3 & Hdir & Hsame3 & Hdirs3).
  rewrite (bind_ok _ _ _ _ _ Hdir). cbn beta.
  pose proof Hsame3 as (Hv3 & Hcl3 & Hj3 & Hf3 & Hl3 & Hck3 & Ha3).
  rewrite (bind_ok _ _ _ _ _ (listClips_spec video_id w3)). cbn beta.
  rewrite (bind_ok _ _ _ _ _ (readdirSync_ok (clipsDirOf video_id) w3
                                (ltac:(rewrite Hdirs3; set_solver)))).
  assert (clips w3 = clips w) as Hclips3 by (by rewrite Hcl3).
  assert (files w3 = files w) as Hfiles3 by (by rewrite Hf3).
  replace (existsb looksLikeClip (listing w3 (clipsDirOf video_id))
           && isNil (clipsOf video_id (clips w3))) with false.
  2:{ unfold drifted, listing in *. by rewrite Hfiles3, Hclips3. }
  rewrite bind_unfold. cbn [mret Async_ret bindStep].
  rewrite (bind_ok _ _ _ _ _ (getDurationSeconds_hit video_id w3 (withError v None) D
                                (ltac:(by rewrite Hv3))
                                (ltac:(by rewrite (cachedDuration_ext v (withError v None)))))).
  exists w3. rewrite Hclips3. split; [reflexivity|].
  rewrite Hv3, Hj3, Hl3, Hck3, Ha3. by repeat split.
Qed.

Lemma insert_unlinked p x (fs : gmap string Node) : <[p := x]> (unlinked p fs) = <[p := x]> fs.
Proof.
  unfold unlinked. destruct (fs !! p) as [[|[|] n]|]; try done. by rewrite insert_delete_eq.
Qed.

Lemma exec_transcode_turn size probe m video_id v rows D total n i w latest :
  videos w !! video_id = Some latest ->
  status latest = Approved ->
  (hundredth < segmentLen D i)%Qc ->
  complete w (clipPathOf video_id i) = false ->
  (forall p w0, exists meta, metadataOf p (probe (ffprobeRequest p)) w0 = Ok meta) ->
  exists w4 meta,
    exec (ideal size probe) m (segmentLoop video_id v rows D total (S n) i w) =
      (let '(r, wf, tr) := exec (ideal size probe) (S (S m))
                                (segmentLoop video_id v rows D total n (S i) w4) in
       (r, wf, (turnRequests video_id v D i ++ tr)%list)) /\
    videos w4 = videos w /\
    files w4 = <[clipPathOf video_id i := Stat true size]> (files w) /\
    clips w4 =
      <[(video_id, i) :=
          upsertedRow (clipInputOf video_id i (clipPathOf video_id i) meta
                                   (Some (sizeNum size)))
                      (clips w !! (video_id, i))]> (clips w) /\
    clip_jobs w4 = <[video_id := jobRow w Generating None None]> (clip_jobs w) /\
    logs w4 = logs w /\ clock w4 = clock w /\ activeJobs w4 = activeJobs w.
Proof.
  intros Hv Hs Hlen Hc Hprobe.
  destruct (segmentLoop_awaits_ffmpeg video_id v rows D total n i w latest Hv Hs Hlen Hc)
    as (w1 & k & Hloop & Hf1 & Hv1 & Hc1 & Hj1 & Hl1 & Hck1 & Ha1 & Hk).
  rewrite Hloop. cbn [exec]. unfold ideal at 1.
  change (String.eqb (cmd (ffmpegRequest video_id v D i)) "ffmpeg") with true. cbn match.
  change (List.last (args (ffmpegRequest video_id v D i)) "") with (clipPathOf video_id i).
  set (w2 := setFiles (insert (clipPathOf video_id i) (Stat true size)) w1).
  rewrite Hk. unfold afterFfmpeg. cbn [exitCode Z.eqb negb].
  set (p := clipPathOf video_id i) in *.
  destruct (bind_extract p
              (fun clipMeta =>
                 fileSizeBytes ← liveSize p clipMeta;
                 upsertClip (clipInputOf video_id i p clipMeta fileSizeBytes);;
                 setClipJobState video_id Generating None None;;
                 segmentLoop video_id v rows D total n (S i)) w2) as (k2 & Hrun & Hk2).
  rewrite Hrun. cbn [exec]. unfold ideal at 1.
  change (String.eqb (cmd (ffprobeRequest p)) "ffmpeg") with false. cbn match.
  rewrite Hk2. destruct (Hprobe p w2) as [meta Hmeta]. rewrite Hmeta.
  rewrite (bind_ok _ _ _ _ _ (liveSize_spec _ _ _)).
  assert (sizeOf w2 p meta = Some (sizeNum size)) as ->
    by (unfold sizeOf; cbn; by rewrite lookup_insert_eq).
  assert (is_Some (videos w2 !! video_id)) as Hvideo
    by (cbn; rewrite Hv1, Hv; by eexists).
  rewrite (bind_ok _ _ _ _ _
             (upsertClip_spec (clipInputOf video_id i p meta (Some (sizeNum size))) w2 Hvideo)).
  cbn [in_video_id in_clip_index clipInputOf].
  set (w3 := setClips _ w2).
  rewrite (bind_ok _ _ _ _ _ (setClipJobState_ok video_id Generating None None w3 Hvideo)).
  set (w4 := setJobs _ w3).
  exists w4, meta. split.
  { by destruct (exec (ideal size probe) (S (S m))
                   (segmentLoop video_id v rows D total n (S i) w4)) as [[r wf] tr]. }
  cbn. rewrite Hv1, Hf1, Hc1, Hj1, Hl1, Ha1. unfold jobRow. cbn. rewrite Hck1.
  split; [done|]. split; [by rewrite insert_unlinked|]. by repeat split.
Qed.

Lemma reached_bounds (D : Qc) :
  (Qc_of_Z 0 < D)%Qc ->
  (segmentTotal D - 1 <= reached D <= segmentTotal D)%nat /\
  (forall i, (i < reached D)%nat -> (hundredth < segmentLen D i)%Qc) /\
  (forall i, (i < segmentTotal D)%nat -> (segmentLen D i <= hundredth)%Qc ->
             i = reached D).
Proof.
  intros Hpos. destruct (segmentTotal_bounds D Hpos) as (HN & _ & _).
  assert (forall i, (i < segmentTotal D - 1)%nat -> (hundredth < segmentLen D i)%Qc)
    as Hfull.
  { intros i Hi. rewrite (segmentLen_full D i Hpos Hi). by apply Qc_ltb_true; vm_compute. }
  unfold reached.
  destruct (Qc_leb (segmentLen D (segmentTotal D - 1)) hundredth) eqn:E.
  - apply Qc_leb_true in E. split; [lia|]. split; [exact Hfull|].
    intros i Hi Hshort. destruct (decide (i < segmentTotal D - 1)%nat) as [Hlt|]; [|lia].
    apply Hfull in Hlt. by apply Qclt_not_le in Hlt.
  - apply Qc_leb_false in E. split; [lia|]. split.
    + intros i Hi. destruct (decide (i < segmentTotal D - 1)%nat) as [Hlt|Hge];
        [by apply Hfull|].
      by replace i with (segmentTotal D - 1)%nat by lia.
    + intros i Hi Hshort. destruct (decide (i < segmentTotal D - 1)%nat) as [Hlt|Hge].
      * apply Hfull in Hlt. by apply Qclt_not_le in Hlt.
      * replace i with (segmentTotal D - 1)%nat in Hshort by lia.
        by apply Qclt_not_le in E.
Qed.

Lemma clipPathOf_inj video_id i j : clipPathOf video_id i = clipPathOf video_id j -> i = j.
Proof.
  unfold clipPathOf, path_join. intros E.
  apply (inj (String.append (clipsDirOf video_id))) in E.
  apply (inj (String.append "/")) in E. by apply clipName_inj.
Qed.

Lemma exec_segmentLoop_ideal size probe video_id v rows D latest :
  (Qc_of_Z 0 < D)%Qc ->
  status latest = Approved ->
  (forall p w0, exists meta, metadataOf p (probe (ffprobeRequest p)) w0 = Ok meta) ->
  forall n i m w,
    (i + n = segmentTotal D)%nat ->
    videos w !! video_id = Some latest ->
    (forall j, (i <= j)%nat -> complete w (clipPathOf video_id j) = false) ->
    exists w',
      exec (ideal size probe) m (segmentLoop video_id v rows D (segmentTotal D) n i w) =
        (Ok Completed, w',
         flat_map (turnRequests video_id v D) (seq i (reached D - i))) /\
      videos w' = videos w /\ logs w' = logs w /\ clock w' = clock w /\
      activeJobs w' = activeJobs w /\
      (forall p, (forall j, (i <= j < reached D)%nat -> p <> clipPathOf video_id j) ->
                 files w' !! p = files w !! p) /\
      (forall j, (i <= j < reached D)%nat ->
                 files w' !! clipPathOf video_id j = Some (Stat true size)) /\
      (forall key, (forall j, (i <= j < reached D)%nat -> key <> (video_id, j)) ->
                   clips w' !! key = clips w !! key) /\
      (forall j, (i <= j < reached D)%nat ->
                 exists row,
                   clips w' !! (video_id, j) = Some row /\
                   path row = clipPathOf video_id j /\
                   file_size_bytes row = Some (sizeNum size) /\
                   clip_id row = match clips w !! (video_id, j) with
                                 | Some old => clip_id old
                                 | None => makeClipId video_id j
                                 end).
Proof.
  intros Hpos Hs Hprobe.
  destruct (reached_bounds D Hpos) as (Hr & Hlong & Hshort).
  induction n as [|n IH]; intros i m w Hin Hv Hfiles.
  - exists w. replace (reached D - i)%nat with 0%nat by lia.
    split; [reflexivity|]. repeat split; auto; intros; lia.
  - destruct (Qc_leb (segmentLen D i) hundredth) eqn:Hlen.
    + apply Qc_leb_true in Hlen.
      assert (i = reached D) as Hi by (apply Hshort; [lia|done]).
      exists w. rewrite (segmentLoop_breaks video_id v rows D _ n i w latest Hv Hs Hlen).
      replace (reached D - i)%nat with 0%nat by lia.
      split; [reflexivity|]. repeat split; auto; intros; lia.
    + apply Qc_leb_false in Hlen.
      assert (i < reached D)%nat as Hi.
      { destruct (decide (i < reached D)%nat); [done|].
        assert (i = segmentTotal D - 1)%nat as -> by lia.
        assert (reached D = segmentTotal D - 1)%nat as Hr' by lia.
        unfold reached in Hr'.
        destruct (Qc_leb (segmentLen D (segmentTotal D - 1)) hundredth) eqn:E;
          [|lia].
        apply Qc_leb_true in E. by apply Qclt_not_le in Hlen. }
      destruct (exec_transcode_turn size probe m video_id v rows D (segmentTotal D) n i w
                  latest Hv Hs Hlen (Hfiles i (ltac:(lia))) Hprobe)
        as (w4 & meta & Hturn & Hv4 & Hf4 & Hc4 & Hj4 & Hl4 & Hck4 & Ha4).
      destruct (IH (S i) (S (S m)) w4) as (w' & Hrun & Hv' & Hl' & Hck' & Ha' & Hfr & Hfat
                                           & Hcr & Hcat).
      { lia. } { by rewrite Hv4. }
      { intros j Hj. unfold complete. rewrite Hf4, lookup_insert_ne.
        - apply (Hfiles j). lia.
        - intros E. apply clipPathOf_inj in E. lia. }
      exists w'. rewrite Hturn, Hrun.
      replace (reached D - i)%nat with (S (reached D - S i)) by lia.
      cbn [seq flat_map]. split; [reflexivity|].
      split; [congruence|]. split; [congruence|]. split; [congruence|].
      split; [congruence|]. split; [|split; [|split]].
      * intros p Hp. rewrite Hfr by (intros j Hj; apply Hp; lia).
        rewrite Hf4, lookup_insert_ne; [done|]. intros E. by apply (Hp i (ltac:(lia))).
      * intros j Hj. destruct (decide (j = i)) as [->|Hne].
        -- rewrite Hfr. { by rewrite Hf4, lookup_insert_eq. }
           intros j Hj' E. apply clipPathOf_inj in E. lia.
        -- apply Hfat. lia.
      * intros key Hkey. rewrite Hcr by (intros j Hj; apply Hkey; lia).
        rewrite Hc4, lookup_insert_ne; [done|]. intros E. by apply (Hkey i (ltac:(lia))).
      * intros j Hj. destruct (decide (j = i)) as [->|Hne].
        -- rewrite Hcr. 2:{ intros j Hj' [= E]. lia. }
           rewrite Hc4, lookup_insert_eq. eexists. split; [reflexivity|].
           by repeat split.
        -- destruct (Hcat j (ltac:(lia))) as (row & Hrow & Hp & Hsz & Hid).
           exists row. split; [done|]. split; [done|]. split; [done|].
           rewrite Hid, Hc4, lookup_insert_ne; [done|]. intros [= E]. lia.
Qed.

(** X26. A whole run where nothing goes wrong. Take an approved video
    that is not in flight, with the duration in its stored metadata (a
    binary64 number below 2^53, for which binary64 arithmetic computes
    the plan exactly), no drift for the pre-pass and no complete clip file on disk;
    let ffmpeg
    succeed and leave a file of more than 1024 bytes at its output path,
    let the prober yield metadata, and let nothing else touch the world.
    Then the run ends normally; the child processes it spawned are, for
    each segment it reaches in turn, one ffmpeg and one probe of its
    output, and no other; the segments it reaches are the planned ones,
    less the last one when that is no longer than the binary64 number
    that [0.01] denotes. At the end each of them has a complete file at
    its path and a clip row with that path and the size on disk, no
    other file has
    changed, the job row says Done with exit code 0, the error message of
    the video is cleared and the in-flight set is what it was. *)
Theorem undisturbed_run_produces_the_clips size probe video_id w v D :
  (1024 < size)%N ->
  (forall p w0, exists meta, metadataOf p (probe (ffprobeRequest p)) w0 = Ok meta) ->
  video_id ∉ activeJobs w ->
  videos w !! video_id = Some v ->
  status v = Approved ->
  cachedDuration v = Some D ->
  binary64 D = true ->
  (D < Qc_of_Z (2 ^ 53))%Qc ->
  drifted w video_id = false ->
  (forall j, complete w (clipPathOf video_id j) = false) ->
  exists w',
    exec (ideal size probe) 0 (generateClipsForVideo video_id w) =
      (Ok tt, w', flat_map (turnRequests video_id v D) (seq 0 (reached D))) /\
    planIsExact D /\
    (segmentTotal D - 1 <= reached D <= segmentTotal D)%nat /\
    (forall j, (j < reached D)%nat ->
       complete w' (clipPathOf video_id j) = true /\
       exists row,
         clips w' !! (video_id, j) = Some row /\
         path row = clipPathOf video_id j /\
         file_size_bytes row = Some (sizeNum size)) /\
    (forall p, (forall j, (j < reached D)%nat -> p <> clipPathOf video_id j) ->
               files w' !! p = files w !! p) /\
    clip_jobs w' !! video_id =
      Some {| state := Done; last_stderr := None; last_exit_code := Some 0;
              updated_at := Date_toISOString (clock w) |} /\
    videos w' !! video_id = Some (withError v None) /\
    activeJobs w' = activeJobs w.
Proof.
  intros Hsize Hprobe Hfree Hv Hs Hc Hb H53 Hdrift Hfiles.
  pose proof (cachedDuration_positive v D Hc) as Hpos.
  destruct (reached_bounds D Hpos) as (Hr & _ & _).
  unfold generateClipsForVideo. rewrite bool_decide_eq_false_2 by done.
  unfold tryFinally. rewrite exec_finally.
  set (w0 := setActiveJobs (fun s => {[video_id]} ∪ s) w).
  destruct (generateClipsBody_enters_loop video_id w0 v D Hv Hs Hc Hdrift)
    as (w3 & Hbody & Hv3 & Hj3 & Hf3 & Hc3 & Hl3 & Hck3 & Ha3).
  rewrite Hbody. unfold runSegments. rewrite bind_unfold, exec_bind.
  destruct (exec_segmentLoop_ideal size probe video_id v (clipsOf video_id (clips w0)) D
              (withError v None) Hpos Hs Hprobe (segmentTotal D) 0%nat 0%nat w3)
    as (w4 & Hloop & Hv4 & Hl4 & Hck4 & Ha4 & Hfr & Hfat & Hcr & Hcat).
  { lia. } { by rewrite Hv3, lookup_insert_eq. }
  { intros j _. unfold complete. rewrite Hf3. apply Hfiles. }
  rewrite Hloop. rewrite Nat.sub_0_r.
  rewrite (setClipJobState_ok video_id Done None (Some 0) w4
             (ltac:(rewrite Hv4, Hv3, lookup_insert_eq; by eexists))).
  cbn [exec]. rewrite app_nil_r. eexists. split; [reflexivity|].
  split; [by apply plan_is_exact|].
  split; [exact Hr|]. cbn. split; [|split; [|split; [|split]]].
  - intros j Hj. split.
    + unfold complete. cbn. rewrite (Hfat j) by lia. cbn. by apply N.ltb_lt.
    + destruct (Hcat j (ltac:(lia))) as (row & Hrow & Hp & Hsz & _).
      exists row. by repeat split.
  - intros p Hp. rewrite Hfr by (intros j Hj; apply Hp; lia). by rewrite Hf3.
  - rewrite lookup_insert_eq. unfold jobRow. by rewrite Hck4, Hck3.
  - by rewrite Hv4, Hv3, lookup_insert_eq.
  - rewrite Ha4, Ha3. cbn. by apply release_acquire.
Qed.

(** ** Scanning twice *)

Lemma scanStep_files w1 w2 probe video_id t f :
  files w1 = files w2 -> scanStep w1 probe video_id t f = scanStep w2 probe video_id t f.
Proof.
  intros Hf. unfold scanStep, scannedRow.
  destruct (parseClipIndex f) as [idx|]; [|done].
  rewrite (complete_same w2 w1 _ Hf).
  rewrite (metadataOf_files _ _ w1 w2 Hf). by rewrite Hf.
Qed.

Lemma foldl_scan_files w1 w2 probe video_id fs :
  files w1 = files w2 ->
  forall t, foldl (scanStep w1 probe video_id) t fs = foldl (scanStep w2 probe video_id) t fs.
Proof.
  intros Hf. induction fs as [|f fs IH]; intros t; [done|].
  cbn [foldl]. by rewrite IH, (scanStep_files w1 w2 probe video_id t f Hf).
Qed.

Lemma scannable_files w1 w2 video_id f :
  files w1 = files w2 -> scannable w1 video_id f = scannable w2 video_id f.
Proof.
  intros Hf. unfold scannable. destruct (parseClipIndex f); [|done].
  by apply complete_same.
Qed.

Lemma foldl_scan_twice w probe video_id fs t :
  NoDup fs ->
  (forall f, f ∈ fs -> scannable w video_id f = true ->
     exists meta, metadataOf (path_join (clipsDirOf video_id) f)
                    (probe (ffprobeRequest (path_join (clipsDirOf video_id) f))) w = Ok meta) ->
  foldl (scanStep w probe video_id) (foldl (scanStep w probe video_id) t fs) fs =
  foldl (scanStep w probe video_id) t fs.
Proof.
  intros Hnd Hprobe. apply map_eq. intros [v idx].
  destruct (decide (Exists (fun f => parseClipIndex f = Some idx /\ v = video_id /\
                                     scannable w video_id f = true) fs)) as [Hex|Hno].
  - apply Exists_exists in Hex as (f & Hin & Hidx & -> & Hsc).
    assert (complete w (path_join (clipsDirOf video_id) f) = true) as Hc
      by (unfold scannable in Hsc; by rewrite Hidx in Hsc).
    rewrite !(foldl_scan_at w probe video_id fs Hnd _ f idx Hin Hidx Hc).
    destruct (Hprobe f Hin Hsc) as [meta Hmeta].
    destruct (complete_stat w _ Hc) as (n & Hstat & _).
    unfold scannedRow. rewrite Hmeta, Hstat. by rewrite upsertedRow_again.
  - rewrite !foldl_scan_other; [done| |].
    + intros f Hin Hidx Hv. cbn in Hidx, Hv. apply not_true_is_false. intros Hsc.
      apply Hno, Exists_exists. by exists f.
    + intros f Hin Hidx Hv. cbn in Hidx, Hv. apply not_true_is_false. intros Hsc.
      apply Hno, Exists_exists. by exists f.
Qed.

(** X27. Scanning the clips of a video a second time, with the files
    and the prober's answers unchanged and nothing else touching the
    world, returns the same counts as the first time and leaves every
    clip row as the first scan left it: the rows are rewritten with the
    same values and keep their ids. *)
Theorem second_scan_changes_nothing video_id w probe :
  is_Some (videos w !! video_id) ->
  (forall f, f ∈ listing w (clipsDirOf video_id) -> scannable w video_id f = true ->
     exists meta, metadataOf (path_join (clipsDirOf video_id) f)
                    (probe (ffprobeRequest (path_join (clipsDirOf video_id) f))) w = Ok meta) ->
  exists counts w1 tr1 w2 tr2,
    exec (quiet probe) 0 (backfillClipMetadata video_id w) = (Ok counts, w1, tr1) /\
    exec (quiet probe) 0 (backfillClipMetadata video_id w1) = (Ok counts, w2, tr2) /\
    clips w2 = clips w1 /\ files w2 = files w1 /\ videos w2 = videos w1 /\
    clip_jobs w2 = clip_jobs w1.
Proof.
  intros Hvideo Hprobe.
  assert (forall wa,
            files wa = files w -> videos wa = videos w ->
            exists wb tr,
              exec (quiet probe) 0 (backfillClipMetadata video_id wa) =
                (Ok {| scanned := length (List.filter (scannable w video_id)
                                            (listing w (clipsDirOf video_id)));
                       upserted := length (List.filter (scannable w video_id)
                                             (listing w (clipsDirOf video_id))) |}, wb, tr) /\
              files wb = files w /\ videos wb = videos w /\
              clips wb = foldl (scanStep w probe video_id) (clips wa)
                               (listing w (clipsDirOf video_id)) /\
              clip_jobs wb = clip_jobs wa) as Hscan.
  { intros wa Hfa Hva. unfold backfillClipMetadata.
    destruct (getClipsDir_spec video_id wa) as (w0 & Hdir & Hsame & Hdirs).
    rewrite (bind_ok _ _ _ _ _ Hdir). cbn beta.
    rewrite (bind_ok _ _ _ _ _ (readdirSync_ok (clipsDirOf video_id) w0
                                  (ltac:(rewrite Hdirs; set_solver)))).
    destruct Hsame as (Hv0 & Hcl0 & Hj0 & Hf0 & _).
    assert (listing w0 (clipsDirOf video_id) = listing w (clipsDirOf video_id)) as ->
      by (unfold listing; by rewrite Hf0, Hfa).
    destruct (backfillLoop_quiet w probe video_id Hvideo
                (listing w (clipsDirOf video_id)) w0 0%nat 0%nat 0%nat
                (ltac:(by rewrite Hf0)) (ltac:(by rewrite Hv0)) Hprobe)
      as (wb & tr & Hrun & Hfb & Hvb & Hclb & Hjb & _).
    exists wb, tr. split; [exact Hrun|]. split; [done|]. split; [done|].
    split; [by rewrite Hclb, Hcl0|]. by rewrite Hjb, Hj0. }
  destruct (Hscan w eq_refl eq_refl) as (w1 & tr1 & Hrun1 & Hf1 & Hv1 & Hc1 & Hj1).
  destruct (Hscan w1 Hf1 Hv1) as (w2 & tr2 & Hrun2 & Hf2 & Hv2 & Hc2 & Hj2).
  eexists _, w1, tr1, w2, tr2. split; [exact Hrun1|]. split; [exact Hrun2|].
  split; [|split; [congruence|split; [congruence|congruence]]].
  rewrite Hc2, Hc1. apply foldl_scan_twice; [apply NoDup_listing|exact Hprobe].
Qed.

(** ** The child processes of the pipeline *)

Section Children.
Variable P : Request -> Prop.

Lemma spawnsOnly_bind {A B} (s : Step A) (f : A -> Async B) :
  spawnsOnly P s -> (forall a, SpawnsOnly P (f a)) -> spawnsOnly P (bindStep s f).
Proof.
  intros Hs Hf. induction s as [[a|e] w|req w k IH]; cbn in *.
  - apply Hf.
  - done.
  - destruct Hs as [Hreq Hk]. split; [done|]. intros res w'. apply IH, Hk.
Qed.

Lemma SpawnsOnly_bind {A B} (m : Async A) (f : A -> Async B) :
  SpawnsOnly P m -> (forall a, SpawnsOnly P (f a)) -> SpawnsOnly P (m ≫= f).
Proof. intros Hm Hf w. rewrite bind_unfold. apply spawnsOnly_bind; [apply Hm|done]. Qed.

Lemma spawnsOnly_catch {A} (s : Step A) (h : Exn -> Async A) :
  spawnsOnly P s -> (forall e, SpawnsOnly P (h e)) -> spawnsOnly P (catchStep s h).
Proof.
  intros Hs Hh. induction s as [[a|e] w|req w k IH]; cbn in *.
  - done.
  - apply Hh.
  - destruct Hs as [Hreq Hk]. split; [done|]. intros res w'. apply IH, Hk.
Qed.

Lemma SpawnsOnly_tryCatch {A} (m : Async A) (h : Exn -> Async A) :
  SpawnsOnly P m -> (forall e, SpawnsOnly P (h e)) -> SpawnsOnly P (tryCatch m h).
Proof. intros Hm Hh w. apply spawnsOnly_catch; [apply Hm|done]. Qed.

Lemma spawnsOnly_finally {A} (s : Step A) c :
  spawnsOnly P s -> spawnsOnly P (finallyStep s c).
Proof.
  intros Hs. induction s as [r w|req w k IH]; cbn in *; [done|].
  destruct Hs as [Hreq Hk]. split; [done|]. intros res w'. apply IH, Hk.
Qed.

Lemma SpawnsOnly_sync {A} (m : Async A) :
  (forall w, exists r w', m w = Finished r w') -> SpawnsOnly P m.
Proof. intros Hm w. by destruct (Hm w) as (r & w' & ->). Qed.

Lemma SpawnsOnly_ret {A} (a : A) : SpawnsOnly P (mret a).
Proof. by intros w. Qed.

Lemma SpawnsOnly_throw {A} e : SpawnsOnly P (@throw A e).
Proof. by intros w. Qed.

Lemma SpawnsOnly_gets {A} (f : World -> A) : SpawnsOnly P (gets f).
Proof. by intros w. Qed.

Lemma SpawnsOnly_modify f : SpawnsOnly P (modify f).
Proof. by intros w. Qed.

Lemma SpawnsOnly_ofResult {A} (r : Result A) : SpawnsOnly P (ofResult r).
Proof. by intros w. Qed.

Lemma SpawnsOnly_runCommand c a t :
  P {| cmd := c; args := a; timeoutMs := t |} -> SpawnsOnly P (runCommand c a t).
Proof. intros Hreq w. cbn. split; [done|]. by intros res w'. Qed.

Lemma SpawnsOnly_getVideo v : SpawnsOnly P (getVideo v).
Proof. intros w. unfold getVideo. by destruct (videos w !! v). Qed.

Lemma SpawnsOnly_statSync p : SpawnsOnly P (statSync p).
Proof. intros w. unfold statSync. by destruct (files w !! p) as [[|]|]. Qed.

Lemma SpawnsOnly_unlinkSync p : SpawnsOnly P (unlinkSync p).
Proof. intros w. unfold unlinkSync. by destruct (files w !! p) as [[|[|] n]|]. Qed.

Lemma SpawnsOnly_readdirSync d : SpawnsOnly P (readdirSync d).
Proof. intros w. unfold readdirSync. by destruct (bool_decide _). Qed.

Lemma SpawnsOnly_foreignKey v : SpawnsOnly P (foreignKey v).
Proof. intros w. unfold foreignKey. by destruct (videos w !! v). Qed.

Lemma SpawnsOnly_getClip v i : SpawnsOnly P (getClip v i).
Proof. intros w. unfold getClip. by destruct (clips w !! (v, i)). Qed.

Lemma exec_spawnsOnly {A} env (s : Step A) :
  spawnsOnly P s -> forall n, Forall P (exec env n s).2.
Proof.
  intros Hs. induction s as [r w|req w k IH]; intros n; cbn [exec]; [by constructor|].
  destruct Hs as [Hreq Hk]. destruct (env n req w) as [res w'].
  specialize (IH res w' (Hk res w') (S n)).
  destruct (exec env (S n) (k res w')) as [[r wf] tr]. cbn in *. by constructor.
Qed.

Create HintDb spawns.

Ltac spawns :=
  repeat first
    [ solve [auto 1 with spawns nocore]
    | apply SpawnsOnly_bind; [|intros ?]
    | apply SpawnsOnly_tryCatch; [|intros ?]
    | match goal with
      | |- SpawnsOnly _ (if ?b then _ else _) => destruct b
      | |- SpawnsOnly _ (match ?x with _ => _ end) => destruct x
      | |- SpawnsOnly _ (let '(_, _) := ?x in _) => destruct x
      end ].

#[local] Hint Resolve SpawnsOnly_ret SpawnsOnly_throw SpawnsOnly_gets SpawnsOnly_modify
  SpawnsOnly_ofResult SpawnsOnly_getVideo SpawnsOnly_statSync SpawnsOnly_unlinkSync
  SpawnsOnly_readdirSync SpawnsOnly_foreignKey SpawnsOnly_getClip : spawns.

Lemma SpawnsOnly_setVideoError v m : SpawnsOnly P (setVideoError v m).
Proof. unfold setVideoError. spawns. Qed.
Lemma SpawnsOnly_saveVideoMetadata v t r : SpawnsOnly P (saveVideoMetadata v t r).
Proof. unfold saveVideoMetadata. spawns. Qed.
Lemma SpawnsOnly_setClipJobState v st e c : SpawnsOnly P (setClipJobState v st e c).
Proof. unfold setClipJobState, nowIso. spawns. Qed.
Lemma SpawnsOnly_upsertClip input : SpawnsOnly P (upsertClip input).
Proof. unfold upsertClip. spawns. Qed.
Lemma SpawnsOnly_getClipsDir v : SpawnsOnly P (getClipsDir v).
Proof. unfold getClipsDir, getVideoDir, ensureDir. spawns. Qed.
#[local] Hint Resolve SpawnsOnly_getClipsDir : spawns.
Lemma SpawnsOnly_clipPath v i : SpawnsOnly P (clipPath v i).
Proof. unfold clipPath. spawns. Qed.
Lemma SpawnsOnly_appendLog f t : SpawnsOnly P (appendLog f t).
Proof. unfold appendLog, logsDir, ensureDir. spawns. Qed.
Lemma SpawnsOnly_liveSize p m : SpawnsOnly P (liveSize p m).
Proof. unfold liveSize. spawns. Qed.
Lemma SpawnsOnly_listClips v : SpawnsOnly P (listClips v).
Proof. unfold listClips. spawns. Qed.

#[local] Hint Resolve SpawnsOnly_setVideoError SpawnsOnly_saveVideoMetadata
  SpawnsOnly_setClipJobState SpawnsOnly_upsertClip SpawnsOnly_clipPath SpawnsOnly_appendLog
  SpawnsOnly_liveSize SpawnsOnly_listClips : spawns.

Hypothesis probes : forall req, probing req -> P req.

Lemma SpawnsOnly_extractVideoMetadata p : SpawnsOnly P (extractVideoMetadata p).
Proof.
  unfold extractVideoMetadata, runFfprobe.
  apply SpawnsOnly_bind.
  - apply SpawnsOnly_bind; [apply SpawnsOnly_runCommand, probes; by split|].
    intros res. unfold checkProbe. spawns.
  - intros raw. unfold describeProbe. spawns.
Qed.
#[local] Hint Resolve SpawnsOnly_extractVideoMetadata : spawns.

Lemma SpawnsOnly_getDurationSeconds v : SpawnsOnly P (getDurationSeconds v).
Proof. unfold getDurationSeconds, storeProbed. spawns. Qed.
#[local] Hint Resolve SpawnsOnly_getDurationSeconds : spawns.

Lemma SpawnsOnly_backfillLoop v d fs : forall a b, SpawnsOnly P (backfillLoop v d fs a b).
Proof.
  induction fs as [|f fs IH]; intros a b; cbn [backfillLoop]; [spawns|].
  destruct (parseClipIndex f); [|apply IH].
  unfold sizeCheck. spawns; apply IH.
Qed.
#[local] Hint Resolve SpawnsOnly_backfillLoop : spawns.

Lemma SpawnsOnly_backfillClipMetadata v : SpawnsOnly P (backfillClipMetadata v).
Proof. unfold backfillClipMetadata. spawns. Qed.
#[local] Hint Resolve SpawnsOnly_backfillClipMetadata : spawns.

Lemma SpawnsOnly_extractAndPersistMetadata v :
  SpawnsOnly P (extractAndPersistMetadata v).
Proof. unfold extractAndPersistMetadata, nowIso. spawns. Qed.

Hypothesis transcodes : forall req, transcoding req -> P req.

Lemma SpawnsOnly_segmentLoop video_id v rows D total n :
  forall i, SpawnsOnly P (segmentLoop video_id v rows D total n i).
Proof.
  induction n as [|n IH]; intros i; cbn [segmentLoop]; [spawns|].
  unfold fileLooksComplete, safeUnlink, nowIso, repairRow.
  spawns; try apply IH.
  apply SpawnsOnly_runCommand, transcodes. by split.
Qed.
#[local] Hint Resolve SpawnsOnly_segmentLoop : spawns.

Lemma SpawnsOnly_generateClipsBody video_id :
  SpawnsOnly P (generateClipsBody video_id).
Proof. unfold generateClipsBody, runSegments. spawns. Qed.

Lemma SpawnsOnly_generateClipsForVideo video_id :
  SpawnsOnly P (generateClipsForVideo video_id).
Proof.
  intros w. unfold generateClipsForVideo. destruct (bool_decide _); [done|].
  unfold tryFinally. apply spawnsOnly_finally, SpawnsOnly_generateClipsBody.
Qed.

End Children.

(** X28. No child process of the pipeline runs without a time limit, and
    none is anything but the transcoder or the prober. Whatever the
    children answer and whatever else happens meanwhile, every child
    that a run of the segmenter spawns is ffmpeg with a limit of ten
    minutes or ffprobe with a limit of one minute; the scan of the clips,
    the resolving of a duration and the extraction of metadata spawn the
    prober only. *)
Theorem every_child_has_a_time_limit env n video_id w :
  Forall (fun req => transcoding req \/ probing req)
         (exec env n (generateClipsForVideo video_id w)).2 /\
  Forall probing (exec env n (backfillClipMetadata video_id w)).2 /\
  Forall probing (exec env n (getDurationSeconds video_id w)).2 /\
  Forall probing (exec env n (extractAndPersistMetadata video_id w)).2.
Proof.
  split; [|split; [|split]]; apply exec_spawnsOnly.
  - apply SpawnsOnly_generateClipsForVideo; intros req Hreq; tauto.
  - by apply SpawnsOnly_backfillClipMetadata.
  - by apply SpawnsOnly_getDurationSeconds.
  - by apply SpawnsOnly_extractAndPersistMetadata.
Qed.

End Properties.

(** * Instances *)

Section Instances.
Import Demo.
#[local] Existing Instance sample.

(** ** Two runs from beginning to end *)

(** A video of 250 seconds gives three clips of 120, 120 and 10 seconds,
    three rows, and a job that is Done. *)
Example three_clips_of_250_seconds :
  let r := exec studio 0 (generateClipsForVideo "v1" (approved (Qc_of_Z 250))) in
  r.1.1 = Ok tt /\
  List.filter (fun a => String.eqb (List.hd "" a) "-hide_banner") (map args r.2) =
    [ ffmpegArgs 0 "/app/data/videos/v1/original.mp4" (Qc_of_Z 120)
                 "/app/data/videos/v1/clips/clip_000.mp4";
      ffmpegArgs 120 "/app/data/videos/v1/original.mp4" (Qc_of_Z 120)
                 "/app/data/videos/v1/clips/clip_001.mp4";
      ffmpegArgs 240 "/app/data/videos/v1/original.mp4" (Qc_of_Z 10)
                 "/app/data/videos/v1/clips/clip_002.mp4" ] /\
  state <$> clip_jobs r.1.2 !! "v1" = Some Done /\
  (fst <$> clipsOf "v1" (clips r.1.2)) = [0; 1; 2]%nat /\
  activeJobs r.1.2 = ∅.
Proof. cbv zeta. repeat split; by vm_compute. Qed.

(** The video is rejected while segment 1 is transcoded: that transcode
    is completed and recorded, the check before segment 2 stops the run,
    the job is Failed, and the two files written so far are still
    there. *)
Example rejection_during_second_transcode :
  let r := exec (rejectedDuring 2) 0 (generateClipsForVideo "v1" (approved (Qc_of_Z 250))) in
  r.1.1 = Ok tt /\
  length (List.filter (String.eqb "ffmpeg") (map cmd r.2)) = 2%nat /\
  clip_jobs r.1.2 !! "v1" =
    Some {| state := Failed;
            last_stderr := Some "Stopped: video status changed to Rejected during generation.";
            last_exit_code := None; updated_at := "5000" |} /\
  complete r.1.2 (clipPathOf "v1" 0) = true /\
  complete r.1.2 (clipPathOf "v1" 1) = true /\
  files r.1.2 !! clipPathOf "v1" 2 = None /\
  activeJobs r.1.2 = ∅.
Proof. cbv zeta. repeat split; by vm_compute. Qed.

(** At the boundary of the guard. The binary64 number that [120.01]
    denotes leaves a last segment just above the number that [0.01]
    denotes: it is transcoded. A duration that is the number [0.01]
    itself is not above it: nothing is transcoded and the job is Done. *)
Example guard_compares_binary64 :
  let D := Q2Qc (8444952988761457 # 70368744177664) in
  let r := exec studio 0 (generateClipsForVideo "v1" (approved D)) in
  let r' := exec studio 0 (generateClipsForVideo "v1" (approved hundredth)) in
  StringToNumber "120.01" = Fin D /\ StringToNumber "0.01" = Fin hundredth /\
  binary64 D = true /\ binary64 hundredth = true /\
  binary64 (Q2Qc (12001 # 100)) = false /\
  (hundredth < segmentLen D 1)%Qc /\
  length (List.filter (String.eqb "ffmpeg") (map cmd r.2)) = 2%nat /\
  is_Some (clips r.1.2 !! ("v1", 1%nat)) /\
  r'.2 = [] /\ state <$> clip_jobs r'.1.2 !! "v1" = Some Done.
Proof.
  cbv zeta.
  split; [vm_compute; apply f_equal, Qc_is_canon; reflexivity|].
  split; [vm_compute; apply f_equal, Qc_is_canon; reflexivity|].
  split; [by vm_compute|]. split; [by vm_compute|]. split; [by vm_compute|].
  split; [by vm_compute|]. split; [by vm_compute|].
  split; [vm_compute; by eexists|]. split; by vm_compute.
Qed.

(** Where the plan is not the one of binary64 arithmetic. At a duration
    of 2^60 the quotient by 120 is rounded to an integer, one below the
    ceiling of the exact quotient. A duration of exactly 120.01 is no
    binary64 number: the difference to the start 120 is rounded. *)
Example plan_beyond_exactness :
  ~ planIsExact (Qc_of_Z (2 ^ 60)) /\ ~ planIsExact (Q2Qc (12001 # 100)).
Proof.
  split.
  - intros [(q & Hq & Ht) _].
    assert (Num_div (Qc_of_Z (2 ^ 60)) (Qc_of_Z CLIP_LEN_SECONDS)
            = Fin (Qc_of_Z 9607679205057058)) as Hq'
      by (vm_compute; apply f_equal, Qc_is_canon; reflexivity).
    rewrite Hq' in Hq. injection Hq as <-.
    unfold segmentTotal in Ht. apply Z2Nat.inj in Ht; [|lia|lia].
    clear Hq'. vm_compute in Ht. discriminate Ht.
  - intros [_ Hs]. specialize (Hs 1%nat ltac:(by vm_compute)).
    by vm_compute in Hs.
Qed.

(** ** The statements at sample inputs *)



Lemma runCommand_resolves_witness :
  forallb (fun e => negb (RunCommand.isClose e))
          [RunCommand.StdoutData "a"; RunCommand.TimeoutFired; RunCommand.StderrData "b"] = true /\
  RunCommand.resolved
    (RunCommand.run (Some 1000)
       [RunCommand.StdoutData "a"; RunCommand.TimeoutFired; RunCommand.StderrData "b"]) = None /\
  exists r,
    RunCommand.resolved
      (RunCommand.run (Some 1000)
         ([RunCommand.StdoutData "a"; RunCommand.TimeoutFired; RunCommand.StderrData "b"]
          ++ RunCommand.Close None :: [])%list) = Some r /\
    stdout r = "a" /\ stderr r = "b" /\ exitCode r = 124.
Proof.
  split; [reflexivity|].
  destruct (runCommand_resolves (Some 1000)
              [RunCommand.StdoutData "a"; RunCommand.TimeoutFired; RunCommand.StderrData "b"]
              None [] eq_refl) as (Hpending & r & Hr & Ho & He & Hc & _).
  split; [exact Hpending|].
  exists r. split; [exact Hr|]. split; [exact Ho|]. split; [exact He|exact Hc].
Defined.

(** C6, as stated, fails: when the child cannot be spawned, the only
    event is ['error'], which nothing listens to, followed at most by
    the timer, whose SIGKILL reaches no process; no close comes and the
    promise is never resolved. *)
Lemma spawn_failure_leaves_promise_pending :
  let evs := [RunCommand.ErrorEvent "spawn ffprobe ENOENT"; RunCommand.TimeoutFired] in
  existsb RunCommand.isError evs = true /\
  existsb RunCommand.isClose evs = false /\
  RunCommand.resolved (RunCommand.run (Some 60000) [RunCommand.ErrorEvent "spawn ffprobe ENOENT"])
    = None /\
  RunCommand.resolved (RunCommand.run (Some 60000) evs) = None /\
  RunCommand.resolved (RunCommand.run None evs) = None.
Proof. cbv zeta. repeat split; reflexivity. Qed.

Lemma status_change_stops_run_witness :
  videos rejected !! "v1" = Some (video Rejected (Some (durationJson (Qc_of_Z 250)))) /\
  status (video Rejected (Some (durationJson (Qc_of_Z 250)))) <> Approved /\
  exists w',
    runSegments "v1" (video Approved (Some (durationJson (Qc_of_Z 250)))) []
                (Qc_of_Z 250) 3 2 1 rejected = Finished (Ok tt) w' /\
    state <$> clip_jobs w' !! "v1" = Some Failed /\
    files w' = files rejected.
Proof.
  assert (videos rejected !! "v1" = Some (video Rejected (Some (durationJson (Qc_of_Z 250)))))
    as Hv by reflexivity.
  assert (status (video Rejected (Some (durationJson (Qc_of_Z 250)))) <> Approved)
    as Hs by discriminate.
  split; [exact Hv|]. split; [exact Hs|].
  destruct (status_change_stops_run "v1" (video Approved (Some (durationJson (Qc_of_Z 250))))
              [] (Qc_of_Z 250) 3 1 1 rejected _ Hv Hs) as (w' & Hrun & Hj & Hf & _).
  exists w'. split; [exact Hrun|]. split; [by rewrite Hj|exact Hf].
Defined.

Lemma stale_jobs_are_reaped_witness :
  is_Some (videos (generatingSince1000 700000) !! "v1") /\
  (exists w',
     recoverStaleJobs (generatingSince1000 700000) = Finished (Ok tt) w' /\
     state <$> clip_jobs w' !! "v1" = Some Failed) /\
  (exists w',
     recoverStaleJobs (generatingSince1000 500000) = Finished (Ok tt) w' /\
     state <$> clip_jobs w' !! "v1" = Some Generating).
Proof.
  split; [by eexists|]. split.
  - destruct (stale_jobs_are_reaped (generatingSince1000 700000) "v1"
                {| state := Generating; last_stderr := None; last_exit_code := None;
                   updated_at := "1000" |} (Qc_of_Z 1000))
      as (w' & Hrun & Hold & _); [by eexists|reflexivity|reflexivity|
                                    by vm_compute; apply f_equal, Qc_is_canon|].
    exists w'. split; [exact Hrun|]. rewrite Hold; [reflexivity|]. by vm_compute.
  - destruct (stale_jobs_are_reaped (generatingSince1000 500000) "v1"
                {| state := Generating; last_stderr := None; last_exit_code := None;
                   updated_at := "1000" |} (Qc_of_Z 1000))
      as (w' & Hrun & _ & Hnew); [by eexists|reflexivity|reflexivity|
                                    by vm_compute; apply f_equal, Qc_is_canon|].
    exists w'. split; [exact Hrun|]. rewrite Hnew; [reflexivity|]. by vm_compute.
Defined.




Lemma segments_as_planned_witness :
  (Qc_of_Z 0 < Qc_of_Z 250)%Qc /\
  binary64 (Qc_of_Z 250) = true /\
  (Qc_of_Z 250 < Qc_of_Z (2 ^ 53))%Qc /\
  segmentTotal (Qc_of_Z 250) = 3%nat /\
  segmentLen (Qc_of_Z 250) 0 = Qc_of_Z 120 /\
  segmentLen (Qc_of_Z 250) 1 = Qc_of_Z 120 /\
  segmentLen (Qc_of_Z 250) 2 = (Qc_of_Z 250 - Qc_of_Z 240)%Qc /\
  exists w1 k,
    segmentLoop "v1" (video Approved (Some (durationJson (Qc_of_Z 250)))) []
                (Qc_of_Z 250) 3 3 2 (approved (Qc_of_Z 250)) =
    Suspended {| cmd := "ffmpeg";
                 args := ffmpegArgs 240 "/app/data/videos/v1/original.mp4"
                                    (segmentLen (Qc_of_Z 250) 2)
                                    "/app/data/videos/v1/clips/clip_002.mp4";
                 timeoutMs := Some 600000 |} w1 k.
Proof.
  assert (Qc_of_Z 0 < Qc_of_Z 250)%Qc as Hpos by by vm_compute.
  assert (binary64 (Qc_of_Z 250) = true) as Hb by by vm_compute.
  assert (Qc_of_Z 250 < Qc_of_Z (2 ^ 53))%Qc as Hlt by by vm_compute.
  assert (segmentTotal (Qc_of_Z 250) = 3%nat) as HN by by vm_compute.
  destruct (segments_as_planned "v1" (video Approved (Some (durationJson (Qc_of_Z 250))))
              [] (Qc_of_Z 250) Hpos Hb Hlt) as (_ & _ & Hfull & Hlast & _ & _ & Hturn).
  rewrite HN in Hfull, Hlast, Hturn.
  split; [exact Hpos|]. split; [exact Hb|]. split; [exact Hlt|]. split; [exact HN|].
  split; [apply Hfull; lia|]. split; [apply Hfull; lia|]. split; [exact Hlast|].
  apply (proj1 (Hturn 2%nat 2%nat (approved (Qc_of_Z 250))
                  (video Approved (Some (durationJson (Qc_of_Z 250))))
                  (ltac:(lia)) eq_refl eq_refl));
    [by vm_compute|reflexivity].
Defined.

(** C1, as stated, fails: a video of 120.0078125 seconds has planned
    count 2 and a last segment of positive length 0.0078125, yet the run
    transcodes one segment only, writes no file and no row for index 1,
    and ends in Done. *)
Lemma short_tail_is_dropped :
  let D := Q2Qc (15361 # 128) in
  let r := exec studio 0 (generateClipsForVideo "v1" (approved D)) in
  (Qc_of_Z 0 < D)%Qc /\
  binary64 D = true /\
  segmentTotal D = 2%nat /\
  (Qc_of_Z 0 < D - Qc_of_Z 120)%Qc /\
  r.1.1 = Ok tt /\
  state <$> clip_jobs r.1.2 !! "v1" = Some Done /\
  length (List.filter (String.eqb "ffmpeg") (map cmd r.2)) <> segmentTotal D /\
  clips r.1.2 !! ("v1", 1%nat) = None /\
  files r.1.2 !! clipPathOf "v1" 1 = None.
Proof.
  cbv zeta. split; [by vm_compute|]. split; [by vm_compute|]. split; [by vm_compute|].
  split; [by vm_compute|]. split; [by vm_compute|]. split; [by vm_compute|].
  split; [vm_compute; lia|]. split; by vm_compute.
Qed.

Lemma second_run_is_idle_witness :
  ("v1" ∉ activeJobs afterFirstRun) /\
  videos afterFirstRun !! "v1" = Some (video Approved (Some (durationJson (Qc_of_Z 250)))) /\
  drifted afterFirstRun "v1" = false /\
  (forall i, (i < segmentTotal (Qc_of_Z 250))%nat ->
             (hundredth < segmentLen (Qc_of_Z 250) i)%Qc ->
             complete afterFirstRun (clipPathOf "v1" i) = true /\
             is_Some (clips afterFirstRun !! ("v1", i))) /\
  exists w',
    generateClipsForVideo "v1" afterFirstRun = Finished (Ok tt) w' /\
    files w' = files afterFirstRun /\ clips w' = clips afterFirstRun /\
    state <$> clip_jobs w' !! "v1" = Some Done.
Proof.
  assert ("v1" ∉ activeJobs afterFirstRun) as Hfree by by vm_compute.
  assert (videos afterFirstRun !! "v1"
          = Some (video Approved (Some (durationJson (Qc_of_Z 250))))) as Hv by by vm_compute.
  assert (drifted afterFirstRun "v1" = false) as Hd by by vm_compute.
  assert (forall i, (i < segmentTotal (Qc_of_Z 250))%nat ->
             (hundredth < segmentLen (Qc_of_Z 250) i)%Qc ->
             complete afterFirstRun (clipPathOf "v1" i) = true /\
             is_Some (clips afterFirstRun !! ("v1", i))) as Hclips.
  { assert (segmentTotal (Qc_of_Z 250) = 3%nat) as -> by by vm_compute.
    intros i Hi _. destruct i as [|[|[|i]]]; [| | |lia];
      (split; [by vm_compute|vm_compute; by eexists]). }
  split; [exact Hfree|]. split; [exact Hv|]. split; [exact Hd|]. split; [exact Hclips|].
  destruct (second_run_is_idle "v1" afterFirstRun _ (Qc_of_Z 250) Hfree Hv eq_refl eq_refl
              Hd Hclips) as (w' & Hrun & Hf & Hc & Hj & _).
  exists w'. split; [exact Hrun|]. split; [exact Hf|]. split; [exact Hc|]. by rewrite Hj.
Defined.

Lemma backfill_repairs_rows_witness :
  is_Some (videos twoFiles !! "v1") /\
  listing twoFiles (clipsDirOf "v1") = ["clip_000.mp4"; "clip_001.mp4"] /\
  exists w' tr,
    exec (quiet (fun _ => probeAnswer "120.000000")) 0 (backfillClipMetadata "v1" twoFiles) =
      (Ok {| scanned := 2; upserted := 2 |}, w', tr) /\
    is_Some (clips w' !! ("v1", 0%nat)) /\ is_Some (clips w' !! ("v1", 1%nat)) /\
    clips w' !! ("v1", 2%nat) = None.
Proof.
  assert (is_Some (videos twoFiles !! "v1")) as Hv by by eexists.
  assert (listing twoFiles (clipsDirOf "v1") = ["clip_000.mp4"; "clip_001.mp4"]) as Hl
    by by vm_compute.
  split; [exact Hv|]. split; [exact Hl|].
  destruct (backfill_repairs_rows "v1" twoFiles (fun _ => probeAnswer "120.000000") Hv)
    as (_ & w' & tr & Hrun & _ & _ & Hrows & Hother).
  { rewrite Hl. intros f Hin _.
    apply elem_of_cons in Hin as [->|Hin]; [by vm_compute; eexists|].
    apply elem_of_cons in Hin as [->|Hin]; [by vm_compute; eexists|].
    apply elem_of_nil in Hin. destruct Hin. }
  rewrite Hl in Hrun, Hrows, Hother.
  exists w', tr. split; [exact Hrun|]. split; [|split].
  - destruct (Hrows "clip_000.mp4" 0%nat) as (meta & n & _ & _ & ->);
      [apply elem_of_cons; by left|reflexivity|by vm_compute|
       by eexists].
  - destruct (Hrows "clip_001.mp4" 1%nat) as (meta & n & _ & _ & ->);
      [apply elem_of_cons; right; apply elem_of_cons; by left|reflexivity|by vm_compute|
       by eexists].
  - rewrite Hother; [reflexivity|]. intros f Hin Hidx _.
    apply elem_of_cons in Hin as [->|Hin]; [by vm_compute in Hidx|].
    apply elem_of_cons in Hin as [->|Hin]; [by vm_compute in Hidx|].
    apply elem_of_nil in Hin. destruct Hin.
Defined.

(** C5, as stated, fails: with two clip files that pass the size test,
    one of which the prober cannot open, the scan does not skip that file
    and return counts: it ends with the prober's exception. *)
Lemma backfill_aborts_on_unreadable :
  let r := exec (quiet deniedFirst) 0 (backfillClipMetadata "v1" twoFiles) in
  scannable twoFiles "v1" "clip_000.mp4" = true /\
  scannable twoFiles "v1" "clip_001.mp4" = true /\
  r.1.1 = Thrown (Error ("ffprobe failed (exit=1)." +:+ newline +:+ "stderr:" +:+ newline
                         +:+ "Permission denied")) /\
  (forall counts, r.1.1 <> Ok counts).
Proof.
  cbv zeta. split; [by vm_compute|]. split; [by vm_compute|].
  assert (forall r : Result BackfillCounts * World * list Request,
            r = exec (quiet deniedFirst) 0 (backfillClipMetadata "v1" twoFiles) ->
            r.1.1 = Thrown (Error ("ffprobe failed (exit=1)." +:+ newline +:+ "stderr:"
                                   +:+ newline +:+ "Permission denied"))) as Hr.
  { intros r ->. by vm_compute. }
  split; [by apply Hr|]. intros counts. by rewrite (Hr _ eq_refl).
Qed.

Lemma one_run_per_video_witness :
  ("v1" ∈ activeJobs busy) /\
  generateClipsForVideo "v1" busy = Finished (Ok tt) busy /\
  ("v1" ∉ activeJobs (approved (Qc_of_Z 250))) /\
  releases "v1" ({["v1"]} ∪ activeJobs (approved (Qc_of_Z 250)))
           (generateClipsForVideo "v1" (approved (Qc_of_Z 250))) /\
  tasks idleProcess = [] /\ activeJobs (world idleProcess) = ∅ /\
  (let p := settle "v1" (generateClipsForVideo "v1" (world idleProcess)) (tasks idleProcess) in
   rtc pstep idleProcess p /\
   NoDup (task_video <$> tasks p) /\
   activeJobs (world p) = list_to_set (task_video <$> tasks p)).
Proof.
  destruct one_run_per_video as (Hbusy & Hrel & Hinv).
  assert ("v1" ∈ activeJobs busy) as Hin by by vm_compute.
  assert ("v1" ∉ activeJobs (approved (Qc_of_Z 250))) as Hout by by vm_compute.
  split; [exact Hin|]. split; [exact (Hbusy "v1" busy Hin)|].
  split; [exact Hout|]. split; [exact (Hrel "v1" _ Hout)|].
  split; [reflexivity|]. split; [reflexivity|]. cbv zeta.
  assert (rtc pstep idleProcess
            (settle "v1" (generateClipsForVideo "v1" (world idleProcess)) (tasks idleProcess)))
    as Hsteps by (apply rtc_once; constructor).
  split; [exact Hsteps|]. exact (Hinv idleProcess _ eq_refl eq_refl Hsteps).
Defined.


#[local] Existing Instance stack.

(** ** The further statements at sample inputs *)


Lemma unapproved_video_is_left_alone_witness :
  ("v1" ∉ activeJobs rejected) /\
  generateClipsForVideo "v1" rejected = Finished (Ok tt) rejected /\
  ("v9" ∉ activeJobs rejected) /\
  generateClipsForVideo "v9" rejected =
    Finished (Thrown (Error "Video not found: v9")) rejected.
Proof.
  assert ("v1" ∉ activeJobs rejected) as H1 by by vm_compute.
  assert ("v9" ∉ activeJobs rejected) as H9 by by vm_compute.
  split; [exact H1|]. split.
  { apply (proj1 (unapproved_video_is_left_alone "v1" rejected H1)
             (video Rejected (Some (durationJson (Qc_of_Z 250)))));
      [reflexivity|discriminate]. }
  split; [exact H9|].
  apply (proj2 (unapproved_video_is_left_alone "v9" rejected H9)). reflexivity.
Defined.





Lemma clip_paths_are_distinct_witness :
  (Z.of_nat 3 < 2 ^ 53)%Z /\ (Z.of_nat 1000 < 2 ^ 53)%Z /\ 3%nat <> 1000%nat /\
  clipPathOf "v1" 3 <> clipPathOf "v1" 1000.
Proof.
  assert (Z.of_nat 3 < 2 ^ 53)%Z as H3 by by vm_compute.
  assert (Z.of_nat 1000 < 2 ^ 53)%Z as H1000 by by vm_compute.
  assert (3%nat <> 1000%nat) as Hne by lia.
  split; [exact H3|]. split; [exact H1000|]. split; [exact Hne|].
  exact (clip_paths_are_distinct "v1" 3 1000 H3 H1000 Hne).
Defined.

Lemma referential_oneClip : referential oneClip.
Proof.
  split.
  - intros v i [r Hr]. unfold oneClip in Hr. cbn [clips] in Hr.
    apply lookup_singleton_Some in Hr as [[= <- _] _]. by eexists.
  - intros v [r Hr]. unfold oneClip in Hr. cbn [clip_jobs] in Hr.
    apply lookup_singleton_Some in Hr as [<- _]. by eexists.
Defined.

Lemma deleteVideo_cascades_witness :
  referential oneClip /\
  is_Some (clips oneClip !! ("v1", 0%nat)) /\ is_Some (clip_jobs oneClip !! "v1") /\
  exists w',
    deleteVideo "v1" oneClip = Finished (Ok tt) w' /\
    getVideo "v1" w' = Finished (Thrown (Error "Video not found: v1")) w' /\
    listClips "v1" w' = Finished (Ok []) w' /\
    getClipJob "v1" w' = Finished (Ok None) w' /\
    files w' = files oneClip.
Proof.
  split; [exact referential_oneClip|]. split; [by eexists|]. split; [by eexists|].
  destruct (deleteVideo_cascades "v1" oneClip referential_oneClip)
    as (w' & Hrun & _ & Hget & Hlist & Hjob & _ & Hfiles & _).
  exists w'. split; [exact Hrun|]. split; [exact Hget|]. split; [exact Hlist|].
  split; [exact Hjob|exact Hfiles].
Defined.

Lemma missing_video_is_reported_witness :
  videos (approved (Qc_of_Z 250)) !! "v9" = None /\
  getVideo "v9" (approved (Qc_of_Z 250)) =
    Finished (Thrown (Error "Video not found: v9")) (approved (Qc_of_Z 250)) /\
  updateVideoStatus "v9" Approved (approved (Qc_of_Z 250)) =
    Finished (Thrown (Error "Video not found: v9")) (approved (Qc_of_Z 250)) /\
  setClipJobState "v9" Generating None None (approved (Qc_of_Z 250)) =
    Finished (Thrown (SqliteError "FOREIGN KEY constraint failed")) (approved (Qc_of_Z 250)).
Proof.
  assert (videos (approved (Qc_of_Z 250)) !! "v9" = None) as Hv by reflexivity.
  destruct (missing_video_is_reported "v9" (approved (Qc_of_Z 250)) Hv)
    as (Hget & Hst & _ & _ & Hjob & _).
  split; [exact Hv|]. split; [exact Hget|]. split; [exact (Hst Approved)|].
  exact (Hjob Generating None None).
Defined.

Lemma probed_metadata_is_well_formed_witness :
  exists meta,
    describeProbe "/app/data/videos/v1/clips/clip_000.mp4" (probeJson "250.5") twoFiles =
      Finished (Ok meta) twoFiles /\
    meta_ffprobe_raw meta = probeJson "250.5" /\
    meta_file_size_bytes meta = Some (sizeNum 2000) /\
    (meta_aspect_ratio meta = None <-> meta_aspect_ratio_str meta = None).
Proof.
  assert (exists meta,
            describeProbe "/app/data/videos/v1/clips/clip_000.mp4" (probeJson "250.5")
                          twoFiles = Finished (Ok meta) twoFiles) as [meta Hm]
    by (vm_compute; by eexists).
  destruct (probed_metadata_is_well_formed _ _ _ _ _ Hm) as (_ & Hraw & _ & Hasp & Hsize).
  exists meta. split; [exact Hm|]. split; [exact Hraw|]. split; [|exact Hasp].
  apply (Hsize true). reflexivity.
Defined.

Lemma primary_stream_is_described_witness :
  probeJson "250.5" <> JNull /\ JObj [] <> JNull /\
  describeProbe "/x" (JObj []) unprobed =
    Finished (Thrown (Error "ffprobe returned no video stream.")) unprobed /\
  exists meta,
    describeProbe "/x" (probeJson "250.5") unprobed = Finished (Ok meta) unprobed /\
    meta_fps meta = Some ntsc /\
    meta_codec meta = None.
Proof.
  assert (probeJson "250.5" <> JNull) as Hraw by discriminate.
  assert (JObj [] <> JNull) as Hobj by discriminate.
  split; [exact Hraw|]. split; [exact Hobj|]. split.
  { apply (proj1 (primary_stream_is_described "/x" (JObj []) unprobed Hobj)). reflexivity. }
  assert (exists meta, describeProbe "/x" (probeJson "250.5") unprobed
                       = Finished (Ok meta) unprobed) as [meta Hm]
    by (vm_compute; by eexists).
  destruct (proj2 (proj2 (primary_stream_is_described "/x" (probeJson "250.5") unprobed Hraw))
              (JObj [ ("codec_type", JStr "video");
                      ("width", JNum (Qc_of_Z 1920));
                      ("height", JNum (Qc_of_Z 1080));
                      ("r_frame_rate", JStr "30000/1001");
                      ("avg_frame_rate", JStr "30/1") ]) meta)
    as (Hfps & _ & _ & Hcodec & _); [right; split; reflexivity|exact Hm|].
  exists meta. split; [exact Hm|]. split; [|exact Hcodec].
  rewrite Hfps. vm_compute. apply f_equal, Qc_is_canon. reflexivity.
Defined.

Lemma kill_only_on_timeout_witness :
  forallb (fun e => negb (RunCommand.isClose e)) [RunCommand.StdoutData "a"] = true /\
  RunCommand.kills
    (RunCommand.run (Some 1000)
       ([RunCommand.StdoutData "a"]
        ++ RunCommand.Close (Some 0) :: [RunCommand.TimeoutFired])%list) = [] /\
  exitCode <$> RunCommand.resolved
    (RunCommand.run (Some 1000)
       ([RunCommand.StdoutData "a"]
        ++ RunCommand.Close (Some 0) :: [RunCommand.TimeoutFired])%list) = Some 0.
Proof.
  split; [reflexivity|].
  destruct (kill_only_on_timeout (Some 1000) [RunCommand.StdoutData "a"] (Some 0)
              [RunCommand.TimeoutFired] eq_refl) as (Hkills & _ & Hcode).
  split; [exact Hkills|]. exact (Hcode eq_refl).
Defined.



Lemma videos_delete_removes_everything_witness :
  Forall (fun id => plainName id = true) ["v1"; "v9"] /\
  referential oneClip /\
  exists w',
    videos_delete ["v1"; "v9"] oneClip = Finished (Ok 2%nat) w' /\
    videos w' !! "v1" = None /\ clip_jobs w' !! "v1" = None /\
    clips w' !! ("v1", 0%nat) = None /\
    files w' !! "/app/data/videos/v1/clips/clip_000.mp4" = None.
Proof.
  assert (Forall (fun id => plainName id = true) ["v1"; "v9"]) as Hplain
    by (repeat constructor).
  split; [exact Hplain|]. split; [exact referential_oneClip|].
  destruct (videos_delete_removes_everything ["v1"; "v9"] oneClip Hplain referential_oneClip)
    as (w' & Hrun & _ & Hin & _).
  destruct (Hin "v1") as (Hv & Hj & Hc & Hf); [apply elem_of_cons; by left|].
  exists w'. split; [exact Hrun|]. split; [exact Hv|]. split; [exact Hj|].
  split; [exact (Hc 0%nat)|]. apply Hf. reflexivity.
Defined.

Lemma sample_probe_answers p w0 :
  exists meta, metadataOf p (probeAnswer "120.000000") w0 = Ok meta.
Proof.
  apply (metadataOf_defined p _ w0 (probeJson "120.000000")
           (JObj [ ("codec_type", JStr "video");
                   ("width", JNum (Qc_of_Z 1920));
                   ("height", JNum (Qc_of_Z 1080));
                   ("r_frame_rate", JStr "30000/1001");
                   ("avg_frame_rate", JStr "30/1") ]) None);
    [reflexivity|discriminate|reflexivity|reflexivity].
Defined.

Lemma undisturbed_run_produces_the_clips_witness :
  (1024 < 5000)%N /\
  binary64 (Qc_of_Z 250) = true /\
  (Qc_of_Z 250 < Qc_of_Z (2 ^ 53))%Qc /\
  ("v1" ∉ activeJobs (approved (Qc_of_Z 250))) /\
  videos (approved (Qc_of_Z 250)) !! "v1"
    = Some (video Approved (Some (durationJson (Qc_of_Z 250)))) /\
  drifted (approved (Qc_of_Z 250)) "v1" = false /\
  (forall j, complete (approved (Qc_of_Z 250)) (clipPathOf "v1" j) = false) /\
  reached (Qc_of_Z 250) = 3%nat /\
  exists w',
    exec (ideal 5000 (fun _ => probeAnswer "120.000000")) 0
         (generateClipsForVideo "v1" (approved (Qc_of_Z 250))) =
      (Ok tt, w',
       flat_map (turnRequests "v1" (video Approved (Some (durationJson (Qc_of_Z 250))))
                              (Qc_of_Z 250)) [0; 1; 2]%nat) /\
    complete w' (clipPathOf "v1" 2) = true /\
    state <$> clip_jobs w' !! "v1" = Some Done.
Proof.
  assert (1024 < 5000)%N as Hsize by reflexivity.
  assert ("v1" ∉ activeJobs (approved (Qc_of_Z 250))) as Hfree by by vm_compute.
  assert (videos (approved (Qc_of_Z 250)) !! "v1"
          = Some (video Approved (Some (durationJson (Qc_of_Z 250))))) as Hv by reflexivity.
  assert (drifted (approved (Qc_of_Z 250)) "v1" = false) as Hd by by vm_compute.
  assert (forall j, complete (approved (Qc_of_Z 250)) (clipPathOf "v1" j) = false) as Hnone
    by (intros j; reflexivity).
  assert (reached (Qc_of_Z 250) = 3%nat) as HN by by vm_compute.
  assert (binary64 (Qc_of_Z 250) = true) as Hb by by vm_compute.
  assert (Qc_of_Z 250 < Qc_of_Z (2 ^ 53))%Qc as Hlt by by vm_compute.
  split; [exact Hsize|]. split; [exact Hb|]. split; [exact Hlt|].
  split; [exact Hfree|]. split; [exact Hv|]. split; [exact Hd|].
  split; [exact Hnone|]. split; [exact HN|].
  destruct (undisturbed_run_produces_the_clips 5000 (fun _ => probeAnswer "120.000000")
              "v1" (approved (Qc_of_Z 250)) _ (Qc_of_Z 250) Hsize sample_probe_answers
              Hfree Hv eq_refl eq_refl Hb Hlt Hd Hnone)
    as (w' & Hrun & _ & _ & Hclips & _ & Hjob & _).
  rewrite HN in Hrun, Hclips.
  exists w'. split; [exact Hrun|]. split; [|by rewrite Hjob].
  apply (Hclips 2%nat). lia.
Defined.

Lemma second_scan_changes_nothing_witness :
  is_Some (videos twoFiles !! "v1") /\
  listing twoFiles (clipsDirOf "v1") = ["clip_000.mp4"; "clip_001.mp4"] /\
  exists counts w1 tr1 w2 tr2,
    exec (quiet (fun _ => probeAnswer "120.000000")) 0 (backfillClipMetadata "v1" twoFiles) =
      (Ok counts, w1, tr1) /\
    exec (quiet (fun _ => probeAnswer "120.000000")) 0 (backfillClipMetadata "v1" w1) =
      (Ok counts, w2, tr2) /\
    clips w2 = clips w1.
Proof.
  assert (is_Some (videos twoFiles !! "v1")) as Hv by by eexists.
  assert (listing twoFiles (clipsDirOf "v1") = ["clip_000.mp4"; "clip_001.mp4"]) as Hl
    by by vm_compute.
  split; [exact Hv|]. split; [exact Hl|].
  destruct (second_scan_changes_nothing "v1" twoFiles (fun _ => probeAnswer "120.000000") Hv)
    as (counts & w1 & tr1 & w2 & tr2 & Hrun1 & Hrun2 & Hclips & _).
  { intros f _ _. apply sample_probe_answers. }
  exists counts, w1, tr1, w2, tr2. split; [exact Hrun1|]. split; [exact Hrun2|exact Hclips].
Defined.

Lemma upsertClip_round_trip_witness :
  is_Some (videos (approved (Qc_of_Z 250)) !! "v1") /\
  (exists row w',
     upsertClip (clipInput "v1") (approved (Qc_of_Z 250)) = Finished (Ok row) w' /\
     getClip "v1" 0 w' = Finished (Ok row) w' /\
     clip_id row = "v1:000" /\
     upsertClip (clipInput "v1") w' = Finished (Ok row) w') /\
  videos (approved (Qc_of_Z 250)) !! "v9" = None /\
  upsertClip (clipInput "v9") (approved (Qc_of_Z 250)) =
    Finished (Thrown (SqliteError "FOREIGN KEY constraint failed")) (approved (Qc_of_Z 250)).
Proof.
  assert (is_Some (videos (approved (Qc_of_Z 250)) !! "v1")) as Hv by by eexists.
  assert (videos (approved (Qc_of_Z 250)) !! "v9" = None) as Hgone by reflexivity.
  split; [exact Hv|]. split.
  - destruct (proj1 (upsertClip_round_trip (clipInput "v1") (approved (Qc_of_Z 250))) Hv)
      as (row & w' & Hrun & Hget & Hid & _ & _ & _ & _ & _ & _ & _ & _ & _ & _ & Hagain).
    exists row, w'. split; [exact Hrun|]. split; [exact Hget|]. split; [exact Hid|exact Hagain].
  - split; [exact Hgone|].
    exact (proj2 (upsertClip_round_trip (clipInput "v9") (approved (Qc_of_Z 250))) Hgone).
Defined.

Lemma createVideo_is_pending_witness :
  videos (approved (Qc_of_Z 250)) !! "v2" = None /\
  (exists row w',
     createVideo (imported "v2") (approved (Qc_of_Z 250)) = Finished (Ok row) w' /\
     status row = Pending /\ metadata_json row = None /\
     getVideo "v2" w' = Finished (Ok row) w') /\
  is_Some (videos (approved (Qc_of_Z 250)) !! "v1") /\
  createVideo (imported "v1") (approved (Qc_of_Z 250)) =
    Finished (Thrown (SqliteError "UNIQUE constraint failed: videos.video_id"))
             (approved (Qc_of_Z 250)).
Proof.
  assert (videos (approved (Qc_of_Z 250)) !! "v2" = None) as Hnew by reflexivity.
  assert (is_Some (videos (approved (Qc_of_Z 250)) !! "v1")) as Hold by by eexists.
  split; [exact Hnew|]. split.
  - destruct (proj1 (createVideo_is_pending (imported "v2") (approved (Qc_of_Z 250))) Hnew)
      as (row & w' & Hrun & Hrow & Hget & _).
    exists row, w'. split; [exact Hrun|]. split; [by rewrite Hrow|].
    split; [by rewrite Hrow|exact Hget].
  - split; [exact Hold|].
    exact (proj2 (createVideo_is_pending (imported "v1") (approved (Qc_of_Z 250))) Hold).
Defined.

Lemma truncateForDb_bounds_witness :
  (String.length "abcdef" <= 10)%nat /\ truncateForDb "abcdef" 10 = "abcdef" /\
  (4 < String.length "abcdefghijkl")%nat /\
  slice0 4 (truncateForDb "abcdefghijkl" 4) = "abcd" /\
  String.length (truncateForDb "abcdefghijkl" 4) = 30%nat.
Proof.
  assert (String.length "abcdef" <= 10)%nat as Hfit by (cbn; lia).
  assert (4 < String.length "abcdefghijkl")%nat as Hlong by (cbn; lia).
  split; [exact Hfit|]. split; [exact (proj1 (truncateForDb_bounds "abcdef" 10) Hfit)|].
  split; [exact Hlong|].
  destruct (proj2 (truncateForDb_bounds "abcdefghijkl" 4) Hlong) as [Hhead Hlen].
  split; [exact Hhead|exact Hlen].
Defined.

Lemma aspect_ratio_sources_witness :
  split ":" "16:9" = ["16"; "9"] /\
  StringToNumber "16" = Fin (Qc_of_Z 16) /\ StringToNumber "9" = Fin (Qc_of_Z 9) /\
  Num_div (Qc_of_Z 16) (Qc_of_Z 9) = Fin wide /\
  computeAspectRatio None None (Some "16:9") = (Some "16:9", Some (Fin wide)).
Proof.
  assert (split ":" "16:9" = ["16"; "9"]) as Hs by reflexivity.
  assert (StringToNumber "16" = Fin (Qc_of_Z 16)) as H16
    by (vm_compute; apply f_equal, Qc_is_canon; reflexivity).
  assert (StringToNumber "9" = Fin (Qc_of_Z 9)) as H9
    by (vm_compute; apply f_equal, Qc_is_canon; reflexivity).
  assert (Num_div (Qc_of_Z 16) (Qc_of_Z 9) = Fin wide) as Hq
    by (vm_compute; apply f_equal, Qc_is_canon; reflexivity).
  split; [exact Hs|]. split; [exact H16|]. split; [exact H9|]. split; [exact Hq|].
  rewrite <- Hq.
  apply (proj1 (aspect_ratio_sources None None (Some "16:9")) "16:9" "16" "9");
    [reflexivity|discriminate|discriminate|discriminate|exact Hs|exact H16|exact H9|].
  intros E. by vm_compute in E.
Defined.


Lemma metadata_extraction_is_reported_witness :
  videos unprobed !! "v1" = Some (video Approved None) /\
  videos unprobed !! "v9" = None /\
  extractAndPersistMetadata "v9" unprobed =
    Finished (Thrown (Error "Video not found: v9")) unprobed /\
  exists w1 k w' w'',
    extractAndPersistMetadata "v1" unprobed =
      Suspended (ffprobeRequest "/app/data/videos/v1/original.mp4") w1 k /\
    k (probeAnswer "250.5") unprobed = Finished (Ok tt) w' /\
    is_Some (videos w' !! "v1" ≫= metadata_json) /\
    k failing unprobed = Finished (Ok tt) w'' /\
    is_Some (videos w'' !! "v1" ≫= error_message) /\
    is_Some (logs w'' !! "/app/data/logs/v1-ffprobe.log").
Proof.
  assert (videos unprobed !! "v1" = Some (video Approved None)) as Hv by reflexivity.
  assert (videos unprobed !! "v9" = None) as Hgone by reflexivity.
  split; [exact Hv|]. split; [exact Hgone|].
  split; [exact (proj1 (metadata_extraction_is_reported "v9" unprobed) Hgone)|].
  destruct (proj2 (metadata_extraction_is_reported "v1" unprobed) _ Hv)
    as (w1 & k & Hrun & _ & _ & _ & _ & _ & Hres).
  assert (exists meta, metadataOf "/app/data/videos/v1/original.mp4" (probeAnswer "250.5")
                                  unprobed = Ok meta) as [meta Hm]
    by (vm_compute; by eexists).
  destruct (proj1 (Hres (probeAnswer "250.5") unprobed) _ meta Hv Hm) as (w' & Hk & Hrow & _).
  assert (metadataOf "/app/data/videos/v1/original.mp4" failing unprobed =
          Thrown (Error ("ffprobe failed (exit=1)." +:+ newline +:+ "stderr:" +:+ newline
                         +:+ "Conversion failed!"))) as Hf by reflexivity.
  destruct (proj1 (proj2 (Hres failing unprobed)) _ _ Hv Hf) as (w'' & Hk' & Hrow' & Hlog).
  exists w1, k, w', w''. split; [exact Hrun|]. split; [exact Hk|].
  split; [rewrite Hrow; by eexists|]. split; [exact Hk'|].
  split; [rewrite Hrow'; by eexists|]. eexists. exact Hlog.
Defined.

End Instances.
